(** * ASL recognition backend (backend/main.py): model and verified properties

    The recognition pipeline of backend/main.py is embedded function by
    function: the one-euro filter, the landmark smoothing loop with its
    raw-coordinate fallback, the geometric feature extractor, the rule
    matcher over the static lexicon, and the sentence builder with its
    majority vote and repeat cooldown.

    Python floats are IEEE 754 binary64 numbers and are modelled by Rocq's
    primitive floats, so thresholds such as [8 * 0.65] or [score / total]
    evaluate in the model exactly as they do in CPython.  Wall-clock readings
    ([time.time()]) are explicit arguments.  The two libm-backed NumPy
    routines the extractor calls ([np.arccos], [np.degrees]) are parameters of
    the model (record [Libm]). *)

From Stdlib Require Import Floats.
From stdpp Require Import base option list gmap strings.

Local Open Scope string_scope.
Local Open Scope list_scope.

(** ** Python values, exceptions *)

(** A coordinate read from a JSON landmark is a number or [None] (a missing
    key read with [.get], or a JSON null). *)
Inductive pyval : Type :=
  | PyNone
  | PyFloat (f : float).

Inductive exn : Type :=
  | TypeError
  | IndexError
  | ZeroDivisionError.

Inductive result (A : Type) : Type :=
  | Ok (a : A)
  | Raise (e : exn).
Arguments Ok {A} a.
Arguments Raise {A} e.

Global Instance result_ret : MRet result := λ A a, Ok a.
Global Instance result_bind : MBind result := λ A B k m,
  match m with
  | Ok a => k a
  | Raise e => Raise e
  end.

(** Stateful Python code: the state survives a raised exception (objects
    mutated before the raise stay mutated). *)
Definition ST (S A : Type) : Type := S → result A * S.

Definition st_ret {S A} (a : A) : ST S A := λ s, (Ok a, s).
Definition st_raise {S A} (e : exn) : ST S A := λ s, (Raise e, s).
Definition st_bind {S A B} (m : ST S A) (k : A → ST S B) : ST S B := λ s,
  match m s with
  | (Ok a, s') => k a s'
  | (Raise e, s') => (Raise e, s')
  end.

Declare Scope st_scope.
Delimit Scope st_scope with st.
Notation "x <- m ;; k" := (st_bind m (λ x, k))
  (at level 100, m at next level, right associativity) : st_scope.

(** Arithmetic on values: [None] operands raise [TypeError]; float division
    by zero raises [ZeroDivisionError]. *)
Definition as_float (v : pyval) : result float :=
  match v with
  | PyFloat f => Ok f
  | PyNone => Raise TypeError
  end.

Definition py_sub (a b : pyval) : result float :=
  x ← as_float a; y ← as_float b; Ok (x - y)%float.

Definition py_div (a b : float) : result float :=
  if (b =? 0)%float then Raise ZeroDivisionError else Ok (a / b)%float.

(** ** Configuration (class Config) *)

Module Config.
(** 0.75 *)
Definition CONFIDENCE_THRESHOLD : float := 0x1.8p-1%float.
Definition BUFFER_SIZE : nat := 8.
(** 0.65 *)
Definition MAJORITY_THRESHOLD : float := 0x1.4cccccccccccdp-1%float.
Definition FILTER_MIN_CUTOFF : float := 0x1.8p+0%float.
Definition FILTER_BETA : float := 8%float.
Definition WORD_COOLDOWN : float := 0x1p-1%float.
End Config.

(** [math.pi] *)
Definition math_pi : float := 0x1.921fb54442d18p+1%float.

(** A Python int used in float arithmetic. *)
Definition nat2f (n : nat) : float := PrimFloat.of_uint63 (Uint63.of_Z (Z.of_nat n)).

(** ** class OneEuroFilter *)

Record OneEuroFilter : Type := {
  t_prev : float;
  x_prev : pyval;
  dx_prev : float;
  min_cutoff : float;
  beta : float;
  d_cutoff : float
}.

Module OneEuro.

(** [__init__(t0, x0, dx0=0.0, min_cutoff=1.0, beta=0.0, d_cutoff=1.0)] *)
Definition init (t0 : float) (x0 : pyval) (min_cutoff beta : float) : OneEuroFilter :=
  {| t_prev := t0; x_prev := x0; dx_prev := 0%float;
     min_cutoff := min_cutoff; beta := beta; d_cutoff := 1%float |}.

Definition smoothing_factor (t_e cutoff : float) : result float :=
  let r := (2 * math_pi * cutoff * t_e)%float in
  py_div r (r + 1)%float.

Definition exponential_smoothing (a x x_prev : float) : float :=
  (a * x + (1 - a) * x_prev)%float.

(** [__call__(t, x)]: the filtered value and the filter after the call.
    Every statement that can raise comes before the three assignments, so
    a raising call leaves the filter as it was. *)
Definition call (f : OneEuroFilter) (t : float) (x : pyval)
  : result (pyval * OneEuroFilter) :=
  let t_e := (t - t_prev f)%float in
  if (t_e <=? 0)%float then Ok (x, f)
  else
    a_d ← smoothing_factor t_e (d_cutoff f);
    d ← py_sub x (x_prev f);
    dx ← py_div d t_e;
    xp ← as_float (x_prev f);
    xv ← as_float x;
    let dx_hat := exponential_smoothing a_d dx (dx_prev f) in
    let cutoff := (min_cutoff f + beta f * PrimFloat.abs dx_hat)%float in
    a ← smoothing_factor t_e cutoff;
    let x_hat := exponential_smoothing a xv xp in
    Ok (PyFloat x_hat,
        {| t_prev := t; x_prev := PyFloat x_hat; dx_prev := dx_hat;
           min_cutoff := min_cutoff f; beta := beta f; d_cutoff := d_cutoff f |}).

End OneEuro.

(** ** class VectorUtils, and the NumPy operations on 3-vectors *)

Definition vec : Type := float * float * float.

Record Libm : Type := {
  np_arccos : float → float;
  np_degrees : float → float
}.

Module VectorUtils.

Definition vsub (a b : vec) : vec :=
  let '(a0, a1, a2) := a in
  let '(b0, b1, b2) := b in
  (a0 - b0, a1 - b1, a2 - b2)%float.

Definition np_dot (a b : vec) : float :=
  let '(a0, a1, a2) := a in
  let '(b0, b1, b2) := b in
  (a0 * b0 + a1 * b1 + a2 * b2)%float.

Definition np_linalg_norm (v : vec) : float := PrimFloat.sqrt (np_dot v v).

Definition np_cross (a b : vec) : vec :=
  let '(a0, a1, a2) := a in
  let '(b0, b1, b2) := b in
  (a1 * b2 - a2 * b1, a2 * b0 - a0 * b2, a0 * b1 - a1 * b0)%float.

Definition np_clip (x lo hi : float) : float :=
  if (x <? lo)%float then lo else if (hi <? x)%float then hi else x.

Definition get_vector (v1 v2 : vec) : vec := vsub v2 v1.

Definition normalize_vector (v : vec) : vec :=
  let norm := np_linalg_norm v in
  if (norm =? 0)%float then v
  else let '(v0, v1, v2) := v in (v0 / norm, v1 / norm, v2 / norm)%float.

Definition calculate_angle (np : Libm) (v1 v2 : vec) : float :=
  let v1_u := normalize_vector v1 in
  let v2_u := normalize_vector v2 in
  let dot_product := np_clip (np_dot v1_u v2_u) (-1)%float 1%float in
  np_degrees np (np_arccos np dot_product).

End VectorUtils.

(** ** Domain models and enums *)

Inductive Finger : Type := THUMB | INDEX | MIDDLE | RING | PINKY.
Inductive FingerState : Type := FOLDED | CURLED | EXTENDED.
Inductive Orientation : Type := UP | DOWN | LEFT | RIGHT | FORWARD | BACKWARD.

Global Instance Finger_eq_dec : EqDecision Finger.
Proof. solve_decision. Defined.
Global Instance FingerState_eq_dec : EqDecision FingerState.
Proof. solve_decision. Defined.
Global Instance Orientation_eq_dec : EqDecision Orientation.
Proof. solve_decision. Defined.

Definition Finger_value (f : Finger) : nat :=
  match f with THUMB => 0 | INDEX => 1 | MIDDLE => 2 | RING => 3 | PINKY => 4 end.
Definition Finger_of_value (n : nat) : option Finger :=
  match n with
  | 0 => Some THUMB | 1 => Some INDEX | 2 => Some MIDDLE | 3 => Some RING
  | 4 => Some PINKY | _ => None
  end.
Global Instance Finger_countable : Countable Finger.
Proof.
  apply (inj_countable Finger_value Finger_of_value). by intros [].
Defined.

(** One row of the coordinate array: [[sx, sy, sz]]. *)
Definition row : Type := pyval * pyval * pyval.

Record HandState : Type := {
  fingers : Finger → FingerState;
  finger_angles : Finger → float;
  palm_orientation : Orientation;
  thumb_position : string;
  raw_landmarks : list row;
  timestamp : float
}.

(** A sign definition: the dict of one lexicon entry, each key optional.
    ["fingers"] is itself a dict from [Finger] to the accepted states. *)
Record SignDef : Type := {
  sd_desc : option string;
  sd_fingers : option (gmap Finger (list FingerState));
  sd_orientation : option (list Orientation);
  sd_special : option string;
  sd_check : option string;
  sd_spread : option bool
}.

(** ** Input frames *)

(** A key of a landmark dict: absent, or present with a number or null. *)
Inductive field : Type :=
  | Absent
  | Present (v : pyval).

(** A landmark of the JSON payload: a dict with optional keys x, y, z, or
    any other JSON value (on which [lm['x']] raises [TypeError]). *)
Inductive landmark : Type :=
  | LmDict (x y z : field)
  | LmOther.

(** [lm.get(key, default)] *)
Definition dict_get (f : field) (default : pyval) : pyval :=
  match f with
  | Present v => v
  | Absent => default
  end.

(** ** class HandFeatureExtractor *)

Record HandFeatureExtractor : Type := {
  filters : gmap nat OneEuroFilter;
  fc_min : float;
  ex_beta : float
}.

Module Extractor.
Import VectorUtils.

Definition init : HandFeatureExtractor :=
  {| filters := ∅; fc_min := Config.FILTER_MIN_CUTOFF; ex_beta := Config.FILTER_BETA |}.

Definition set_filter (ex : HandFeatureExtractor) (idx : nat) (f : OneEuroFilter)
  : HandFeatureExtractor :=
  {| filters := <[idx := f]> (filters ex); fc_min := fc_min ex; ex_beta := ex_beta ex |}.

(** [_get_filter(idx, t, val)]: the channel's filter, created on first use. *)
Definition _get_filter (idx : nat) (t : float) (val : pyval)
  : ST HandFeatureExtractor OneEuroFilter := λ ex,
  match filters ex !! idx with
  | Some f => (Ok f, ex)
  | None =>
      let f := OneEuro.init t val (fc_min ex) (ex_beta ex) in
      (Ok f, set_filter ex idx f)
  end.

(** [self._get_filter(idx, t, v)(t, v)]: the call mutates the filter object
    stored in [self.filters]. *)
Definition filter_channel (idx : nat) (t : float) (v : pyval)
  : ST HandFeatureExtractor pyval :=
  (f <- _get_filter idx t v ;;
   λ ex, match OneEuro.call f t v with
         | Ok (s, f') => (Ok s, set_filter ex idx f')
         | Raise e => (Raise e, ex)
         end)%st.

(** The state of the [try] block of [smooth_landmarks]: the extractor and
    the local list [smoothed]. *)
Definition smooth_state : Type := HandFeatureExtractor * list row.

Definition on_extractor {A} (m : ST HandFeatureExtractor A) : ST smooth_state A :=
  λ '(ex, smoothed),
    match m ex with
    | (r, ex') => (r, (ex', smoothed))
    end.

Definition append_row (r : row) : ST smooth_state unit :=
  λ '(ex, smoothed), (Ok (), (ex, smoothed ++ [r])).

(** The coordinates of one landmark as the [try] block reads them. *)
Definition read_landmark (lm : landmark) : result row :=
  match lm with
  | LmDict x y z => Ok (dict_get x PyNone, dict_get y PyNone, dict_get z (PyFloat 0))
  | LmOther => Raise TypeError
  end.

(** The coordinates of one landmark as the [except] block reads them. *)
Definition read_landmark_raw (lm : landmark) : result row :=
  match lm with
  | LmDict x y z =>
      Ok (dict_get x (PyFloat 0), dict_get y (PyFloat 0), dict_get z (PyFloat 0))
  | LmOther => Raise TypeError
  end.

(** The body of the [try] block: [for i, lm in enumerate(landmarks)]. *)
Fixpoint smooth_loop (t : float) (i : nat) (landmarks : list landmark)
  : ST smooth_state unit :=
  match landmarks with
  | [] => st_ret ()
  | lm :: rest =>
      (r <- (λ s, (read_landmark lm, s)) ;;
       let '(x, y, z) := r in
       sx <- on_extractor (filter_channel (i * 3 + 0) t x) ;;
       sy <- on_extractor (filter_channel (i * 3 + 1) t y) ;;
       sz <- on_extractor (filter_channel (i * 3 + 2) t z) ;;
       _ <- append_row (sx, sy, sz) ;;
       smooth_loop t (S i) rest)%st
  end.

(** The body of the [except] block: it appends to the same [smoothed]. *)
Fixpoint raw_loop (landmarks : list landmark) (smoothed : list row) : result (list row) :=
  match landmarks with
  | [] => Ok smoothed
  | lm :: rest => r ← read_landmark_raw lm; raw_loop rest (smoothed ++ [r])
  end.

(** [smooth_landmarks(landmarks)], with [t] the reading of [time.time()]. *)
Definition smooth_landmarks (t : float) (landmarks : list landmark)
  : ST HandFeatureExtractor (list row) := λ ex,
  match smooth_loop t 0 landmarks (ex, []) with
  | (Ok _, (ex', smoothed)) => (Ok smoothed, ex')
  | (Raise _, (ex', smoothed)) => (raw_loop landmarks smoothed, ex')
  end.

(** [coords[i]] used in arithmetic: the row must exist and hold numbers. *)
Definition row_at (coords : list row) (i : nat) : result row :=
  match coords !! i with
  | Some r => Ok r
  | None => Raise IndexError
  end.

Definition vec_at (coords : list row) (i : nat) : result vec :=
  '(x, y, z) ← row_at coords i;
  a ← as_float x; b ← as_float y; c ← as_float z; Ok (a, b, c).

(** [analyze_finger(mcp, pip, dip, tip)] *)
Definition analyze_finger (np : Libm) (wrist mcp pip dip tip : vec)
  : FingerState * float :=
  let v_mcp_pip := get_vector mcp pip in
  let v_pip_dip := get_vector pip dip in
  let v_dip_tip := get_vector dip tip in
  let angle_pip := calculate_angle np v_mcp_pip v_pip_dip in
  let angle_dip := calculate_angle np v_pip_dip v_dip_tip in
  let total_bend := (angle_pip + angle_dip)%float in
  let d_tip_wrist := np_linalg_norm (vsub tip wrist) in
  let d_mcp_wrist := np_linalg_norm (vsub mcp wrist) in
  let state :=
    if (160 <? total_bend)%float then FOLDED
    else if (90 <? total_bend)%float || (d_tip_wrist <? d_mcp_wrist)%float then CURLED
    else EXTENDED in
  (state, total_bend).

(** Thumb state (step 4 of [process]); 0.05 is the proximity threshold. *)
Definition TOUCH : float := 0x1.999999999999ap-5%float.

Definition thumb_state (np : Libm) (wrist thumb_mcp thumb_tip index_mcp pinky_mcp : vec)
  : FingerState :=
  let v_thumb_tip_mcp := get_vector thumb_mcp thumb_tip in
  let v_index_mcp_wrist := get_vector wrist index_mcp in
  let st :=
    if (60 <? calculate_angle np v_thumb_tip_mcp v_index_mcp_wrist)%float
    then FOLDED else EXTENDED in
  if (np_linalg_norm (vsub thumb_tip pinky_mcp) <? TOUCH)%float then FOLDED else st.

(** Mapping of the normalized palm normal to an orientation (step 5). *)
Definition orientation_of (palm_normal : vec) : Orientation :=
  let '(n0, n1, n2) := palm_normal in
  let abs_x := PrimFloat.abs n0 in
  let abs_y := PrimFloat.abs n1 in
  let abs_z := PrimFloat.abs n2 in
  if (abs_x <? abs_z)%float && (abs_y <? abs_z)%float then
    if (n2 <? 0)%float then FORWARD else BACKWARD
  else if (abs_x <? abs_y)%float then
    if (n1 <? 0)%float then UP else DOWN
  else
    if (n0 <? 0)%float then LEFT else RIGHT.

Definition palm_normal_of (wrist index_mcp pinky_mcp : vec) : vec :=
  let v_w_i := get_vector wrist index_mcp in
  let v_w_p := get_vector wrist pinky_mcp in
  normalize_vector (np_cross v_w_i v_w_p).

(** Steps 2 to 5 of [process] on the smoothed array; [ts] is the reading of
    [time.time()] stored in the hand state. *)
Definition extract (np : Libm) (coords : list row) (ts : float) : result HandState :=
  wrist ← vec_at coords 0;
  _ ← row_at coords 1;
  thumb_mcp ← vec_at coords 2;
  _ ← row_at coords 3;
  thumb_tip ← vec_at coords 4;
  index_mcp ← vec_at coords 5;
  index_pip ← vec_at coords 6;
  index_dip ← vec_at coords 7;
  index_tip ← vec_at coords 8;
  middle_mcp ← vec_at coords 9;
  middle_pip ← vec_at coords 10;
  middle_dip ← vec_at coords 11;
  middle_tip ← vec_at coords 12;
  ring_mcp ← vec_at coords 13;
  ring_pip ← vec_at coords 14;
  ring_dip ← vec_at coords 15;
  ring_tip ← vec_at coords 16;
  pinky_mcp ← vec_at coords 17;
  pinky_pip ← vec_at coords 18;
  pinky_dip ← vec_at coords 19;
  pinky_tip ← vec_at coords 20;
  let a_index := analyze_finger np wrist index_mcp index_pip index_dip index_tip in
  let a_middle := analyze_finger np wrist middle_mcp middle_pip middle_dip middle_tip in
  let a_ring := analyze_finger np wrist ring_mcp ring_pip ring_dip ring_tip in
  let a_pinky := analyze_finger np wrist pinky_mcp pinky_pip pinky_dip pinky_tip in
  let th := thumb_state np wrist thumb_mcp thumb_tip index_mcp pinky_mcp in
  let orientation := orientation_of (palm_normal_of wrist index_mcp pinky_mcp) in
  Ok {| fingers := λ f, match f with
                        | THUMB => th
                        | INDEX => a_index.1
                        | MIDDLE => a_middle.1
                        | RING => a_ring.1
                        | PINKY => a_pinky.1
                        end;
        finger_angles := λ f, match f with
                              | THUMB => 0%float
                              | INDEX => a_index.2
                              | MIDDLE => a_middle.2
                              | RING => a_ring.2
                              | PINKY => a_pinky.2
                              end;
        palm_orientation := orientation;
        thumb_position := "UNKNOWN";
        raw_landmarks := coords;
        timestamp := ts |}.

(** [process(raw_landmarks)]: [None] for a short frame and for a smoothing
    call that raises; exceptions of steps 2 to 5 propagate. *)
Definition process (np : Libm) (t ts : float) (raw_landmarks : list landmark)
  : ST HandFeatureExtractor (option HandState) := λ ex,
  if bool_decide (length raw_landmarks < 21) then (Ok None, ex)
  else
    match smooth_landmarks t raw_landmarks ex with
    | (Raise _, ex') => (Ok None, ex')
    | (Ok coords, ex') => (hs ← extract np coords ts; Ok (Some hs), ex')
    end.

End Extractor.

(** ** class ASLLexicon: the static table, in the order of the dict literal *)

Module ASLLexicon.

Definition get_definitions : list (string * SignDef) := [
  ("0",
   {| sd_desc := Some "Fingers curled, thumb and index touching";
      sd_fingers := Some (list_to_map
        [(INDEX, [FOLDED; CURLED]); (MIDDLE, [EXTENDED; CURLED]); (RING, [EXTENDED; CURLED]); (PINKY, [EXTENDED; CURLED])]);
      sd_orientation := None; sd_special := Some "THUMB_INDEX_TOUCH";
      sd_check := None; sd_spread := None |});
  ("1",
   {| sd_desc := None;
      sd_fingers := Some (list_to_map
        [(INDEX, [EXTENDED]); (MIDDLE, [FOLDED]); (RING, [FOLDED]); (PINKY, [FOLDED])]);
      sd_orientation := None; sd_special := None;
      sd_check := None; sd_spread := None |});
  ("2",
   {| sd_desc := None;
      sd_fingers := Some (list_to_map
        [(INDEX, [EXTENDED]); (MIDDLE, [EXTENDED]); (RING, [FOLDED]); (PINKY, [FOLDED])]);
      sd_orientation := None; sd_special := None;
      sd_check := None; sd_spread := None |});
  ("3",
   {| sd_desc := None;
      sd_fingers := Some (list_to_map
        [(THUMB, [EXTENDED]); (INDEX, [EXTENDED]); (MIDDLE, [EXTENDED]); (RING, [FOLDED]); (PINKY, [FOLDED])]);
      sd_orientation := None; sd_special := None;
      sd_check := None; sd_spread := None |});
  ("4",
   {| sd_desc := None;
      sd_fingers := Some (list_to_map
        [(THUMB, [FOLDED]); (INDEX, [EXTENDED]); (MIDDLE, [EXTENDED]); (RING, [EXTENDED]); (PINKY, [EXTENDED])]);
      sd_orientation := None; sd_special := None;
      sd_check := None; sd_spread := None |});
  ("5",
   {| sd_desc := None;
      sd_fingers := Some (list_to_map
        [(THUMB, [EXTENDED]); (INDEX, [EXTENDED]); (MIDDLE, [EXTENDED]); (RING, [EXTENDED]); (PINKY, [EXTENDED])]);
      sd_orientation := None; sd_special := None;
      sd_check := None; sd_spread := Some true |});
  ("A",
   {| sd_desc := None;
      sd_fingers := Some (list_to_map
        [(INDEX, [FOLDED]); (MIDDLE, [FOLDED]); (RING, [FOLDED]); (PINKY, [FOLDED]); (THUMB, [EXTENDED])]);
      sd_orientation := Some [UP]; sd_special := None;
      sd_check := None; sd_spread := None |});
  ("B",
   {| sd_desc := None;
      sd_fingers := Some (list_to_map
        [(INDEX, [EXTENDED]); (MIDDLE, [EXTENDED]); (RING, [EXTENDED]); (PINKY, [EXTENDED]); (THUMB, [FOLDED; CURLED])]);
      sd_orientation := Some [UP]; sd_special := None;
      sd_check := None; sd_spread := None |});
  ("C",
   {| sd_desc := None;
      sd_fingers := Some (list_to_map
        [(INDEX, [CURLED]); (MIDDLE, [CURLED]); (RING, [CURLED]); (PINKY, [CURLED]); (THUMB, [CURLED; EXTENDED])]);
      sd_orientation := Some [LEFT; RIGHT]; sd_special := None;
      sd_check := None; sd_spread := None |});
  ("D",
   {| sd_desc := None;
      sd_fingers := Some (list_to_map
        [(INDEX, [EXTENDED]); (MIDDLE, [FOLDED; CURLED]); (RING, [FOLDED; CURLED]); (PINKY, [FOLDED; CURLED])]);
      sd_orientation := None; sd_special := Some "THUMB_MIDDLE_TOUCH";
      sd_check := None; sd_spread := None |});
  ("E",
   {| sd_desc := None;
      sd_fingers := Some (list_to_map
        [(INDEX, [FOLDED; CURLED]); (MIDDLE, [FOLDED; CURLED]); (RING, [FOLDED; CURLED]); (PINKY, [FOLDED; CURLED]); (THUMB, [FOLDED; CURLED])]);
      sd_orientation := None; sd_special := None;
      sd_check := Some "NAILS_VISIBLE"; sd_spread := None |});
  ("F",
   {| sd_desc := None;
      sd_fingers := Some (list_to_map
        [(INDEX, [CURLED; FOLDED]); (MIDDLE, [EXTENDED]); (RING, [EXTENDED]); (PINKY, [EXTENDED])]);
      sd_orientation := None; sd_special := Some "THUMB_INDEX_TOUCH";
      sd_check := None; sd_spread := None |});
  ("G",
   {| sd_desc := None;
      sd_fingers := Some (list_to_map
        [(INDEX, [EXTENDED]); (MIDDLE, [FOLDED]); (RING, [FOLDED]); (PINKY, [FOLDED]); (THUMB, [EXTENDED])]);
      sd_orientation := Some [LEFT; RIGHT]; sd_special := None;
      sd_check := None; sd_spread := None |});
  ("H",
   {| sd_desc := None;
      sd_fingers := Some (list_to_map
        [(INDEX, [EXTENDED]); (MIDDLE, [EXTENDED]); (RING, [FOLDED]); (PINKY, [FOLDED])]);
      sd_orientation := Some [LEFT; RIGHT]; sd_special := None;
      sd_check := None; sd_spread := None |});
  ("I",
   {| sd_desc := None;
      sd_fingers := Some (list_to_map
        [(INDEX, [FOLDED]); (MIDDLE, [FOLDED]); (RING, [FOLDED]); (PINKY, [EXTENDED])]);
      sd_orientation := Some [UP]; sd_special := None;
      sd_check := None; sd_spread := None |});
  ("K",
   {| sd_desc := None;
      sd_fingers := Some (list_to_map
        [(INDEX, [EXTENDED]); (MIDDLE, [EXTENDED]); (RING, [FOLDED]); (PINKY, [FOLDED]); (THUMB, [EXTENDED])]);
      sd_orientation := Some [UP]; sd_special := None;
      sd_check := None; sd_spread := None |});
  ("L",
   {| sd_desc := None;
      sd_fingers := Some (list_to_map
        [(INDEX, [EXTENDED]); (MIDDLE, [FOLDED]); (RING, [FOLDED]); (PINKY, [FOLDED]); (THUMB, [EXTENDED])]);
      sd_orientation := Some [UP]; sd_special := None;
      sd_check := None; sd_spread := None |});
  ("M",
   {| sd_desc := None;
      sd_fingers := Some (list_to_map
        [(INDEX, [FOLDED]); (MIDDLE, [FOLDED]); (RING, [FOLDED]); (PINKY, [FOLDED]); (THUMB, [FOLDED])]);
      sd_orientation := None; sd_special := Some "THUMB_UNDER_RING";
      sd_check := None; sd_spread := None |});
  ("N",
   {| sd_desc := None;
      sd_fingers := Some (list_to_map
        [(INDEX, [FOLDED]); (MIDDLE, [FOLDED]); (RING, [FOLDED]); (PINKY, [FOLDED])]);
      sd_orientation := None; sd_special := Some "THUMB_UNDER_MIDDLE";
      sd_check := None; sd_spread := None |});
  ("O",
   {| sd_desc := None;
      sd_fingers := Some (list_to_map
        [(INDEX, [CURLED]); (MIDDLE, [CURLED]); (RING, [CURLED]); (PINKY, [CURLED])]);
      sd_orientation := None; sd_special := Some "ALL_TIPS_TOUCH";
      sd_check := None; sd_spread := None |});
  ("P",
   {| sd_desc := None;
      sd_fingers := Some (list_to_map
        [(INDEX, [EXTENDED]); (MIDDLE, [EXTENDED]); (RING, [FOLDED]); (PINKY, [FOLDED]); (THUMB, [EXTENDED])]);
      sd_orientation := Some [DOWN]; sd_special := None;
      sd_check := None; sd_spread := None |});
  ("Q",
   {| sd_desc := None;
      sd_fingers := Some (list_to_map
        [(INDEX, [EXTENDED]); (MIDDLE, [FOLDED]); (RING, [FOLDED]); (PINKY, [FOLDED]); (THUMB, [EXTENDED])]);
      sd_orientation := Some [DOWN]; sd_special := None;
      sd_check := None; sd_spread := None |});
  ("R",
   {| sd_desc := None;
      sd_fingers := Some (list_to_map
        [(INDEX, [EXTENDED]); (MIDDLE, [EXTENDED]); (RING, [FOLDED]); (PINKY, [FOLDED])]);
      sd_orientation := None; sd_special := Some "INDEX_MIDDLE_CROSS";
      sd_check := None; sd_spread := None |});
  ("S",
   {| sd_desc := None;
      sd_fingers := Some (list_to_map
        [(INDEX, [FOLDED]); (MIDDLE, [FOLDED]); (RING, [FOLDED]); (PINKY, [FOLDED]); (THUMB, [FOLDED])]);
      sd_orientation := Some [UP]; sd_special := None;
      sd_check := None; sd_spread := None |});
  ("T",
   {| sd_desc := None;
      sd_fingers := Some (list_to_map
        [(INDEX, [FOLDED]); (MIDDLE, [FOLDED]); (RING, [FOLDED]); (PINKY, [FOLDED])]);
      sd_orientation := None; sd_special := Some "THUMB_UNDER_INDEX";
      sd_check := None; sd_spread := None |});
  ("U",
   {| sd_desc := None;
      sd_fingers := Some (list_to_map
        [(INDEX, [EXTENDED]); (MIDDLE, [EXTENDED]); (RING, [FOLDED]); (PINKY, [FOLDED])]);
      sd_orientation := None; sd_special := None;
      sd_check := Some "INDEX_MIDDLE_TOGETHER"; sd_spread := None |});
  ("V",
   {| sd_desc := None;
      sd_fingers := Some (list_to_map
        [(INDEX, [EXTENDED]); (MIDDLE, [EXTENDED]); (RING, [FOLDED]); (PINKY, [FOLDED])]);
      sd_orientation := None; sd_special := None;
      sd_check := Some "INDEX_MIDDLE_APART"; sd_spread := None |});
  ("W",
   {| sd_desc := None;
      sd_fingers := Some (list_to_map
        [(INDEX, [EXTENDED]); (MIDDLE, [EXTENDED]); (RING, [EXTENDED]); (PINKY, [FOLDED])]);
      sd_orientation := None; sd_special := None;
      sd_check := None; sd_spread := None |});
  ("X",
   {| sd_desc := None;
      sd_fingers := Some (list_to_map
        [(INDEX, [CURLED]); (MIDDLE, [FOLDED]); (RING, [FOLDED]); (PINKY, [FOLDED])]);
      sd_orientation := Some [UP; LEFT; RIGHT]; sd_special := None;
      sd_check := None; sd_spread := None |});
  ("Y",
   {| sd_desc := None;
      sd_fingers := Some (list_to_map
        [(INDEX, [FOLDED]); (MIDDLE, [FOLDED]); (RING, [FOLDED]); (PINKY, [EXTENDED]); (THUMB, [EXTENDED])]);
      sd_orientation := None; sd_special := None;
      sd_check := None; sd_spread := None |});
  ("Z_START",
   {| sd_desc := None;
      sd_fingers := Some (list_to_map
        [(INDEX, [EXTENDED]); (MIDDLE, [FOLDED]); (RING, [FOLDED]); (PINKY, [FOLDED])]);
      sd_orientation := Some [UP]; sd_special := None;
      sd_check := None; sd_spread := None |});
  ("I LOVE YOU",
   {| sd_desc := None;
      sd_fingers := Some (list_to_map
        [(INDEX, [EXTENDED]); (MIDDLE, [FOLDED]); (RING, [FOLDED]); (PINKY, [EXTENDED]); (THUMB, [EXTENDED])]);
      sd_orientation := None; sd_special := None;
      sd_check := None; sd_spread := None |});
  ("ZERO",
   {| sd_desc := None;
      sd_fingers := Some (list_to_map
        [(INDEX, [CURLED]); (MIDDLE, [EXTENDED]); (RING, [EXTENDED]); (PINKY, [EXTENDED]); (THUMB, [EXTENDED])]);
      sd_orientation := None; sd_special := Some "THUMB_INDEX_TOUCH";
      sd_check := None; sd_spread := None |});
  ("ONE",
   {| sd_desc := None;
      sd_fingers := Some (list_to_map
        [(INDEX, [EXTENDED]); (MIDDLE, [FOLDED]); (RING, [FOLDED]); (PINKY, [FOLDED])]);
      sd_orientation := None; sd_special := None;
      sd_check := None; sd_spread := None |});
  ("TWO",
   {| sd_desc := None;
      sd_fingers := Some (list_to_map
        [(INDEX, [EXTENDED]); (MIDDLE, [EXTENDED]); (RING, [FOLDED]); (PINKY, [FOLDED])]);
      sd_orientation := None; sd_special := None;
      sd_check := Some "INDEX_MIDDLE_APART"; sd_spread := None |});
  ("THREE",
   {| sd_desc := None;
      sd_fingers := Some (list_to_map
        [(INDEX, [EXTENDED]); (MIDDLE, [EXTENDED]); (RING, [EXTENDED]); (PINKY, [FOLDED]); (THUMB, [EXTENDED])]);
      sd_orientation := None; sd_special := None;
      sd_check := None; sd_spread := None |});
  ("FOUR",
   {| sd_desc := None;
      sd_fingers := Some (list_to_map
        [(INDEX, [EXTENDED]); (MIDDLE, [EXTENDED]); (RING, [EXTENDED]); (PINKY, [EXTENDED]); (THUMB, [FOLDED])]);
      sd_orientation := None; sd_special := None;
      sd_check := None; sd_spread := None |});
  ("FIVE",
   {| sd_desc := None;
      sd_fingers := Some (list_to_map
        [(INDEX, [EXTENDED]); (MIDDLE, [EXTENDED]); (RING, [EXTENDED]); (PINKY, [EXTENDED]); (THUMB, [EXTENDED])]);
      sd_orientation := None; sd_special := None;
      sd_check := None; sd_spread := None |});
  ("SIX",
   {| sd_desc := None;
      sd_fingers := Some (list_to_map
        [(INDEX, [EXTENDED]); (MIDDLE, [EXTENDED]); (RING, [EXTENDED]); (PINKY, [FOLDED]); (THUMB, [FOLDED])]);
      sd_orientation := None; sd_special := Some "THUMB_PINKY_TOUCH";
      sd_check := None; sd_spread := None |});
  ("SEVEN",
   {| sd_desc := None;
      sd_fingers := Some (list_to_map
        [(INDEX, [EXTENDED]); (MIDDLE, [EXTENDED]); (RING, [FOLDED]); (PINKY, [EXTENDED]); (THUMB, [FOLDED])]);
      sd_orientation := None; sd_special := None;
      sd_check := None; sd_spread := None |});
  ("EIGHT",
   {| sd_desc := None;
      sd_fingers := Some (list_to_map
        [(INDEX, [EXTENDED]); (MIDDLE, [FOLDED]); (RING, [EXTENDED]); (PINKY, [EXTENDED]); (THUMB, [FOLDED])]);
      sd_orientation := None; sd_special := None;
      sd_check := None; sd_spread := None |});
  ("NINE",
   {| sd_desc := None;
      sd_fingers := Some (list_to_map
        [(INDEX, [FOLDED]); (MIDDLE, [EXTENDED]); (RING, [EXTENDED]); (PINKY, [EXTENDED]); (THUMB, [FOLDED])]);
      sd_orientation := None; sd_special := None;
      sd_check := None; sd_spread := None |});
  ("HELLO",
   {| sd_desc := None;
      sd_fingers := Some (list_to_map
        [(INDEX, [EXTENDED]); (MIDDLE, [EXTENDED]); (RING, [EXTENDED]); (PINKY, [EXTENDED]); (THUMB, [EXTENDED])]);
      sd_orientation := None; sd_special := None;
      sd_check := None; sd_spread := None |});
  ("YES",
   {| sd_desc := None;
      sd_fingers := Some (list_to_map
        [(INDEX, [FOLDED]); (MIDDLE, [FOLDED]); (RING, [FOLDED]); (PINKY, [FOLDED]); (THUMB, [EXTENDED])]);
      sd_orientation := None; sd_special := None;
      sd_check := None; sd_spread := None |});
  ("NO",
   {| sd_desc := None;
      sd_fingers := Some (list_to_map
        [(INDEX, [EXTENDED]); (MIDDLE, [EXTENDED]); (RING, [FOLDED]); (PINKY, [FOLDED]); (THUMB, [EXTENDED])]);
      sd_orientation := None; sd_special := Some "INDEX_MIDDLE_THUMB_SNAP";
      sd_check := None; sd_spread := None |});
  ("OK",
   {| sd_desc := None;
      sd_fingers := Some (list_to_map
        [(INDEX, [CURLED]); (MIDDLE, [EXTENDED]); (RING, [EXTENDED]); (PINKY, [EXTENDED])]);
      sd_orientation := None; sd_special := Some "THUMB_INDEX_TOUCH";
      sd_check := None; sd_spread := None |});
  ("CALL",
   {| sd_desc := None;
      sd_fingers := Some (list_to_map
        [(INDEX, [FOLDED]); (MIDDLE, [FOLDED]); (RING, [FOLDED]); (PINKY, [EXTENDED]); (THUMB, [EXTENDED])]);
      sd_orientation := None; sd_special := None;
      sd_check := None; sd_spread := None |});
  ("STOP",
   {| sd_desc := None;
      sd_fingers := Some (list_to_map
        [(INDEX, [EXTENDED]); (MIDDLE, [EXTENDED]); (RING, [EXTENDED]); (PINKY, [EXTENDED]); (THUMB, [EXTENDED])]);
      sd_orientation := Some [FORWARD]; sd_special := None;
      sd_check := None; sd_spread := None |});
  ("HELP",
   {| sd_desc := None;
      sd_fingers := Some (list_to_map
        [(INDEX, [FOLDED]); (MIDDLE, [FOLDED]); (RING, [FOLDED]); (PINKY, [FOLDED]); (THUMB, [EXTENDED])]);
      sd_orientation := Some [UP]; sd_special := None;
      sd_check := None; sd_spread := None |});
  ("THANK YOU",
   {| sd_desc := None;
      sd_fingers := Some (list_to_map
        [(INDEX, [EXTENDED]); (MIDDLE, [EXTENDED]); (RING, [EXTENDED]); (PINKY, [EXTENDED]); (THUMB, [EXTENDED])]);
      sd_orientation := Some [FORWARD]; sd_special := None;
      sd_check := None; sd_spread := None |});
  ("PLEASE",
   {| sd_desc := None;
      sd_fingers := Some (list_to_map
        [(INDEX, [EXTENDED]); (MIDDLE, [EXTENDED]); (RING, [EXTENDED]); (PINKY, [EXTENDED]); (THUMB, [FOLDED])]);
      sd_orientation := None; sd_special := None;
      sd_check := None; sd_spread := None |});
  ("SORRY",
   {| sd_desc := None;
      sd_fingers := Some (list_to_map
        [(INDEX, [FOLDED]); (MIDDLE, [FOLDED]); (RING, [FOLDED]); (PINKY, [FOLDED]); (THUMB, [FOLDED])]);
      sd_orientation := None; sd_special := None;
      sd_check := None; sd_spread := None |});
  ("GOOD",
   {| sd_desc := None;
      sd_fingers := Some (list_to_map
        [(INDEX, [FOLDED]); (MIDDLE, [FOLDED]); (RING, [FOLDED]); (PINKY, [FOLDED]); (THUMB, [EXTENDED])]);
      sd_orientation := Some [FORWARD]; sd_special := None;
      sd_check := None; sd_spread := None |});
  ("BAD",
   {| sd_desc := None;
      sd_fingers := Some (list_to_map
        [(INDEX, [EXTENDED]); (MIDDLE, [EXTENDED]); (RING, [EXTENDED]); (PINKY, [EXTENDED]); (THUMB, [EXTENDED])]);
      sd_orientation := Some [DOWN]; sd_special := None;
      sd_check := None; sd_spread := None |});
  ("WATER",
   {| sd_desc := None;
      sd_fingers := Some (list_to_map
        [(INDEX, [EXTENDED]); (MIDDLE, [FOLDED]); (RING, [FOLDED]); (PINKY, [FOLDED]); (THUMB, [EXTENDED])]);
      sd_orientation := None; sd_special := Some "THUMB_INDEX_TOUCH";
      sd_check := None; sd_spread := None |});
  ("FOOD",
   {| sd_desc := None;
      sd_fingers := Some (list_to_map
        [(INDEX, [CURLED]); (MIDDLE, [CURLED]); (RING, [CURLED]); (PINKY, [CURLED]); (THUMB, [CURLED])]);
      sd_orientation := None; sd_special := Some "ALL_TIPS_TOUCH";
      sd_check := None; sd_spread := None |});
  ("DRINK",
   {| sd_desc := None;
      sd_fingers := Some (list_to_map
        [(INDEX, [CURLED]); (MIDDLE, [CURLED]); (RING, [CURLED]); (PINKY, [CURLED]); (THUMB, [EXTENDED])]);
      sd_orientation := None; sd_special := None;
      sd_check := None; sd_spread := None |});
  ("MONEY",
   {| sd_desc := None;
      sd_fingers := Some (list_to_map
        [(INDEX, [EXTENDED]); (MIDDLE, [EXTENDED]); (RING, [FOLDED]); (PINKY, [FOLDED]); (THUMB, [EXTENDED])]);
      sd_orientation := None; sd_special := Some "THUMB_INDEX_TOUCH";
      sd_check := None; sd_spread := None |});
  ("HOME",
   {| sd_desc := None;
      sd_fingers := Some (list_to_map
        [(INDEX, [CURLED]); (MIDDLE, [CURLED]); (RING, [CURLED]); (PINKY, [CURLED]); (THUMB, [CURLED])]);
      sd_orientation := None; sd_special := None;
      sd_check := None; sd_spread := None |});
  ("WORK",
   {| sd_desc := None;
      sd_fingers := Some (list_to_map
        [(INDEX, [FOLDED]); (MIDDLE, [FOLDED]); (RING, [FOLDED]); (PINKY, [FOLDED]); (THUMB, [FOLDED])]);
      sd_orientation := Some [DOWN]; sd_special := None;
      sd_check := None; sd_spread := None |});
  ("FRIEND",
   {| sd_desc := None;
      sd_fingers := Some (list_to_map
        [(INDEX, [CURLED]); (MIDDLE, [FOLDED]); (RING, [FOLDED]); (PINKY, [FOLDED]); (THUMB, [CURLED])]);
      sd_orientation := None; sd_special := None;
      sd_check := None; sd_spread := None |});
  ("LOVE",
   {| sd_desc := None;
      sd_fingers := Some (list_to_map
        [(INDEX, [FOLDED]); (MIDDLE, [FOLDED]); (RING, [FOLDED]); (PINKY, [FOLDED]); (THUMB, [FOLDED])]);
      sd_orientation := None; sd_special := None;
      sd_check := None; sd_spread := None |});
  ("HAPPY",
   {| sd_desc := None;
      sd_fingers := Some (list_to_map
        [(INDEX, [EXTENDED]); (MIDDLE, [EXTENDED]); (RING, [EXTENDED]); (PINKY, [EXTENDED]); (THUMB, [EXTENDED])]);
      sd_orientation := Some [UP]; sd_special := None;
      sd_check := None; sd_spread := None |});
  ("SAD",
   {| sd_desc := None;
      sd_fingers := Some (list_to_map
        [(INDEX, [EXTENDED]); (MIDDLE, [EXTENDED]); (RING, [EXTENDED]); (PINKY, [EXTENDED]); (THUMB, [FOLDED])]);
      sd_orientation := Some [DOWN]; sd_special := None;
      sd_check := None; sd_spread := None |});
  ("HUNGRY",
   {| sd_desc := None;
      sd_fingers := Some (list_to_map
        [(INDEX, [CURLED]); (MIDDLE, [CURLED]); (RING, [CURLED]); (PINKY, [CURLED]); (THUMB, [EXTENDED])]);
      sd_orientation := Some [DOWN]; sd_special := None;
      sd_check := None; sd_spread := None |});
  ("TIRED",
   {| sd_desc := None;
      sd_fingers := Some (list_to_map
        [(INDEX, [CURLED]); (MIDDLE, [CURLED]); (RING, [CURLED]); (PINKY, [CURLED]); (THUMB, [CURLED])]);
      sd_orientation := Some [DOWN]; sd_special := None;
      sd_check := None; sd_spread := None |});
  ("BATHROOM",
   {| sd_desc := None;
      sd_fingers := Some (list_to_map
        [(INDEX, [FOLDED]); (MIDDLE, [FOLDED]); (RING, [FOLDED]); (PINKY, [FOLDED]); (THUMB, [EXTENDED])]);
      sd_orientation := None; sd_special := Some "THUMB_INDEX_TOUCH";
      sd_check := None; sd_spread := None |});
  ("PHONE",
   {| sd_desc := None;
      sd_fingers := Some (list_to_map
        [(INDEX, [FOLDED]); (MIDDLE, [FOLDED]); (RING, [FOLDED]); (PINKY, [EXTENDED]); (THUMB, [EXTENDED])]);
      sd_orientation := None; sd_special := None;
      sd_check := None; sd_spread := None |});
  ("WAIT",
   {| sd_desc := None;
      sd_fingers := Some (list_to_map
        [(INDEX, [EXTENDED]); (MIDDLE, [EXTENDED]); (RING, [EXTENDED]); (PINKY, [EXTENDED]); (THUMB, [EXTENDED])]);
      sd_orientation := None; sd_special := None;
      sd_check := None; sd_spread := Some true |});
  ("COME",
   {| sd_desc := None;
      sd_fingers := Some (list_to_map
        [(INDEX, [CURLED]); (MIDDLE, [FOLDED]); (RING, [FOLDED]); (PINKY, [FOLDED]); (THUMB, [FOLDED])]);
      sd_orientation := None; sd_special := None;
      sd_check := None; sd_spread := None |});
  ("GO",
   {| sd_desc := None;
      sd_fingers := Some (list_to_map
        [(INDEX, [EXTENDED]); (MIDDLE, [FOLDED]); (RING, [FOLDED]); (PINKY, [FOLDED]); (THUMB, [FOLDED])]);
      sd_orientation := Some [FORWARD]; sd_special := None;
      sd_check := None; sd_spread := None |});
  ("MORE",
   {| sd_desc := None;
      sd_fingers := Some (list_to_map
        [(INDEX, [CURLED]); (MIDDLE, [CURLED]); (RING, [CURLED]); (PINKY, [CURLED]); (THUMB, [CURLED])]);
      sd_orientation := None; sd_special := Some "ALL_TIPS_TOUCH";
      sd_check := None; sd_spread := None |});
  ("FINISHED",
   {| sd_desc := None;
      sd_fingers := Some (list_to_map
        [(INDEX, [EXTENDED]); (MIDDLE, [EXTENDED]); (RING, [EXTENDED]); (PINKY, [EXTENDED]); (THUMB, [EXTENDED])]);
      sd_orientation := Some [DOWN]; sd_special := None;
      sd_check := None; sd_spread := Some true |})
].

End ASLLexicon.

(** ** class ASLRecognizer *)

Record ASLRecognizer : Type := {
  extractor : HandFeatureExtractor;
  lexicon : list (string * SignDef)
}.

Module Recognizer.
Import VectorUtils.

Definition init : ASLRecognizer :=
  {| extractor := Extractor.init; lexicon := ASLLexicon.get_definitions |}.

Definition set_extractor (r : ASLRecognizer) (ex : HandFeatureExtractor) : ASLRecognizer :=
  {| extractor := ex; lexicon := lexicon r |}.

(** Landmark indices named in [_calculate_match_score]. *)
Definition THUMB_TIP : nat := 4.
Definition INDEX_TIP : nat := 8.
Definition MIDDLE_TIP : nat := 12.
Definition INDEX_MCP : nat := 5.

(** [landmarks[i][j]] used in a comparison. *)
Definition coord_at (landmarks : list row) (i : nat) (j : nat) : result float :=
  '(x, y, z) ← Extractor.row_at landmarks i;
  match j with
  | 0 => as_float x
  | 1 => as_float y
  | 2 => as_float z
  | _ => Raise IndexError
  end.

(** One running pair of the matcher: [score] (a float) and [total_checks]
    (an int). *)
Definition tally : Type := float * nat.

Definition count_check (passed : bool) (acc : tally) : tally :=
  let '(score, total_checks) := acc in
  if passed then ((score + 1)%float, S total_checks) else (score, S total_checks).

(** The chain of [if]/[elif] on [check_type]; any other tag leaves
    [check_passed] at [False]. *)
Definition special_check (check_type : string) (landmarks : list row) : result bool :=
  if String.eqb check_type "THUMB_INDEX_TOUCH" then
    a ← Extractor.vec_at landmarks THUMB_TIP;
    b ← Extractor.vec_at landmarks INDEX_TIP;
    Ok (np_linalg_norm (vsub a b) <? Extractor.TOUCH)%float
  else if String.eqb check_type "THUMB_MIDDLE_TOUCH" then
    a ← Extractor.vec_at landmarks THUMB_TIP;
    b ← Extractor.vec_at landmarks MIDDLE_TIP;
    Ok (np_linalg_norm (vsub a b) <? Extractor.TOUCH)%float
  else if String.eqb check_type "ALL_TIPS_TOUCH" then
    center ← Extractor.vec_at landmarks THUMB_TIP;
    i ← Extractor.vec_at landmarks INDEX_TIP;
    m ← Extractor.vec_at landmarks MIDDLE_TIP;
    Ok ((np_linalg_norm (vsub i center) <? Extractor.TOUCH)%float
        && (np_linalg_norm (vsub m center) <? Extractor.TOUCH)%float)
  else if String.eqb check_type "THUMB_UNDER_INDEX" then
    a ← coord_at landmarks THUMB_TIP 0;
    b ← coord_at landmarks INDEX_MCP 0;
    Ok (b <? a)%float
  else Ok false.

(** [_calculate_match_score(hand_state, sign_def)] *)
Definition _calculate_match_score (hand_state : HandState) (sign_def : SignDef)
  : result float :=
  let acc0 : tally := (0%float, 0) in
  let acc1 :=
    match sd_fingers sign_def with
    | Some m =>
        foldl (λ acc '(finger, required_states),
                 count_check (bool_decide (fingers hand_state finger ∈ required_states)) acc)
              acc0 (map_to_list m)
    | None => acc0
    end in
  let acc2 :=
    match sd_orientation sign_def with
    | Some os => count_check (bool_decide (palm_orientation hand_state ∈ os)) acc1
    | None => acc1
    end in
  acc3 ← match sd_special sign_def with
         | Some check_type =>
             check_passed ← special_check check_type (raw_landmarks hand_state);
             Ok (count_check check_passed acc2)
         | None => Ok acc2
         end;
  let '(score, total_checks) := acc3 in
  if bool_decide (total_checks = 0) then Ok 0%float
  else Ok (score / nat2f total_checks)%float.

(** One iteration of the loop over [self.lexicon.items()]. *)
Definition best_step (hand_state : HandState) (acc : option string * float)
    (entry : string * SignDef) : result (option string * float) :=
  let '(best_match, best_confidence) := acc in
  confidence ← _calculate_match_score hand_state entry.2;
  if (best_confidence <? confidence)%float then Ok (Some entry.1, confidence)
  else Ok acc.

Fixpoint best_loop (hand_state : HandState) (lex : list (string * SignDef))
    (acc : option string * float) : result (option string * float) :=
  match lex with
  | [] => Ok acc
  | entry :: rest => acc' ← best_step hand_state acc entry; best_loop hand_state rest acc'
  end.

(** The part of [predict] after the extractor has returned a hand state. *)
Definition classify (hand_state : HandState) (lex : list (string * SignDef))
  : result (option string * float) :=
  '(best_match, best_confidence) ← best_loop hand_state lex (None, 0%float);
  if (Config.CONFIDENCE_THRESHOLD <=? best_confidence)%float
  then Ok (best_match, best_confidence)
  else Ok (None, best_confidence).

(** [predict(raw_landmarks)] *)
Definition predict (np : Libm) (t ts : float) (raw_landmarks : list landmark)
  : ST ASLRecognizer (option string * float) := λ r,
  match Extractor.process np t ts raw_landmarks (extractor r) with
  | (Raise e, ex') => (Raise e, set_extractor r ex')
  | (Ok None, ex') => (Ok (None, 0%float), set_extractor r ex')
  | (Ok (Some hand_state), ex') => (classify hand_state (lexicon r), set_extractor r ex')
  end.

End Recognizer.

(** ** class SentenceBuilder *)

(** [collections.deque(maxlen=n)] *)
Record deque : Type := {
  dq_items : list string;
  dq_maxlen : nat
}.

Definition deque_append (x : string) (d : deque) : deque :=
  let items := dq_items d ++ [x] in
  {| dq_items := drop (length items - dq_maxlen d) items; dq_maxlen := dq_maxlen d |}.

Definition deque_clear (d : deque) : deque :=
  {| dq_items := []; dq_maxlen := dq_maxlen d |}.

(** [collections.Counter]: counts kept in order of first occurrence. *)
Fixpoint counter_incr (x : string) (c : list (string * nat)) : list (string * nat) :=
  match c with
  | [] => [(x, 1)]
  | (y, n) :: c' => if String.eqb x y then (y, S n) :: c' else (y, n) :: counter_incr x c'
  end.

Definition Counter (items : list string) : list (string * nat) :=
  foldl (λ c x, counter_incr x c) [] items.

(** [counts.most_common(1)]: the first entry with the largest count, if any. *)
Definition most_common_1 (c : list (string * nat)) : option (string * nat) :=
  foldl (λ best kv,
           match best with
           | None => Some kv
           | Some b => if (b.2 <? kv.2)%nat then Some kv else best
           end) None c.

Record SentenceBuilder : Type := {
  current_sentence : list string;
  frame_buffer : deque;
  last_word_time : float;
  cooldown : float
}.

Module Sentence.

Definition init : SentenceBuilder :=
  {| current_sentence := [];
     frame_buffer := {| dq_items := []; dq_maxlen := Config.BUFFER_SIZE |};
     last_word_time := 0%float;
     cooldown := Config.WORD_COOLDOWN |}.

Definition set_buffer (s : SentenceBuilder) (d : deque) : SentenceBuilder :=
  {| current_sentence := current_sentence s; frame_buffer := d;
     last_word_time := last_word_time s; cooldown := cooldown s |}.

(** [_commit_word(word)], with [now] the reading of [time.time()]. *)
Definition _commit_word (now : float) (word : string) (s : SentenceBuilder)
  : SentenceBuilder :=
  let repeat :=
    match last (current_sentence s) with
    | Some last_word =>
        String.eqb last_word word && (now - last_word_time s <? cooldown s)%float
    | None => false
    end in
  if repeat then s
  else {| current_sentence := current_sentence s ++ [word];
          frame_buffer := frame_buffer s;
          last_word_time := now;
          cooldown := cooldown s |}.

(** [add_prediction(prediction, confidence)]; [not prediction] holds for
    [None] and for the empty string; [now] is read only when a word is
    committed. *)
Definition add_prediction (now : float) (prediction : option string) (confidence : float)
    (s : SentenceBuilder) : result SentenceBuilder :=
  match prediction with
  | None => Ok s
  | Some p =>
      if String.eqb p "" then Ok s
      else
        let buf := deque_append p (frame_buffer s) in
        let s1 := set_buffer s buf in
        if bool_decide (length (dq_items buf) = dq_maxlen buf) then
          match most_common_1 (Counter (dq_items buf)) with
          | None => Raise IndexError
          | Some (most_common, count) =>
              if (nat2f (dq_maxlen buf) * Config.MAJORITY_THRESHOLD <? nat2f count)%float
              then
                let s2 := _commit_word now most_common s1 in
                Ok (set_buffer s2 (deque_clear (frame_buffer s2)))
              else Ok s1
          end
        else Ok s1
  end.

Definition get_sentence (s : SentenceBuilder) : string :=
  String.concat " " (current_sentence s).

Definition clear (s : SentenceBuilder) : SentenceBuilder :=
  {| current_sentence := []; frame_buffer := deque_clear (frame_buffer s);
     last_word_time := last_word_time s; cooldown := cooldown s |}.

End Sentence.

(** ** Reference definitions written from the specification's wording *)

Module Spec.

(** The axis an orientation lies on. *)
Inductive Axis : Type := AxisX | AxisY | AxisZ.

Definition axis_of (o : Orientation) : Axis :=
  match o with
  | LEFT | RIGHT => AxisX
  | UP | DOWN => AxisY
  | FORWARD | BACKWARD => AxisZ
  end.

(** The negative direction of each axis is Forward, Up, Left. *)
Definition towards (a : Axis) (negative : bool) : Orientation :=
  match a with
  | AxisZ => if negative then FORWARD else BACKWARD
  | AxisY => if negative then UP else DOWN
  | AxisX => if negative then LEFT else RIGHT
  end.

(** Orientation by dominant axis with ties going to the axis of higher
    priority (z before y before x): z is dominant when no other component
    is larger in absolute value, otherwise y when x is not larger. *)
Definition orientation_by_priority (n : vec) : Orientation :=
  let '(n0, n1, n2) := n in
  let abs_x := PrimFloat.abs n0 in
  let abs_y := PrimFloat.abs n1 in
  let abs_z := PrimFloat.abs n2 in
  if (abs_x <=? abs_z)%float && (abs_y <=? abs_z)%float then towards AxisZ (n2 <? 0)%float
  else if (abs_x <=? abs_y)%float then towards AxisY (n1 <? 0)%float
  else towards AxisX (n0 <? 0)%float.

End Spec.

(** ** Sessions of the sentence builder *)

(** Number of occurrences of a label in the vote buffer. *)
Definition count (w : string) (items : list string) : nat :=
  length (filter (λ x, x = w) items).

(** Feeding a sequence of accepted labels, each with the clock reading at
    which it arrives. *)
Fixpoint feed (events : list (float * string)) (s : SentenceBuilder)
  : result SentenceBuilder :=
  match events with
  | [] => Ok s
  | (now, p) :: rest => s' ← Sentence.add_prediction now (Some p) 1%float s; feed rest s'
  end.

(** The states a session can be in: a fresh builder, then any sequence of
    [add_prediction] and [clear] calls. *)
Inductive reachable : SentenceBuilder → Prop :=
  | reach_init : reachable Sentence.init
  | reach_add s now p c s' :
      reachable s → Sentence.add_prediction now p c s = Ok s' → reachable s'
  | reach_clear s : reachable s → reachable (Sentence.clear s).

(** ** The checks of a sign definition, as the specification counts them *)

Module Checks.

(** One outcome per finger named in the definition: is the observed state
    among the accepted ones. *)
Definition finger_checks (hs : HandState) (d : SignDef) : list bool :=
  match sd_fingers d with
  | Some m => (λ kv : Finger * list FingerState, bool_decide (fingers hs kv.1 ∈ kv.2))
                <$> map_to_list m
  | None => []
  end.

(** One outcome when the definition restricts the orientation. *)
Definition orientation_checks (hs : HandState) (d : SignDef) : list bool :=
  match sd_orientation d with
  | Some os => [bool_decide (palm_orientation hs ∈ os)]
  | None => []
  end.

(** One outcome when the definition names a special predicate. *)
Definition special_checks (hs : HandState) (d : SignDef) : result (list bool) :=
  match sd_special d with
  | Some tag => b ← Recognizer.special_check tag (raw_landmarks hs); Ok [b]
  | None => Ok []
  end.

Definition applicable (hs : HandState) (d : SignDef) : result (list bool) :=
  sp ← special_checks hs d;
  Ok (finger_checks hs d ++ orientation_checks hs d ++ sp).

Definition hits (cs : list bool) : nat := length (filter Is_true cs).

(** [hits / total] as a float, and 0 when there is no check. *)
Definition fraction (h t : nat) : float :=
  if bool_decide (t = 0) then 0%float else (nat2f h / nat2f t)%float.

End Checks.

(** ** Lexicon lookups and variants of a definition *)

(** [lexicon[name]] *)
Definition lookup_sign (name : string) (lex : list (string * SignDef)) : option SignDef :=
  snd <$> find (λ e : string * SignDef, String.eqb e.1 name) lex.

(** The special tags [_calculate_match_score] has a branch for. *)
Definition handled_tags : list string :=
  ["THUMB_INDEX_TOUCH"; "THUMB_MIDDLE_TOUCH"; "ALL_TIPS_TOUCH"; "THUMB_UNDER_INDEX"].

(** The same definition with other ["check"] and ["spread"] keys. *)
Definition with_check_spread (d : SignDef) (ck : option string) (sp : option bool) : SignDef :=
  {| sd_desc := sd_desc d; sd_fingers := sd_fingers d; sd_orientation := sd_orientation d;
     sd_special := sd_special d; sd_check := ck; sd_spread := sp |}.

(** ** Auxiliary notions used in the statements *)

(** A float that is not NaN compares equal to itself. *)
Definition not_nan (a : float) : Prop := (a =? a)%float = true.

(** The count a [Counter] holds for a label (0 when absent). *)
Fixpoint cnt (c : list (string * nat)) (w : string) : nat :=
  match c with
  | [] => 0
  | (y, n) :: c' => if String.eqb w y then n else cnt c' w
  end.

(** The step of [most_common_1]: keep the running best unless the next entry
    has a strictly larger count. *)
Definition pick (best : option (string * nat)) (kv : string * nat) : option (string * nat) :=
  match best with
  | None => Some kv
  | Some b => if (b.2 <? kv.2)%nat then Some kv else best
  end.

(** [scored hs e s]: the matcher gives entry [e] the score [s] on [hs]. *)
Definition scored (hs : HandState) (e : string * SignDef) (s : float) : Prop :=
  Recognizer._calculate_match_score hs e.2 = Ok s.

(** ** Concrete frames and states used in the examples *)

Module Examples.

Definition lm (x y z : float) : landmark :=
  LmDict (Present (PyFloat x)) (Present (PyFloat y)) (Present (PyFloat z)).

(** A flat open hand facing the camera, 21 landmarks. *)
Definition open_hand : list landmark := [
  lm 0.5 0.875 0;
  lm 0.40625 0.8125 (-0.015625); lm 0.34375 0.734375 (-0.03125);
  lm 0.296875 0.65625 (-0.03125); lm 0.265625 0.578125 (-0.03125);
  lm 0.421875 0.5625 0; lm 0.40625 0.4375 0; lm 0.40625 0.34375 0; lm 0.40625 0.265625 0;
  lm 0.5 0.546875 0; lm 0.5 0.40625 0; lm 0.5 0.3125 0; lm 0.5 0.21875 0;
  lm 0.5625 0.5625 0; lm 0.578125 0.4375 0; lm 0.578125 0.34375 0; lm 0.578125 0.265625 0;
  lm 0.625 0.609375 0; lm 0.65625 0.5 0; lm 0.671875 0.421875 0; lm 0.671875 0.359375 0
]%float.

(** The same hand followed by one extra point: 22 landmarks. *)
Definition frame22 : list landmark := open_hand ++ [lm 0 0 0].

(** The first 20 landmarks only. *)
Definition frame20 : list landmark := take 20 open_hand.

(** The extractor after one frame of [open_hand] at time 1. *)
Definition after_first_frame : HandFeatureExtractor :=
  (Extractor.smooth_landmarks 1 open_hand Extractor.init).2.

(** A second frame: the wrist has moved and landmark 1 lacks its x key. *)
Definition frame_missing_x : list landmark :=
  lm 0.53125 0.875 0
  :: LmDict Absent (Present (PyFloat 0.8125)) (Present (PyFloat (-0.015625)))
  :: drop 2 open_hand.

(** A sentence builder that committed "A" at time 10. *)
Definition said_A : SentenceBuilder :=
  Sentence._commit_word 10 "A" Sentence.init.

End Examples.

Module VoteExamples.

(** Eight votes, six of them for "A". *)
Definition six_of_eight : list (float * string) :=
  [(1, "A"); (2, "A"); (3, "B"); (4, "A"); (5, "A"); (6, "C"); (7, "A"); (8, "A")]%float.

(** Eight votes, five of them for "A". *)
Definition five_of_eight : list (float * string) :=
  [(1, "A"); (2, "A"); (3, "B"); (4, "A"); (5, "A"); (6, "C"); (7, "A"); (8, "D")]%float.

(** The builder after the first seven votes of [six_of_eight]. *)
Definition seven_votes : SentenceBuilder :=
  {| current_sentence := [];
     frame_buffer := {| dq_items := ["A"; "A"; "B"; "A"; "A"; "C"; "A"];
                        dq_maxlen := Config.BUFFER_SIZE |};
     last_word_time := 0%float;
     cooldown := Config.WORD_COOLDOWN |}.

End VoteExamples.

(** * Further notions: filters, frames, sessions *)

(** ** Notions used in the further properties *)

(** A landmark that is a dict. *)
Definition is_dict (lm : landmark) : bool :=
  match lm with
  | LmDict _ _ _ => true
  | LmOther => false
  end.

(** The filter [_get_filter] creates for the first value of a channel. *)
Definition fresh_filter (ex : HandFeatureExtractor) (t : float) (v : pyval) : OneEuroFilter :=
  OneEuro.init t v (fc_min ex) (ex_beta ex).

(** A value that is a number. *)
Definition is_number (v : pyval) : bool :=
  match v with
  | PyFloat _ => true
  | PyNone => false
  end.

(** A landmark dict whose x and y are numbers and whose z is a number or is
    missing. *)
Definition numeric_landmark (lm : landmark) : bool :=
  match lm with
  | LmDict (Present x) (Present y) z => is_number x && is_number y && is_number (dict_get z (PyFloat 0))
  | _ => false
  end.

Definition numeric_row (r : row) : bool :=
  is_number r.1.1 && is_number r.1.2 && is_number r.2.

(** Every filter of the extractor holds a number as its previous value. *)
Definition numeric_filters (ex : HandFeatureExtractor) : Prop :=
  ∀ k f, filters ex !! k = Some f → is_number (x_prev f) = true.

(** Two definitions with the same three keys the matcher reads. *)
Definition same_checks (d d' : SignDef) : bool :=
  bool_decide (sd_fingers d = sd_fingers d')
  && bool_decide (sd_orientation d = sd_orientation d')
  && bool_decide (sd_special d = sd_special d').

(** The names of the entries that repeat the checks of an entry met before
    ([seen] holds the definitions already passed). *)
Fixpoint shadowed (seen : list SignDef) (lex : list (string * SignDef)) : list string :=
  match lex with
  | [] => []
  | (name, d) :: rest =>
      (if existsb (same_checks d) seen then [name] else []) ++ shadowed (seen ++ [d]) rest
  end.

(** Two builders that no sequence of calls can tell apart: same sentence,
    buffer and cooldown, and the same last commit time as soon as the
    sentence is not empty (the time is not read while it is empty). *)
Definition same_session (a b : SentenceBuilder) : Prop :=
  current_sentence a = current_sentence b
  ∧ frame_buffer a = frame_buffer b
  ∧ cooldown a = cooldown b
  ∧ (current_sentence a ≠ [] → last_word_time a = last_word_time b).

(** A definition whose thumb requirement accepts neither [EXTENDED] nor
    [FOLDED]. *)
Definition thumb_needs_curl (d : SignDef) : bool :=
  match sd_fingers d with
  | Some m =>
      match m !! THUMB with
      | Some l => bool_decide (EXTENDED ∉ l) && bool_decide (FOLDED ∉ l)
      | None => false
      end
  | None => false
  end.

(** The names of the entries of a lexicon that satisfy [p]. *)
Definition names_where (p : SignDef → bool) (lex : list (string * SignDef)) : list string :=
  (List.filter (λ e : string * SignDef, p e.2) lex).*1.

(** ** Session registry (module-level [sessions] and [session_last_activity]) *)

(** The two module-level dicts. *)
Record Registry : Type := {
  sessions : gmap string SentenceBuilder;
  session_last_activity : gmap string float
}.

Module Server.

(** [Config.SESSION_TIMEOUT], 3600 seconds. *)
Definition SESSION_TIMEOUT : float := 3600%float.

(** [current_time - last_time > Config.SESSION_TIMEOUT] *)
Definition expired (current_time last_time : float) : bool :=
  (SESSION_TIMEOUT <? current_time - last_time)%float.

(** The first loop of a sweep: the clients to delete (the outcome of the
    sweep does not depend on the order in which the dict lists them). *)
Definition to_delete (current_time : float) (activity : gmap string float) : list string :=
  (List.filter (λ kv : string * float, expired current_time kv.2) (map_to_list activity)).*1.

(** The body of the second loop; [del session_last_activity[client_id]]
    raises [KeyError], here [None], for a missing key. *)
Definition delete_client (reg : Registry) (client_id : string) : option Registry :=
  let sessions' :=
    match sessions reg !! client_id with
    | Some _ => delete client_id (sessions reg)
    | None => sessions reg
    end in
  match session_last_activity reg !! client_id with
  | Some _ =>
      Some {| sessions := sessions';
              session_last_activity := delete client_id (session_last_activity reg) |}
  | None => None
  end.

Fixpoint delete_loop (ids : list string) (reg : Registry) : option Registry :=
  match ids with
  | [] => Some reg
  | client_id :: rest => reg' ← delete_client reg client_id; delete_loop rest reg'
  end.

(** One round of [cleanup_old_sessions] after its sleep, with
    [current_time] the reading of [time.time()]. *)
Definition cleanup_old_sessions (current_time : float) (reg : Registry) : option Registry :=
  delete_loop (to_delete current_time (session_last_activity reg)) reg.

(** The session set-up of [websocket_endpoint_with_id]: the builder of the
    client, created when the client has none, and the registry with the
    activity time set to [now]. *)
Definition open_session (now : float) (client_id : string) (reg : Registry)
  : option (SentenceBuilder * Registry) :=
  let sessions' :=
    match sessions reg !! client_id with
    | Some _ => sessions reg
    | None => <[client_id := Sentence.init]> (sessions reg)
    end in
  match sessions' !! client_id with
  | Some sentence_builder =>
      Some (sentence_builder,
            {| sessions := sessions';
               session_last_activity := <[client_id := now]> (session_last_activity reg) |})
  | None => None
  end.

End Server.

(** The extractor after a first frame, at time 1, whose landmark 1 lacks its
    x key: channel 3 then holds a filter whose previous value is [None]. *)
Definition poisoned_extractor : HandFeatureExtractor :=
  (Extractor.smooth_landmarks 1 Examples.frame_missing_x Extractor.init).2.

(** The open hand with landmark 7 replaced by a value that is not a dict. *)
Definition frame_non_dict : list landmark := <[7 := LmOther]> Examples.open_hand.

(** The open hand whose wrist (landmark 0) lacks its x key. *)
Definition frame_wrist_without_x : list landmark :=
  LmDict Absent (Present (PyFloat 0.875)) (Present (PyFloat 0)) :: drop 1 Examples.open_hand.

(** The landmarks whose coordinates [process] uses in arithmetic: all of the
    first 21 but the thumb's CMC and IP joints. *)
Definition used_landmarks : list nat :=
  [0; 2; 4; 5; 6; 7; 8; 9; 10; 11; 12; 13; 14; 15; 16; 17; 18; 19; 20].

(** A builder whose buffer is full without a majority: five votes of eight. *)
Definition undecided : SentenceBuilder :=
  {| current_sentence := [];
     frame_buffer := {| dq_items := ["B"; "A"; "A"; "A"; "A"; "C"; "A"; "D"];
                        dq_maxlen := Config.BUFFER_SIZE |};
     last_word_time := 0%float;
     cooldown := Config.WORD_COOLDOWN |}.

(** * Verified properties *)

Local Open Scope nat_scope.

(** ** Order facts on binary64 numbers *)

Module FloatOrder.
Import SpecFloat.

Ltac cmp_cases :=
  repeat match goal with
  | H : context [Z.compare ?x ?y] |- _ => destruct (Z.compare_spec x y)
  | |- context [Z.compare ?x ?y] => destruct (Z.compare_spec x y)
  | H : context [Pos.compare_cont Eq ?x ?y] |- _ =>
      change (Pos.compare_cont Eq x y) with (Pos.compare x y) in *;
      destruct (Pos.compare_spec x y)
  | |- context [Pos.compare_cont Eq ?x ?y] =>
      change (Pos.compare_cont Eq x y) with (Pos.compare x y) in *;
      destruct (Pos.compare_spec x y)
  end.

Ltac sf_order :=
  unfold SFleb, SFltb, SFeqb, SFcompare; intros;
  repeat match goal with
  | f : spec_float |- _ => destruct f as [[]|[]| |[] ? ?]
  end;
  simpl in *; try done; cmp_cases; simpl in *; subst; try done; try lia.

Lemma SFleb_trans a b c : SFleb a b = true → SFleb b c = true → SFleb a c = true.
Proof. revert a b c. sf_order. Qed.

Lemma SFleb_ltb_trans a b c : SFleb a b = true → SFltb b c = true → SFltb a c = true.
Proof. revert a b c. sf_order. Qed.

Lemma SFltb_leb_trans a b c : SFltb a b = true → SFleb b c = true → SFltb a c = true.
Proof. revert a b c. sf_order. Qed.

Lemma SFleb_not_nan a b : SFleb a b = true → SFeqb a a = true ∧ SFeqb b b = true.
Proof. revert a b. sf_order. Qed.

Lemma SFltb_leb a b : SFltb a b = true → SFleb a b = true.
Proof. revert a b. sf_order. Qed.

Lemma SFltb_false_leb a b :
  SFeqb a a = true → SFeqb b b = true → SFltb a b = false → SFleb b a = true.
Proof. revert a b. sf_order. Qed.

Lemma SFltb_irrefl a : SFltb a a = false.
Proof. revert a. sf_order. Qed.

Lemma SFltb_not_nan a b : SFltb a b = true → SFeqb a a = true ∧ SFeqb b b = true.
Proof. revert a b. sf_order. Qed.

Lemma leb_trans a b c :
  (a <=? b)%float = true → (b <=? c)%float = true → (a <=? c)%float = true.
Proof. rewrite !leb_spec. apply SFleb_trans. Qed.

Lemma leb_ltb_trans a b c :
  (a <=? b)%float = true → (b <? c)%float = true → (a <? c)%float = true.
Proof. rewrite leb_spec, !ltb_spec. apply SFleb_ltb_trans. Qed.

Lemma ltb_leb_trans a b c :
  (a <? b)%float = true → (b <=? c)%float = true → (a <? c)%float = true.
Proof. rewrite leb_spec, !ltb_spec. apply SFltb_leb_trans. Qed.

Lemma leb_not_nan a b : (a <=? b)%float = true → not_nan a ∧ not_nan b.
Proof. unfold not_nan. rewrite leb_spec, !FloatAxioms.eqb_spec. apply SFleb_not_nan. Qed.

Lemma ltb_leb a b : (a <? b)%float = true → (a <=? b)%float = true.
Proof. rewrite leb_spec, ltb_spec. apply SFltb_leb. Qed.

Lemma ltb_false_leb a b :
  not_nan a → not_nan b → (a <? b)%float = false → (b <=? a)%float = true.
Proof. unfold not_nan. rewrite leb_spec, ltb_spec, !FloatAxioms.eqb_spec. apply SFltb_false_leb. Qed.

Lemma ltb_irrefl a : (a <? a)%float = false.
Proof. rewrite ltb_spec. apply SFltb_irrefl. Qed.

Lemma ltb_not_nan a b : (a <? b)%float = true → not_nan a ∧ not_nan b.
Proof. unfold not_nan. rewrite ltb_spec, !FloatAxioms.eqb_spec. apply SFltb_not_nan. Qed.

Lemma leb_refl a : not_nan a → (a <=? a)%float = true.
Proof. intros H. apply ltb_false_leb; [done..|apply ltb_irrefl]. Qed.

Lemma abs_not_nan a : not_nan a → not_nan (abs a).
Proof.
  unfold not_nan. rewrite !FloatAxioms.eqb_spec, abs_spec.
  unfold SFeqb, SFcompare, SFabs. destruct (Prim2SF a) as [[]|[]| |[] ? ?]; simpl; try done.
  all: cmp_cases; try done; lia.
Qed.

End FloatOrder.

(** ** The filter *)

(** C8: a call whose elapsed time [t - t_prev] is not positive returns the raw
    value itself and leaves the filter (x_prev, dx_prev, t_prev and its
    parameters) exactly as it was. *)
Theorem call_nonpositive_elapsed (f : OneEuroFilter) (t : float) (x : pyval) :
  (t - t_prev f <=? 0)%float = true →
  OneEuro.call f t x = Ok (x, f).
Proof. intros Hte. unfold OneEuro.call. by rewrite Hte. Qed.

Lemma call_nonpositive_elapsed_witness :
  OneEuro.call (OneEuro.init 2 (PyFloat 0.25) 1.5 8) 2 (PyFloat 0.75)
  = Ok (PyFloat 0.75, OneEuro.init 2 (PyFloat 0.25) 1.5 8).
Proof. apply call_nonpositive_elapsed. vm_compute. reflexivity. Defined.

(** ** The sentence builder: commits *)

Lemma last_snoc_ne {A} (l : list A) (x : A) : l ++ [x] ≠ l.
Proof.
  intros H. apply (f_equal length) in H. rewrite length_app in H. simpl in H. lia.
Qed.

Lemma commit_word_appends now w s :
  (match last (current_sentence s) with
   | Some l => String.eqb l w && (now - last_word_time s <? cooldown s)%float
   | None => false
   end) = false →
  Sentence._commit_word now w s
  = {| current_sentence := current_sentence s ++ [w]; frame_buffer := frame_buffer s;
       last_word_time := now; cooldown := cooldown s |}.
Proof. intros H. unfold Sentence._commit_word. by rewrite H. Qed.

Lemma commit_word_last now w s :
  last (current_sentence (Sentence._commit_word now w s)) = Some w.
Proof.
  unfold Sentence._commit_word.
  destruct (last (current_sentence s)) as [l|] eqn:Hl; simpl.
  - destruct (String.eqb l w) eqn:Hw; simpl.
    + apply String.eqb_eq in Hw. subst l.
      destruct (_ <? _)%float; simpl; [done | by rewrite last_snoc].
    + by rewrite last_snoc.
  - by rewrite last_snoc.
Qed.

(** C4: a commit of [w] at time [now] is dropped exactly when the sentence is
    non-empty, its last token is [w] and [now - last_word_time] is strictly
    below the cooldown; any other commit appends [w] and records [now];
    committing a, b, a with a and b different appends b and a whatever the
    three times are; the cooldown of a session is 0.5 and no commit changes it. *)
Theorem commit_word_dropped_iff (now : float) (w : string) (s : SentenceBuilder) :
  (Sentence._commit_word now w s = s ↔
     current_sentence s ≠ [] ∧ last (current_sentence s) = Some w
     ∧ (now - last_word_time s <? cooldown s)%float = true)
  ∧ (Sentence._commit_word now w s ≠ s →
       current_sentence (Sentence._commit_word now w s) = current_sentence s ++ [w]
       ∧ last_word_time (Sentence._commit_word now w s) = now)
  ∧ (∀ a b t1 t2 t3, a ≠ b →
       current_sentence
         (Sentence._commit_word t3 a (Sentence._commit_word t2 b (Sentence._commit_word t1 a s)))
       = current_sentence (Sentence._commit_word t1 a s) ++ [b; a])
  ∧ cooldown Sentence.init = 0.5%float
  ∧ cooldown (Sentence._commit_word now w s) = cooldown s.
Proof.
  split; [|split; [|split; [|split]]].
  - unfold Sentence._commit_word.
    destruct (last (current_sentence s)) as [l|] eqn:Hl; simpl.
    + destruct (String.eqb l w) eqn:Hw; simpl.
      * apply String.eqb_eq in Hw. subst l.
        destruct (_ <? _)%float eqn:Hc.
        -- split; [intros _|done]. split_and!; [|done..]. intros Hnil. by rewrite Hnil in Hl.
        -- split; [intros H | by intros (_ & _ & ?)].
           apply (f_equal current_sentence) in H. simpl in H. by apply last_snoc_ne in H.
      * apply String.eqb_neq in Hw. split.
        -- intros H. apply (f_equal current_sentence) in H. simpl in H.
           by apply last_snoc_ne in H.
        -- intros (_ & [= ?] & _). done.
    + split.
      * intros H. apply (f_equal current_sentence) in H. simpl in H.
        by apply last_snoc_ne in H.
      * intros (_ & ? & _). done.
  - unfold Sentence._commit_word.
    destruct (match last (current_sentence s) with Some _ => _ | None => _ end); simpl; done.
  - intros a b t1 t2 t3 Hab.
    set (s1 := Sentence._commit_word t1 a s).
    assert (Hl1 : last (current_sentence s1) = Some a) by apply commit_word_last.
    rewrite (commit_word_appends t2 b s1).
    2:{ rewrite Hl1. apply String.eqb_neq in Hab. by rewrite Hab. }
    rewrite commit_word_appends; simpl.
    + by rewrite <- app_assoc.
    + rewrite last_snoc. assert (String.eqb b a = false) as ->; [|done].
      apply String.eqb_neq. congruence.
  - reflexivity.
  - unfold Sentence._commit_word.
    destruct (match last (current_sentence s) with Some _ => _ | None => _ end); done.
Qed.

(** C10: a suppressed repeat (same last token, within the cooldown) leaves the
    whole builder unchanged, last-commit time included; so a later attempt of
    the same word is committed as soon as the cooldown counted from the
    original commit is over. *)
Theorem suppressed_commit_keeps_state (now later : float) (w : string) (s : SentenceBuilder) :
  last (current_sentence s) = Some w →
  (now - last_word_time s <? cooldown s)%float = true →
  Sentence._commit_word now w s = s
  ∧ ((later - last_word_time s <? cooldown s)%float = false →
     Sentence._commit_word later w (Sentence._commit_word now w s)
     = {| current_sentence := current_sentence s ++ [w]; frame_buffer := frame_buffer s;
          last_word_time := later; cooldown := cooldown s |}).
Proof.
  intros Hl Hc.
  assert (Hs : Sentence._commit_word now w s = s).
  { unfold Sentence._commit_word. by rewrite Hl, String.eqb_refl, Hc. }
  split; [done|]. intros Hlater. rewrite Hs.
  apply commit_word_appends. by rewrite Hl, String.eqb_refl, Hlater.
Qed.

Lemma suppressed_commit_keeps_state_witness :
  Sentence._commit_word 10.25 "A" Examples.said_A = Examples.said_A
  ∧ ((10.5 - last_word_time Examples.said_A <? cooldown Examples.said_A)%float = false →
     Sentence._commit_word 10.5 "A" (Sentence._commit_word 10.25 "A" Examples.said_A)
     = {| current_sentence := current_sentence Examples.said_A ++ ["A"];
          frame_buffer := frame_buffer Examples.said_A;
          last_word_time := 10.5; cooldown := cooldown Examples.said_A |}).
Proof.
  apply (suppressed_commit_keeps_state 10.25 10.5 "A" Examples.said_A); vm_compute; reflexivity.
Defined.

(** ** The extractor: frame length guard *)

Lemma set_extractor_same r : Recognizer.set_extractor r (extractor r) = r.
Proof. by destruct r. Qed.

(** The extractor left behind by [process] does not depend on the libm
    routines: it is the one [smooth_landmarks] leaves, or the initial one
    for a short frame. *)
Lemma process_state np t ts raw ex :
  (Extractor.process np t ts raw ex).2
  = if bool_decide (length raw < 21) then ex
    else (Extractor.smooth_landmarks t raw ex).2.
Proof.
  unfold Extractor.process. case_bool_decide; [done|].
  by destruct (Extractor.smooth_landmarks t raw ex) as [[?|?] ?].
Qed.

Lemma predict_state np t ts raw r :
  (Recognizer.predict np t ts raw r).2
  = Recognizer.set_extractor r (Extractor.process np t ts raw (extractor r)).2.
Proof.
  unfold Recognizer.predict.
  by destruct (Extractor.process np t ts raw (extractor r)) as [[[?|]|?] ?].
Qed.

(** C1 (as amended): a frame with fewer than 21 landmarks, the empty frame
    included, is rejected before anything else happens: [process] returns
    [None], [predict] returns [(None, 0.0)], and the extractor with its
    filters, hence the recognizer, is left exactly as it was, whatever
    the session history. *)
Theorem short_frame_rejected (np : Libm) (t ts : float) (raw : list landmark)
    (r : ASLRecognizer) :
  length raw < 21 →
  Extractor.process np t ts raw (extractor r) = (Ok None, extractor r)
  ∧ Recognizer.predict np t ts raw r = (Ok (None, 0%float), r).
Proof.
  intros Hlen.
  assert (Hp : Extractor.process np t ts raw (extractor r) = (Ok None, extractor r)).
  { unfold Extractor.process. by rewrite bool_decide_eq_true_2. }
  split; [done|]. unfold Recognizer.predict. by rewrite Hp, set_extractor_same.
Qed.

Lemma short_frame_rejected_witness :
  length Examples.frame20 < 21
  ∧ ∀ np t ts,
      Extractor.process np t ts Examples.frame20 (extractor Recognizer.init)
      = (Ok None, extractor Recognizer.init)
      ∧ Recognizer.predict np t ts Examples.frame20 Recognizer.init
        = (Ok (None, 0%float), Recognizer.init).
Proof.
  split; [vm_compute; lia|].
  intros np t ts. apply (short_frame_rejected np t ts Examples.frame20 Recognizer.init).
  vm_compute; lia.
Defined.

(** C1, the claim as stated fails: a frame of 22 landmarks is not rejected.
    On a fresh recognizer [process] returns a hand state, 66 filter channels
    are created, and the recognizer returned by [predict] holds them. *)
Lemma long_frame_not_rejected :
  length Examples.frame22 = 22
  ∧ filters (extractor Recognizer.init) = ∅
  ∧ ∀ np, ∃ hs ex',
      Extractor.process np 1 1 Examples.frame22 (extractor Recognizer.init)
      = (Ok (Some hs), ex')
      ∧ size (filters ex') = 66
      ∧ (Recognizer.predict np 1 1 Examples.frame22 Recognizer.init).2
        = Recognizer.set_extractor Recognizer.init ex'.
Proof.
  split; [reflexivity|]. split; [reflexivity|]. intros np.
  destruct (Extractor.smooth_landmarks 1 Examples.frame22 (extractor Recognizer.init))
    as [res ex'] eqn:Hs.
  assert (Hres : res = (Extractor.smooth_landmarks 1 Examples.frame22 Extractor.init).1)
    by (change Extractor.init with (extractor Recognizer.init); by rewrite Hs).
  assert (Hex : ex' = (Extractor.smooth_landmarks 1 Examples.frame22 Extractor.init).2)
    by (change Extractor.init with (extractor Recognizer.init); by rewrite Hs).
  vm_compute in Hres.
  eexists _, ex'. split; [|split].
  - unfold Extractor.process.
    rewrite bool_decide_eq_false_2 by (vm_compute; lia).
    rewrite Hs, Hres. reflexivity.
  - rewrite Hex. vm_compute. reflexivity.
  - rewrite predict_state, process_state, Hs.
    rewrite bool_decide_eq_false_2 by (vm_compute; lia). reflexivity.
Qed.

(** ** Smoothing and its fallback *)

Lemma raw_loop_app (lms : list landmark) (sm : list row) :
  Extractor.raw_loop lms sm = (rows ← Extractor.raw_loop lms []; Ok (sm ++ rows)).
Proof.
  revert sm. induction lms as [|lm lms IH]; intros sm; simpl.
  - by rewrite app_nil_r.
  - destruct (Extractor.read_landmark_raw lm) as [r|e]; simpl; [|done].
    rewrite (IH (sm ++ [r])), (IH [r]).
    destruct (Extractor.raw_loop lms []) as [rows|e]; simpl; [|done].
    by rewrite <- app_assoc.
Qed.

(** When the smoothing loop raises after having appended the rows [sm], the
    array returned is [sm] followed by the raw rows of every landmark. *)
Lemma smooth_landmarks_fallback t lms ex e ex' sm raw :
  Extractor.smooth_loop t 0 lms (ex, []) = (Raise e, (ex', sm)) →
  Extractor.raw_loop lms [] = Ok raw →
  Extractor.smooth_landmarks t lms ex = (Ok (sm ++ raw), ex').
Proof.
  intros Hloop Hraw. unfold Extractor.smooth_landmarks. rewrite Hloop.
  by rewrite raw_loop_app, Hraw.
Qed.

(** C2 (the code departs from the claim): second frame of a session, with the
    x key of landmark 1 missing.  The filter of channel 3 raises TypeError
    after landmark 0 has been smoothed and appended; the fallback then appends
    the 21 raw rows to the same list.  The array returned has 22 rows, its
    first row is the smoothed wrist and not the raw one, and every raw row
    sits one index too far. *)
Theorem fallback_appends_to_smoothed_rows :
  ∃ ex' sm raw rows ex'',
    Extractor.smooth_loop 2 0 Examples.frame_missing_x (Examples.after_first_frame, [])
    = (Raise TypeError, (ex', sm))
    ∧ length sm = 1
    ∧ Extractor.raw_loop Examples.frame_missing_x [] = Ok raw
    ∧ length raw = 21
    ∧ Extractor.smooth_landmarks 2 Examples.frame_missing_x Examples.after_first_frame
      = (Ok rows, ex'')
    ∧ rows = sm ++ raw
    ∧ length rows = 22
    ∧ rows !! 0 ≠ raw !! 0
    ∧ ∀ i, rows !! (S i) = raw !! i.
Proof.
  set (out := Extractor.smooth_loop 2 0 Examples.frame_missing_x
                (Examples.after_first_frame, [])).
  assert (Hout : out = (out.1, (out.2.1, out.2.2))) by (by destruct out as [? [? ?]]).
  assert (Hres : out.1 = Raise TypeError) by (vm_compute; reflexivity).
  let v := eval vm_compute in out.2.2 in
    assert (Hsm : out.2.2 = v) by (vm_compute; reflexivity).
  let v := eval vm_compute in (Extractor.raw_loop Examples.frame_missing_x []) in
    assert (Hraw : Extractor.raw_loop Examples.frame_missing_x [] = v)
      by (vm_compute; reflexivity).
  rewrite Hres in Hout.
  eexists out.2.1, out.2.2, _, _, out.2.1.
  split; [exact Hout|]. split; [by rewrite Hsm|]. split; [exact Hraw|].
  split; [reflexivity|].
  split; [by apply smooth_landmarks_fallback with TypeError|].
  split; [reflexivity|]. rewrite Hsm. split; [reflexivity|]. split.
  - simpl. by intros [= H].
  - intros i. reflexivity.
Qed.

(** ** Palm orientation *)

(** C7, the claim as stated fails on ties: a hand turned 45 degrees about the
    vertical axis (wrist, index knuckle straight above it, little-finger
    knuckle equally far to the side and towards the camera) has a palm
    normal with |x| = |z| > |y|.  Priority z-before-x would give Backward;
    the extractor's strict comparisons give Right. *)
Lemma orientation_tie_goes_to_x :
  let n := Extractor.palm_normal_of (0.5, 0.75, 0)%float (0.5, 0.5, 0)%float
             (0.625, 0.5, -0.125)%float in
  (PrimFloat.abs n.1.1 =? PrimFloat.abs n.2)%float = true
  ∧ (PrimFloat.abs n.1.2 <? PrimFloat.abs n.2)%float = true
  ∧ Spec.orientation_by_priority n = BACKWARD
  ∧ Extractor.orientation_of n = RIGHT.
Proof. vm_compute. done. Qed.

(** C7 (as amended): the z axis is chosen exactly when |z| is strictly larger
    than both |x| and |y|; otherwise the y axis exactly when |y| is strictly
    larger than |x|; otherwise the x axis.  The direction on the chosen axis
    is by sign: a negative component gives Forward, Up or Left, any other
    gives Backward, Down or Right.  When no component is NaN the chosen axis
    carries a largest absolute component, and an exact tie for the largest
    goes to the axis compared later (x before y before z), never to z. *)
Theorem orientation_strict_cascade (n0 n1 n2 : float) :
  let o := Extractor.orientation_of (n0, n1, n2) in
  let ax := PrimFloat.abs n0 in
  let ay := PrimFloat.abs n1 in
  let az := PrimFloat.abs n2 in
  let z_strict := (ax <? az)%float && (ay <? az)%float in
  (Spec.axis_of o = Spec.AxisZ ↔ z_strict = true)
  ∧ (Spec.axis_of o = Spec.AxisY ↔ z_strict = false ∧ (ax <? ay)%float = true)
  ∧ (Spec.axis_of o = Spec.AxisX ↔ z_strict = false ∧ (ax <? ay)%float = false)
  ∧ o = Spec.towards (Spec.axis_of o)
          match Spec.axis_of o with
          | Spec.AxisZ => (n2 <? 0)%float
          | Spec.AxisY => (n1 <? 0)%float
          | Spec.AxisX => (n0 <? 0)%float
          end
  ∧ (not_nan n0 → not_nan n1 → not_nan n2 →
     let chosen := match Spec.axis_of o with
                   | Spec.AxisZ => az | Spec.AxisY => ay | Spec.AxisX => ax
                   end in
     (ax <=? chosen)%float = true ∧ (ay <=? chosen)%float = true
     ∧ (az <=? chosen)%float = true)
  ∧ (ax = az → Spec.axis_of o ≠ Spec.AxisZ)
  ∧ (ay = az → Spec.axis_of o ≠ Spec.AxisZ)
  ∧ (ax = ay → Spec.axis_of o ≠ Spec.AxisY).
Proof.
  intros o ax ay az z_strict. subst o. unfold Extractor.orientation_of.
  fold ax ay az. fold z_strict.
  assert (Hrefl : ∀ a, (a <=? a)%float = true ∨ ¬ not_nan a).
  { intros a. destruct (a =? a)%float eqn:E.
    - left. apply FloatOrder.ltb_false_leb; [done..|apply FloatOrder.ltb_irrefl].
    - right. unfold not_nan. by rewrite E. }
  split_and!.
  - destruct z_strict, (ax <? ay)%float, (n2 <? 0)%float, (n1 <? 0)%float,
      (n0 <? 0)%float; simpl; split; done.
  - destruct z_strict, (ax <? ay)%float, (n2 <? 0)%float, (n1 <? 0)%float,
      (n0 <? 0)%float; simpl; split; try done; by intros [? ?].
  - destruct z_strict, (ax <? ay)%float, (n2 <? 0)%float, (n1 <? 0)%float,
      (n0 <? 0)%float; simpl; split; try done; by intros [? ?].
  - destruct z_strict, (ax <? ay)%float, (n2 <? 0)%float, (n1 <? 0)%float,
      (n0 <? 0)%float; simpl; done.
  - intros H0 H1 H2.
    pose proof (FloatOrder.abs_not_nan _ H0) as Hx.
    pose proof (FloatOrder.abs_not_nan _ H1) as Hy.
    pose proof (FloatOrder.abs_not_nan _ H2) as Hz.
    fold ax in Hx. fold ay in Hy. fold az in Hz.
    assert (Rx : (ax <=? ax)%float = true) by (by destruct (Hrefl ax)).
    assert (Ry : (ay <=? ay)%float = true) by (by destruct (Hrefl ay)).
    assert (Rz : (az <=? az)%float = true) by (by destruct (Hrefl az)).
    subst z_strict.
    destruct (ax <? az)%float eqn:Exz; simpl.
    + destruct (ay <? az)%float eqn:Eyz; simpl.
      * assert (Spec.axis_of (if (n2 <? 0)%float then FORWARD else BACKWARD) = Spec.AxisZ)
          as -> by (by destruct (n2 <? 0)%float).
        split_and!; [by apply FloatOrder.ltb_leb..|done].
      * destruct (ax <? ay)%float eqn:Exy.
        -- assert (Spec.axis_of (if (n1 <? 0)%float then UP else DOWN) = Spec.AxisY)
             as -> by (by destruct (n1 <? 0)%float).
           split_and!; [by apply FloatOrder.ltb_leb|done|by apply FloatOrder.ltb_false_leb].
        -- assert (Spec.axis_of (if (n0 <? 0)%float then LEFT else RIGHT) = Spec.AxisX)
             as -> by (by destruct (n0 <? 0)%float).
           assert (Hyx : (ay <=? ax)%float = true) by (by apply FloatOrder.ltb_false_leb).
           assert (Hzy : (az <=? ay)%float = true) by (by apply FloatOrder.ltb_false_leb).
           split_and!; [done..|by apply FloatOrder.leb_trans with ay].
    + destruct (ax <? ay)%float eqn:Exy.
      * assert (Spec.axis_of (if (n1 <? 0)%float then UP else DOWN) = Spec.AxisY)
          as -> by (by destruct (n1 <? 0)%float).
        assert (Hzx : (az <=? ax)%float = true) by (by apply FloatOrder.ltb_false_leb).
        split_and!; [by apply FloatOrder.ltb_leb|done|].
        apply FloatOrder.leb_trans with ax; [done|by apply FloatOrder.ltb_leb].
      * assert (Spec.axis_of (if (n0 <? 0)%float then LEFT else RIGHT) = Spec.AxisX)
          as -> by (by destruct (n0 <? 0)%float).
        split_and!; [done|by apply FloatOrder.ltb_false_leb..].
  - intros Heq. subst z_strict. rewrite Heq, FloatOrder.ltb_irrefl. simpl.
    repeat case_match; done.
  - intros Heq. subst z_strict. rewrite Heq, FloatOrder.ltb_irrefl, andb_false_r.
    repeat case_match; done.
  - intros Heq. rewrite Heq, FloatOrder.ltb_irrefl.
    repeat case_match; done.
Qed.

(** ** The sentence builder: majority vote *)

Section CounterFacts.

Lemma counter_incr_cnt x c w :
  cnt (counter_incr x c) w = cnt c w + (if String.eqb w x then 1 else 0).
Proof.
  induction c as [|[y n] c IH]; simpl.
  - destruct (String.eqb w x); lia.
  - destruct (String.eqb x y) eqn:Hxy; simpl.
    + apply String.eqb_eq in Hxy. subst y. destruct (String.eqb w x); lia.
    + destruct (String.eqb w y) eqn:Hwy; [|done].
      apply String.eqb_eq in Hwy. subst y.
      rewrite String.eqb_sym, Hxy. lia.
Qed.

Lemma counter_incr_keys x c :
  NoDup c.*1 → NoDup (counter_incr x c).*1 ∧ ∀ k, k ∈ (counter_incr x c).*1 ↔ k = x ∨ k ∈ c.*1.
Proof.
  induction c as [|[y n] c IH]; simpl; intros Hnd.
  - split; [apply NoDup_singleton|]. intros k.
    rewrite elem_of_cons. pose proof (not_elem_of_nil k). tauto.
  - apply NoDup_cons in Hnd as [Hy Hnd]. destruct (IH Hnd) as [IH1 IH2].
    destruct (String.eqb x y) eqn:Hxy; simpl.
    + apply String.eqb_eq in Hxy. subst y. split; [by apply NoDup_cons|].
      intros k. rewrite !elem_of_cons. tauto.
    + apply String.eqb_neq in Hxy. split.
      * apply NoDup_cons. split; [|done]. rewrite IH2. by intros [->|?].
      * intros k. rewrite !elem_of_cons, IH2. tauto.
Qed.

Lemma Counter_fold items c w :
  NoDup c.*1 →
  NoDup (foldl (λ c x, counter_incr x c) c items).*1
  ∧ cnt (foldl (λ c x, counter_incr x c) c items) w = cnt c w + count w items.
Proof.
  revert c. induction items as [|x items IH]; intros c Hnd; simpl.
  - split; [done|]. unfold count. simpl. lia.
  - destruct (counter_incr_keys x c Hnd) as [Hnd' _].
    destruct (IH _ Hnd') as [H1 H2]. split; [done|].
    rewrite H2, counter_incr_cnt. unfold count. rewrite filter_cons.
    destruct (String.eqb w x) eqn:Hwx.
    + apply String.eqb_eq in Hwx. subst x. rewrite decide_True by done. simpl. lia.
    + apply String.eqb_neq in Hwx. rewrite decide_False by congruence. lia.
Qed.

Lemma cnt_of_entry c w n : NoDup c.*1 → (w, n) ∈ c → cnt c w = n.
Proof.
  induction c as [|[y m] c IH]; simpl; intros Hnd Hin; [by apply elem_of_nil in Hin|].
  apply NoDup_cons in Hnd as [Hy Hnd].
  apply elem_of_cons in Hin as [[= <- <-]|Hin]; [by rewrite String.eqb_refl|].
  destruct (String.eqb w y) eqn:Hwy; [|by apply IH].
  apply String.eqb_eq in Hwy. subst y. exfalso. apply Hy.
  apply list_elem_of_fmap. by exists (w, n).
Qed.

Lemma entry_of_cnt c w : 0 < cnt c w → (w, cnt c w) ∈ c.
Proof.
  induction c as [|[y m] c IH]; simpl; intros Hpos; [lia|].
  destruct (String.eqb w y) eqn:Hwy.
  - apply String.eqb_eq in Hwy. subst y. apply elem_of_cons. by left.
  - apply elem_of_cons. right. by apply IH.
Qed.

Lemma most_common_fold c b :
  ∃ r, foldl pick (Some b) c = Some r ∧ r ∈ b :: c
       ∧ ∀ kv : string * nat, kv ∈ b :: c → (kv.2 ≤ r.2)%nat.
Proof.
  revert b. induction c as [|kv c IH]; intros b; simpl.
  - exists b. split; [done|]. split; [apply elem_of_cons; by left|].
    intros kv Hkv. apply elem_of_cons in Hkv as [->|Hkv]; [done|by apply elem_of_nil in Hkv].
  - destruct (b.2 <? kv.2)%nat eqn:Hlt.
    + apply Nat.ltb_lt in Hlt. destruct (IH kv) as (r & Hr & Hin & Hmax).
      exists r. split; [done|]. split; [apply elem_of_cons; by right|].
      intros kv' Hkv'. apply elem_of_cons in Hkv' as [->|Hkv']; [|by apply Hmax].
      specialize (Hmax kv ltac:(apply elem_of_cons; by left)). lia.
    + apply Nat.ltb_ge in Hlt. destruct (IH b) as (r & Hr & Hin & Hmax).
      exists r. split; [done|]. split.
      * apply elem_of_cons in Hin as [->|Hin]; [apply elem_of_cons; by left|].
        apply elem_of_cons. right. apply elem_of_cons. by right.
      * intros kv' Hkv'. apply elem_of_cons in Hkv' as [->|Hkv'].
        { apply Hmax. apply elem_of_cons. by left. }
        apply elem_of_cons in Hkv' as [->|Hkv'].
        { specialize (Hmax b ltac:(apply elem_of_cons; by left)). lia. }
        apply Hmax. apply elem_of_cons. by right.
Qed.

(** [Counter(items).most_common(1)[0]] of a non-empty buffer: a most
    frequent label with its number of occurrences. *)
Lemma most_common_spec items :
  items ≠ [] →
  ∃ w n, most_common_1 (Counter items) = Some (w, n)
         ∧ n = count w items ∧ ∀ w', count w' items ≤ n.
Proof.
  intros Hne. unfold most_common_1, Counter.
  destruct (Counter_fold items [] "" (NoDup_nil_2)) as [Hnd _].
  assert (Hcnt : ∀ w, cnt (foldl (λ c x, counter_incr x c) [] items) w = count w items).
  { intros w. by destruct (Counter_fold items [] w (NoDup_nil_2)) as [_ ->]. }
  set (c := foldl (λ c x, counter_incr x c) [] items) in *.
  change (foldl _ None c) with (foldl pick None c).
  destruct c as [|b c'] eqn:Hc.
  - exfalso. destruct items as [|x items]; [done|].
    specialize (Hcnt x). simpl in Hcnt. unfold count in Hcnt.
    rewrite filter_cons, decide_True in Hcnt by done. simpl in Hcnt. lia.
  - simpl. destruct (most_common_fold c' b) as ([w n] & Hr & Hin & Hmax).
    exists w, n. split; [done|].
    assert (Hn : cnt (b :: c') w = n) by (by apply cnt_of_entry).
    split; [by rewrite <- Hcnt|].
    intros w'. rewrite <- Hcnt.
    destruct (decide (0 < cnt (b :: c') w')) as [Hpos|]; [|lia].
    apply (Hmax (w', cnt (b :: c') w')). by apply entry_of_cnt.
Qed.

End CounterFacts.

(** [count > maxlen * MAJORITY_THRESHOLD] for a count within a full buffer of
    8: the float product is just above 5.2, so the test holds from 6 on. *)
Lemma majority_test n :
  n ≤ 8 →
  (nat2f 8 * Config.MAJORITY_THRESHOLD <? nat2f n)%float = bool_decide (6 ≤ n).
Proof.
  intros Hn. do 9 (destruct n as [|n]; [vm_compute; reflexivity|]). lia.
Qed.

Lemma count_le_length w items : count w items ≤ length items.
Proof. unfold count. apply length_filter. Qed.

Lemma deque_append_length x d :
  length (dq_items (deque_append x d)) = Nat.min (S (length (dq_items d))) (dq_maxlen d).
Proof.
  unfold deque_append. cbn [dq_items dq_maxlen].
  rewrite length_drop, !length_app. cbn [length]. lia.
Qed.

Lemma commit_word_frame now w s :
  frame_buffer (Sentence._commit_word now w s) = frame_buffer s
  ∧ cooldown (Sentence._commit_word now w s) = cooldown s.
Proof. unfold Sentence._commit_word. by case_match. Qed.

(** Every state of a session keeps the buffer capacity 8, at most 8 buffered
    labels and the cooldown 0.5. *)
Lemma reachable_invariant s :
  reachable s →
  dq_maxlen (frame_buffer s) = 8 ∧ length (dq_items (frame_buffer s)) ≤ 8
  ∧ cooldown s = Config.WORD_COOLDOWN.
Proof.
  induction 1 as [|s now p c s' Hr (IHm & IHl & IHc) Hadd|s Hr (IHm & IHl & IHc)].
  - split_and!; [done|simpl; lia|done].
  - unfold Sentence.add_prediction in Hadd.
    destruct p as [p|]; [|by injection Hadd as <-].
    destruct (String.eqb p ""); [by injection Hadd as <-|].
    assert (Hlen := deque_append_length p (frame_buffer s)).
    assert (Hs1 : dq_maxlen (frame_buffer (Sentence.set_buffer s (deque_append p (frame_buffer s)))) = 8
                  ∧ length (dq_items (frame_buffer (Sentence.set_buffer s (deque_append p (frame_buffer s))))) ≤ 8
                  ∧ cooldown (Sentence.set_buffer s (deque_append p (frame_buffer s))) = Config.WORD_COOLDOWN).
    { simpl. split_and!; [done| |done]. simpl in Hlen. rewrite length_drop, !length_app. simpl. lia. }
    case_bool_decide; [|by injection Hadd as <-].
    destruct (most_common_1 _) as [[w n]|]; [|discriminate Hadd].
    destruct (_ <? _)%float; [|by injection Hadd as <-].
    injection Hadd as <-. simpl.
    destruct (commit_word_frame now w (Sentence.set_buffer s (deque_append p (frame_buffer s))))
      as [-> ->].
    split_and!; [done|lia|done].
  - simpl. split_and!; [done|lia|done].
Qed.

Lemma feed_reachable events s s' : reachable s → feed events s = Ok s' → reachable s'.
Proof.
  revert s. induction events as [|[now p] events IH]; cbn [feed]; intros s Hr Hf.
  - by injection Hf as <-.
  - destruct (Sentence.add_prediction now (Some p) 1%float s) as [s1|] eqn:Hadd;
      simpl in Hf; [|done].
    apply (IH s1); [|done]. by eapply reach_add.
Qed.

(** C3: in any state of a session, [add_prediction] ignores [None] and the
    empty string; a non-empty label is appended to the buffer (the oldest
    label leaving a full buffer); nothing more happens while the buffer holds
    fewer than 8 labels; with 8 labels the most frequent label w and its
    count n are taken, the test [n > 8 * 0.65] holds exactly when n is at
    least 6, and exactly then w is committed and the buffer emptied, else
    the buffer stays as it is.  Six "A" among eight votes commit "A" and
    leave an empty buffer; five among eight commit nothing. *)
Theorem add_prediction_majority_vote (s : SentenceBuilder) (now c : float) (p : string) :
  reachable s →
  let buf := deque_append p (frame_buffer s) in
  let s1 := Sentence.set_buffer s buf in
  Sentence.add_prediction now None c s = Ok s
  ∧ Sentence.add_prediction now (Some "") c s = Ok s
  ∧ (p ≠ "" →
     dq_maxlen buf = 8
     ∧ dq_items buf
       = drop (length (dq_items (frame_buffer s)) + 1 - 8) (dq_items (frame_buffer s) ++ [p])
     ∧ length (dq_items buf) ≤ 8
     ∧ (length (dq_items buf) < 8 → Sentence.add_prediction now (Some p) c s = Ok s1)
     ∧ (length (dq_items buf) = 8 →
        ∃ w n,
          most_common_1 (Counter (dq_items buf)) = Some (w, n)
          ∧ n = count w (dq_items buf)
          ∧ (∀ w', count w' (dq_items buf) ≤ n)
          ∧ (nat2f 8 * Config.MAJORITY_THRESHOLD <? nat2f n)%float = bool_decide (6 ≤ n)
          ∧ Sentence.add_prediction now (Some p) c s
            = Ok (if bool_decide (6 ≤ n)
                  then Sentence.set_buffer (Sentence._commit_word now w s1)
                         {| dq_items := []; dq_maxlen := 8 |}
                  else s1)))
  ∧ feed VoteExamples.six_of_eight Sentence.init
    = Ok {| current_sentence := ["A"];
            frame_buffer := {| dq_items := []; dq_maxlen := 8 |};
            last_word_time := 8%float; cooldown := 0.5%float |}
  ∧ feed VoteExamples.five_of_eight Sentence.init
    = Ok {| current_sentence := [];
            frame_buffer := {| dq_items := ["A"; "A"; "B"; "A"; "A"; "C"; "A"; "D"];
                               dq_maxlen := 8 |};
            last_word_time := 0%float; cooldown := 0.5%float |}.
Proof.
  intros Hr buf s1.
  destruct (reachable_invariant s Hr) as (Hm & Hl & Hc).
  split; [done|]. split; [done|]. split; [|split; vm_compute; reflexivity].
  intros Hp. apply String.eqb_neq in Hp.
  assert (Hbm : dq_maxlen buf = 8) by done.
  assert (Hlen : length (dq_items buf) = Nat.min (S (length (dq_items (frame_buffer s)))) 8).
  { subst buf. by rewrite deque_append_length, Hm. }
  split; [done|]. split.
  { subst buf. unfold deque_append. cbn [dq_items]. by rewrite length_app, Hm. }
  split; [lia|].
  assert (Hadd : Sentence.add_prediction now (Some p) c s
    = if bool_decide (length (dq_items buf) = 8) then
        match most_common_1 (Counter (dq_items buf)) with
        | None => Raise IndexError
        | Some (w, n) =>
            if (nat2f 8 * Config.MAJORITY_THRESHOLD <? nat2f n)%float
            then Ok (Sentence.set_buffer (Sentence._commit_word now w s1)
                       {| dq_items := []; dq_maxlen := 8 |})
            else Ok s1
        end
      else Ok s1).
  { unfold Sentence.add_prediction. rewrite Hp. fold buf. fold s1. rewrite Hbm.
    case_bool_decide; [|done]. destruct (most_common_1 _) as [[w n]|]; [|done].
    destruct (_ <? _)%float; [|done].
    destruct (commit_word_frame now w s1) as [-> _]. subst s1. simpl.
    unfold deque_clear. by rewrite Hbm. }
  split.
  - intros Hlt. rewrite Hadd. by rewrite bool_decide_eq_false_2 by lia.
  - intros H8. rewrite Hadd. rewrite bool_decide_eq_true_2 by done.
    destruct (most_common_spec (dq_items buf)) as (w & n & Hmc & Hn & Hmax).
    { intros Hnil. rewrite Hnil in H8. simpl in H8. lia. }
    exists w, n. rewrite Hmc.
    assert (Hn8 : n ≤ 8) by (rewrite Hn, <- H8; apply count_le_length).
    split; [done|]. split; [done|]. split; [done|].
    split; [exact (majority_test n Hn8)|].
    rewrite (majority_test n Hn8). by destruct (bool_decide (6 ≤ n)).
Qed.

Lemma add_prediction_majority_vote_witness :
  reachable VoteExamples.seven_votes
  ∧ Sentence.add_prediction 8%float (Some "A") 1%float VoteExamples.seven_votes
    = Ok {| current_sentence := ["A"];
            frame_buffer := {| dq_items := []; dq_maxlen := 8 |};
            last_word_time := 8%float; cooldown := 0.5%float |}.
Proof.
  assert (Hr : reachable VoteExamples.seven_votes).
  { apply (feed_reachable (take 7 VoteExamples.six_of_eight) Sentence.init);
      [apply reach_init|vm_compute; reflexivity]. }
  split; [exact Hr|].
  destruct (add_prediction_majority_vote VoteExamples.seven_votes 8%float 1%float "A" Hr)
    as (_ & _ & H & _).
  destruct (H ltac:(done)) as (_ & _ & _ & _ & H8).
  destruct (H8 ltac:(reflexivity)) as (w & n & Hmc & _ & _ & _ & Hadd).
  rewrite Hadd. vm_compute in Hmc. injection Hmc as <- <-. vm_compute. reflexivity.
Defined.

(** ** The matcher: score of one definition *)

Lemma nat2f_succ k : k < 7 → (nat2f k + 1)%float = nat2f (S k).
Proof. intros Hk. do 7 (destruct k as [|k]; [vm_compute; reflexivity|]). lia. Qed.

Lemma hits_cons b cs : Checks.hits (b :: cs) = (if b then 1 else 0) + Checks.hits cs.
Proof. unfold Checks.hits. rewrite filter_cons. by destruct b. Qed.

Lemma hits_app cs1 cs2 : Checks.hits (cs1 ++ cs2) = Checks.hits cs1 + Checks.hits cs2.
Proof. unfold Checks.hits. by rewrite filter_app, length_app. Qed.

Lemma hits_le_length cs : Checks.hits cs ≤ length cs.
Proof. apply length_filter. Qed.

Lemma count_check_exact b h t :
  h < 7 →
  Recognizer.count_check b (nat2f h, t) = (nat2f (h + if b then 1 else 0), S t).
Proof.
  intros Hh. unfold Recognizer.count_check. destruct b.
  - by rewrite nat2f_succ, Nat.add_1_r.
  - by rewrite Nat.add_0_r.
Qed.

(** The running pair after a list of checks: the float score is the number of
    hits and the counter the number of checks, as long as at most 7 are made. *)
Lemma tally_fold {A} (step : Recognizer.tally → A → Recognizer.tally) (f : A → bool)
    (l : list A) h t :
  (∀ acc x, step acc x = Recognizer.count_check (f x) acc) →
  h + length l ≤ 7 →
  foldl step (nat2f h, t) l = (nat2f (h + Checks.hits (f <$> l)), t + length l).
Proof.
  intros Hstep.
  revert h t. induction l as [|x l IH]; intros h t Hlen; cbn [foldl length fmap list_fmap] in *.
  - unfold Checks.hits. simpl. by rewrite !Nat.add_0_r.
  - rewrite Hstep, count_check_exact by lia. rewrite IH by (destruct (f x); lia).
    rewrite hits_cons. f_equal; [f_equal|]; lia.
Qed.

(** A dict keyed by [Finger] has at most five entries. *)
Lemma finger_map_size {A} (m : gmap Finger A) : length (map_to_list m) ≤ 5.
Proof.
  rewrite <- (length_fmap fst).
  change 5 with (length [THUMB; INDEX; MIDDLE; RING; PINKY]).
  apply submseteq_length, NoDup_submseteq; [apply NoDup_fst_map_to_list|].
  intros [] _; set_solver.
Qed.

Lemma fraction_unit_interval h t :
  h ≤ t → t ≤ 7 →
  (0 <=? Checks.fraction h t)%float = true ∧ (Checks.fraction h t <=? 1)%float = true.
Proof.
  intros Hh Ht.
  do 8 (destruct t as [|t];
        [do 8 (destruct h as [|h]; [first [lia | by vm_compute]|]); lia|]).
  lia.
Qed.

Lemma checks_bound hs d cs :
  Checks.applicable hs d = Ok cs → length cs ≤ 7.
Proof.
  unfold Checks.applicable, Checks.special_checks, Checks.finger_checks,
    Checks.orientation_checks.
  intros H.
  assert (Hf : length (match sd_fingers d with
                       | Some m => (λ kv : Finger * list FingerState,
                                      bool_decide (fingers hs kv.1 ∈ kv.2)) <$> map_to_list m
                       | None => []
                       end) ≤ 5).
  { destruct (sd_fingers d) as [m|]; [|simpl; lia].
    rewrite length_fmap. apply finger_map_size. }
  destruct (sd_special d) as [tag|]; simpl in H.
  - destruct (Recognizer.special_check tag (raw_landmarks hs)) as [b|]; simpl in H; [|done].
    injection H as <-. rewrite !length_app.
    destruct (sd_orientation d); simpl; lia.
  - injection H as <-. rewrite !length_app.
    destruct (sd_orientation d); simpl; lia.
Qed.

(** The score computed by the matcher is the fraction of checks that pass. *)
Lemma score_is_fraction hs d :
  Recognizer._calculate_match_score hs d
  = (cs ← Checks.applicable hs d; Ok (Checks.fraction (Checks.hits cs) (length cs))).
Proof.
  unfold Recognizer._calculate_match_score, Checks.applicable, Checks.special_checks.
  set (fc := Checks.finger_checks hs d). set (oc := Checks.orientation_checks hs d).
  assert (Hfc : length fc ≤ 5).
  { subst fc. unfold Checks.finger_checks. destruct (sd_fingers d) as [m|]; [|simpl; lia].
    rewrite length_fmap. apply finger_map_size. }
  assert (H1 : match sd_fingers d with
               | Some m =>
                   foldl (λ acc '(finger, required_states),
                            Recognizer.count_check
                              (bool_decide (fingers hs finger ∈ required_states)) acc)
                         (0%float, 0) (map_to_list m)
               | None => (0%float, 0)
               end = (nat2f (Checks.hits fc), length fc)).
  { subst fc. unfold Checks.finger_checks. destruct (sd_fingers d) as [m|]; [|done].
    pose proof (finger_map_size m) as Hm.
    change 0%float with (nat2f 0).
    rewrite (tally_fold _ (λ kv : Finger * list FingerState,
                             bool_decide (fingers hs kv.1 ∈ kv.2)));
      [by rewrite length_fmap|by intros ? [? ?]|simpl; lia]. }
  rewrite H1. clear H1.
  assert (Hoc : length oc ≤ 1).
  { subst oc. unfold Checks.orientation_checks. destruct (sd_orientation d); simpl; lia. }
  assert (H2 : match sd_orientation d with
               | Some os =>
                   Recognizer.count_check (bool_decide (palm_orientation hs ∈ os))
                     (nat2f (Checks.hits fc), length fc)
               | None => (nat2f (Checks.hits fc), length fc)
               end = (nat2f (Checks.hits (fc ++ oc)), length (fc ++ oc))).
  { subst oc. unfold Checks.orientation_checks.
    pose proof (hits_le_length fc). rewrite hits_app, length_app.
    destruct (sd_orientation d) as [os|].
    - rewrite count_check_exact by lia. rewrite hits_cons. unfold Checks.hits at 3. simpl.
      f_equal; [f_equal|]; lia.
    - unfold Checks.hits at 2. simpl. by rewrite !Nat.add_0_r. }
  rewrite H2. clear H2.
  pose proof (hits_le_length (fc ++ oc)) as Hh. rewrite length_app in Hh.
  destruct (sd_special d) as [tag|]; cbv [mbind result_bind].
  - destruct (Recognizer.special_check tag (raw_landmarks hs)) as [b|]; [|done].
    rewrite count_check_exact by lia.
    assert (Hhits : Checks.hits (fc ++ oc ++ [b])
                    = Checks.hits (fc ++ oc) + (if b then 1 else 0)).
    { rewrite app_assoc, hits_app. f_equal. by destruct b. }
    assert (Hlen : length (fc ++ oc ++ [b]) = S (length (fc ++ oc))).
    { rewrite app_assoc, (length_app _ [b]). simpl. lia. }
    rewrite Hhits, Hlen. unfold Checks.fraction. by case_bool_decide.
  - rewrite app_nil_r. unfold Checks.fraction. by case_bool_decide.
Qed.

(** C6: for every hand state and definition, the score is the number of
    satisfied checks (one per finger named, one for the orientation, one for
    the special predicate, each either passing or not) over the number of
    checks; it is exactly 0 for a definition with no check; it always lies
    between 0 and 1. *)
Theorem match_score_fraction (hs : HandState) (d : SignDef) :
  Recognizer._calculate_match_score hs d
  = (cs ← Checks.applicable hs d; Ok (Checks.fraction (Checks.hits cs) (length cs)))
  ∧ (∀ cs, Checks.applicable hs d = Ok cs → Checks.hits cs ≤ length cs ∧ length cs ≤ 7)
  ∧ (Checks.applicable hs d = Ok [] → Recognizer._calculate_match_score hs d = Ok 0%float)
  ∧ (∀ s, Recognizer._calculate_match_score hs d = Ok s →
       (0 <=? s)%float = true ∧ (s <=? 1)%float = true).
Proof.
  split; [apply score_is_fraction|]. split; [|split].
  - intros cs Hcs. split; [apply hits_le_length|by eapply checks_bound].
  - intros Hcs. by rewrite score_is_fraction, Hcs.
  - intros s. rewrite score_is_fraction.
    destruct (Checks.applicable hs d) as [cs|] eqn:Hcs; simpl; [|done].
    intros [= <-]. apply fraction_unit_interval; [apply hits_le_length|by eapply checks_bound].
Qed.

(** ** The matcher: special tags without a branch *)

Lemma special_check_unhandled tag landmarks :
  tag ∉ handled_tags → Recognizer.special_check tag landmarks = Ok false.
Proof.
  intros Hn. unfold Recognizer.special_check.
  repeat (case_match; [exfalso; apply Hn;
                       match goal with H : String.eqb _ _ = true |- _ =>
                         apply String.eqb_eq in H; subst tag end;
                       unfold handled_tags; repeat constructor|]).
  done.
Qed.

Lemma fraction_below_one h t :
  h < t → t ≤ 7 → (Checks.fraction h t <? 1)%float = true.
Proof.
  intros Hh Ht.
  do 8 (destruct t as [|t];
        [do 8 (destruct h as [|h]; [first [lia | by vm_compute]|]); lia|]).
  lia.
Qed.

(** A definition whose special tag has no branch: the check is counted and
    fails, so the score stays below 1. *)
Lemma unhandled_special_score hs d tag :
  sd_special d = Some tag → tag ∉ handled_tags →
  ∃ cs, Checks.applicable hs d = Ok (cs ++ [false])
        ∧ Recognizer._calculate_match_score hs d
          = Ok (Checks.fraction (Checks.hits cs) (S (length cs)))
        ∧ (Checks.fraction (Checks.hits cs) (S (length cs)) <? 1)%float = true.
Proof.
  intros Hsp Hn.
  assert (Happ : Checks.applicable hs d
                 = Ok ((Checks.finger_checks hs d ++ Checks.orientation_checks hs d) ++ [false])).
  { unfold Checks.applicable, Checks.special_checks.
    rewrite Hsp, special_check_unhandled by done. simpl. by rewrite app_assoc. }
  eexists. split; [exact Happ|].
  pose proof (checks_bound _ _ _ Happ) as Hb. rewrite length_app in Hb. simpl in Hb.
  split.
  - rewrite score_is_fraction, Happ. simpl. f_equal. f_equal.
    + rewrite hits_app. unfold Checks.hits at 2. simpl. lia.
    + rewrite length_app. simpl. lia.
  - apply fraction_below_one; [|lia].
    pose proof (hits_le_length (Checks.finger_checks hs d ++ Checks.orientation_checks hs d)).
    lia.
Qed.

(** C9: the special-check dispatch has branches for four tags only.  A
    definition with any other tag has that check counted in the total and
    never passing, so its score is below 1 for every hand state; this is the
    case of the entries M, N, SIX and NO of the lexicon.  The keys "check"
    and "spread" of a definition do not enter the score. *)
Theorem unhandled_special_never_full (hs : HandState) (d : SignDef) :
  (∀ tag, sd_special d = Some tag → tag ∉ handled_tags →
     Recognizer.special_check tag (raw_landmarks hs) = Ok false
     ∧ ∃ cs, Checks.applicable hs d = Ok (cs ++ [false])
             ∧ Recognizer._calculate_match_score hs d
               = Ok (Checks.fraction (Checks.hits cs) (S (length cs)))
             ∧ (Checks.fraction (Checks.hits cs) (S (length cs)) <? 1)%float = true)
  ∧ (∀ name tag,
       ((name, tag) ∈ [("M", "THUMB_UNDER_RING"); ("N", "THUMB_UNDER_MIDDLE");
                       ("SIX", "THUMB_PINKY_TOUCH"); ("NO", "INDEX_MIDDLE_THUMB_SNAP")]) →
     (tag ∉ handled_tags)
     ∧ ∃ d' s, lookup_sign name ASLLexicon.get_definitions = Some d'
               ∧ sd_special d' = Some tag
               ∧ Recognizer._calculate_match_score hs d' = Ok s
               ∧ (s <? 1)%float = true)
  ∧ (∀ ck sp, Recognizer._calculate_match_score hs (with_check_spread d ck sp)
              = Recognizer._calculate_match_score hs d).
Proof.
  split; [|split].
  - intros tag Hsp Hn. split; [by apply special_check_unhandled|].
    by apply unhandled_special_score with tag.
  - intros name tag Hin.
    assert (Hn : tag ∉ handled_tags).
    { unfold handled_tags.
      repeat (apply elem_of_cons in Hin as [[= -> ->]|Hin]; [compute_done|]).
      by apply elem_of_nil in Hin. }
    split; [done|].
    assert (∃ d', lookup_sign name ASLLexicon.get_definitions = Some d'
                  ∧ sd_special d' = Some tag) as (d' & Hl & Hsp).
    { repeat (apply elem_of_cons in Hin as [[= -> ->]|Hin];
              [eexists; split; [vm_compute; reflexivity|reflexivity]|]).
      by apply elem_of_nil in Hin. }
    destruct (unhandled_special_score hs d' tag Hsp Hn) as (cs & _ & Hs & Hlt).
    by exists d', (Checks.fraction (Checks.hits cs) (S (length cs))).
  - intros ck sp. reflexivity.
Qed.

(** ** The matcher: best entry of the lexicon *)

(** The rows a hand state built by [process] offers to the special checks
    hold numbers. *)
Lemma extract_rows np coords ts hs :
  Extractor.extract np coords ts = Ok hs →
  raw_landmarks hs = coords
  ∧ ∀ i, i ∈ [4; 5; 8; 12] → ∃ v, Extractor.vec_at coords i = Ok v.
Proof.
  unfold Extractor.extract. intros H.
  repeat match type of H with
  | context [Extractor.vec_at coords ?i] =>
      destruct (Extractor.vec_at coords i) as [?|?] eqn:?;
      cbv beta iota delta [mbind result_bind] in H; [|discriminate H]
  | context [Extractor.row_at coords ?i] =>
      destruct (Extractor.row_at coords i) as [?|?] eqn:?;
      cbv beta iota delta [mbind result_bind] in H; [|discriminate H]
  end.
  injection H as <-. split; [done|].
  intros i Hi. repeat (apply elem_of_cons in Hi as [->|Hi]; [by eexists|]).
  by apply elem_of_nil in Hi.
Qed.

Lemma process_rows np t ts raw ex hs ex' :
  Extractor.process np t ts raw ex = (Ok (Some hs), ex') →
  ∀ i, i ∈ [4; 5; 8; 12] → ∃ v, Extractor.vec_at (raw_landmarks hs) i = Ok v.
Proof.
  unfold Extractor.process. case_bool_decide; [done|].
  destruct (Extractor.smooth_landmarks t raw ex) as [[coords|e] ex1]; [|done].
  destruct (Extractor.extract np coords ts) as [hs'|e] eqn:Hex; simpl; [|done].
  intros [= <- <-]. by destruct (extract_rows _ _ _ _ Hex) as [-> ?].
Qed.

Lemma special_check_total tag landmarks :
  (∀ i, i ∈ [4; 5; 8; 12] → ∃ v, Extractor.vec_at landmarks i = Ok v) →
  ∃ b, Recognizer.special_check tag landmarks = Ok b.
Proof.
  intros H.
  destruct (H 4) as [v4 H4]; [repeat constructor|].
  destruct (H 5) as [v5 H5]; [repeat constructor|].
  destruct (H 8) as [v8 H8]; [repeat constructor|].
  destruct (H 12) as [v12 H12]; [repeat constructor|].
  assert (Hc : ∀ i v, Extractor.vec_at landmarks i = Ok v →
                      ∃ a, Recognizer.coord_at landmarks i 0 = Ok a).
  { intros i v. unfold Extractor.vec_at, Recognizer.coord_at.
    destruct (Extractor.row_at landmarks i) as [[[x y] z]|]; simpl; [|done].
    destruct x; simpl; [done|]. by eexists. }
  destruct (Hc _ _ H4) as [a4 Ha4]. destruct (Hc _ _ H5) as [a5 Ha5].
  unfold Recognizer.special_check, Recognizer.THUMB_TIP, Recognizer.INDEX_TIP,
    Recognizer.MIDDLE_TIP, Recognizer.INDEX_MCP.
  rewrite H4, H8, H12, Ha4, Ha5. simpl.
  repeat case_match; by eexists.
Qed.

(** For a hand state built by [process] the score of every definition is
    defined, and is a number between 0 and 1. *)
Lemma score_total np t ts raw ex hs ex' d :
  Extractor.process np t ts raw ex = (Ok (Some hs), ex') →
  ∃ s, Recognizer._calculate_match_score hs d = Ok s
       ∧ (0 <=? s)%float = true ∧ (s <=? 1)%float = true.
Proof.
  intros Hp. pose proof (process_rows _ _ _ _ _ _ _ Hp) as Hrows.
  assert (∃ cs, Checks.applicable hs d = Ok cs) as [cs Hcs].
  { unfold Checks.applicable, Checks.special_checks.
    destruct (sd_special d) as [tag|]; simpl; [|by eexists].
    destruct (special_check_total tag _ Hrows) as [b ->]. simpl. by eexists. }
  exists (Checks.fraction (Checks.hits cs) (length cs)).
  rewrite score_is_fraction, Hcs. split; [done|].
  apply fraction_unit_interval; [apply hits_le_length|by eapply checks_bound].
Qed.

Section BestLoop.
Variable hs : HandState.

(** The outcome of the loop of [predict] from a running best [acc]: either
    no entry beats it, or the winner is the first entry whose score is the
    largest, all earlier entries and [acc] being strictly below. *)
Lemma best_loop_spec lex :
  (∀ e, e ∈ lex → ∃ s, scored hs e s ∧ not_nan s) →
  ∀ acc, not_nan acc.2 →
  ∃ m c, Recognizer.best_loop hs lex acc = Ok (m, c)
    ∧ (acc.2 <=? c)%float = true
    ∧ (∀ e s, e ∈ lex → scored hs e s → (s <=? c)%float = true)
    ∧ (((m, c) = acc ∧ ∀ e s, e ∈ lex → scored hs e s → (acc.2 <? s)%float = false)
       ∨ (∃ pre name d post,
            lex = pre ++ (name, d) :: post ∧ m = Some name ∧ scored hs (name, d) c
            ∧ (acc.2 <? c)%float = true
            ∧ ∀ e s, e ∈ pre → scored hs e s → (s <? c)%float = true)).
Proof.
  induction lex as [|e lex IH]; intros Hall [m0 c0] Hacc; simpl in *.
  - exists m0, c0. split; [done|]. split; [by apply FloatOrder.leb_refl|].
    split; [by intros ? ? ?%elem_of_nil|]. left. split; [done|].
    by intros ? ? ?%elem_of_nil.
  - destruct (Hall e) as (s & Hs & Hnan); [by left|].
    assert (Hall' : ∀ e', e' ∈ lex → ∃ s', scored hs e' s' ∧ not_nan s').
    { intros e' He'. apply Hall. by right. }
    unfold Recognizer.best_step. unfold scored in Hs. rewrite Hs. simpl.
    destruct (c0 <? s)%float eqn:Hlt; simpl.
    + destruct (IH Hall' (Some e.1, s) Hnan) as (m & c & Hloop & Hle & Hmax & Hcase).
      simpl in *. exists m, c. split; [done|].
      assert (Hc0 : (c0 <? c)%float = true) by (by apply FloatOrder.ltb_leb_trans with s).
      split; [by apply FloatOrder.ltb_leb|]. split.
      { intros e' s' He' Hs'. apply elem_of_cons in He' as [->|He']; [|by eapply Hmax].
        unfold scored in Hs'. rewrite Hs in Hs'. by injection Hs' as <-. }
      right. destruct Hcase as [[[= -> ->] Hnone]|(pre & name & d & post & -> & -> & Hsc & Hlt' & Hpre)].
      * exists [], e.1, e.2, lex. destruct e as [name d]. simpl. split_and!; try done.
        by intros ? ? ?%elem_of_nil.
      * exists (e :: pre), name, d, post. split_and!; try done.
        intros e' s' He' Hs'. apply elem_of_cons in He' as [->|He']; [|by eapply Hpre].
        unfold scored in Hs'. rewrite Hs in Hs'. by injection Hs' as <-.
    + destruct (IH Hall' (m0, c0) Hacc) as (m & c & Hloop & Hle & Hmax & Hcase).
      simpl in *. exists m, c. split; [done|]. split; [done|].
      assert (Hsc0 : (s <=? c0)%float = true) by (by apply FloatOrder.ltb_false_leb).
      split.
      { intros e' s' He' Hs'. apply elem_of_cons in He' as [->|He']; [|by eapply Hmax].
        unfold scored in Hs'. rewrite Hs in Hs'. injection Hs' as <-.
        by apply FloatOrder.leb_trans with c0. }
      destruct Hcase as [[[= -> ->] Hnone]|(pre & name & d & post & -> & -> & Hsc & Hlt' & Hpre)].
      * left. split; [done|]. intros e' s' He' Hs'.
        apply elem_of_cons in He' as [->|He']; [|by eapply Hnone].
        unfold scored in Hs'. rewrite Hs in Hs'. by injection Hs' as <-.
      * right. exists (e :: pre), name, d, post. split_and!; try done.
        intros e' s' He' Hs'. apply elem_of_cons in He' as [->|He']; [|by eapply Hpre].
        unfold scored in Hs'. rewrite Hs in Hs'. injection Hs' as <-.
        by apply FloatOrder.leb_ltb_trans with c0.
Qed.

End BestLoop.

(** C5: once the extractor has produced a hand state, [predict] scores every
    entry of the lexicon; the confidence it reports is the largest score (0
    when no score is positive); the candidate label is the first entry, in
    the order of the lexicon, that reaches this largest score, every earlier
    entry scoring strictly less; the label is returned exactly when the
    confidence is at least 0.75, and otherwise [None] is returned with the
    same confidence. *)
Theorem predict_first_best (np : Libm) (t ts : float) (raw : list landmark)
    (r : ASLRecognizer) (hs : HandState) (ex' : HandFeatureExtractor) :
  Extractor.process np t ts raw (extractor r) = (Ok (Some hs), ex') →
  ∃ best_match best,
    Recognizer.best_loop hs (lexicon r) (None, 0%float) = Ok (best_match, best)
    ∧ (∀ e, e ∈ lexicon r →
         ∃ s, Recognizer._calculate_match_score hs e.2 = Ok s ∧ (s <=? best)%float = true)
    ∧ ((best_match = None ∧ best = 0%float
        ∧ ∀ e s, e ∈ lexicon r → Recognizer._calculate_match_score hs e.2 = Ok s →
                 (0 <? s)%float = false)
       ∨ (∃ pre name d post,
            lexicon r = pre ++ (name, d) :: post
            ∧ best_match = Some name
            ∧ Recognizer._calculate_match_score hs d = Ok best
            ∧ (0 <? best)%float = true
            ∧ ∀ e s, e ∈ pre → Recognizer._calculate_match_score hs e.2 = Ok s →
                     (s <? best)%float = true))
    ∧ Recognizer.predict np t ts raw r
      = (Ok (if (Config.CONFIDENCE_THRESHOLD <=? best)%float then best_match else None, best),
         Recognizer.set_extractor r ex').
Proof.
  intros Hp.
  assert (Hall : ∀ e, e ∈ lexicon r → ∃ s, scored hs e s ∧ not_nan s).
  { intros e _. destruct (score_total _ _ _ _ _ _ _ e.2 Hp) as (s & Hs & H0 & _).
    exists s. split; [done|]. by destruct (FloatOrder.leb_not_nan _ _ H0). }
  destruct (best_loop_spec hs (lexicon r) Hall (None, 0%float)) as (m & c & Hloop & _ & Hmax & Hcase);
    [reflexivity|].
  exists m, c. split; [done|]. split; [|split].
  - intros e He. destruct (Hall e He) as (s & Hs & _). exists s. split; [done|by eapply Hmax].
  - destruct Hcase as [[[= -> ->] Hnone]|Hwin]; [left|right; exact Hwin]. done.
  - unfold Recognizer.predict, Recognizer.classify. rewrite Hp, Hloop. simpl.
    by destruct (Config.CONFIDENCE_THRESHOLD <=? c)%float.
Qed.

Lemma process_accepts np t ts raw ex coords ex' hs :
  21 ≤ length raw →
  Extractor.smooth_landmarks t raw ex = (Ok coords, ex') →
  Extractor.extract np coords ts = Ok hs →
  Extractor.process np t ts raw ex = (Ok (Some hs), ex').
Proof.
  intros Hlen Hs He. unfold Extractor.process.
  rewrite bool_decide_eq_false_2 by lia. by rewrite Hs, He.
Qed.

Lemma open_hand_accepted np :
  ∃ hs ex', Extractor.process np 1 1 Examples.open_hand Extractor.init = (Ok (Some hs), ex').
Proof.
  set (out := Extractor.smooth_landmarks 1 Examples.open_hand Extractor.init).
  assert (Hout : out = (out.1, out.2)) by (by destruct out).
  let v := eval vm_compute in out.1 in
    assert (Hres : out.1 = v) by (vm_compute; reflexivity).
  rewrite Hres in Hout.
  eexists _, out.2. eapply process_accepts; [vm_compute; lia|exact Hout|].
  reflexivity.
Qed.

Lemma predict_first_best_witness :
  length Examples.open_hand = 21
  ∧ ∀ np, ∃ hs ex' best_match best,
      Extractor.process np 1 1 Examples.open_hand (extractor Recognizer.init)
      = (Ok (Some hs), ex')
      ∧ Recognizer.predict np 1 1 Examples.open_hand Recognizer.init
        = (Ok (if (Config.CONFIDENCE_THRESHOLD <=? best)%float then best_match else None,
               best),
           Recognizer.set_extractor Recognizer.init ex').
Proof.
  split; [reflexivity|]. intros np.
  destruct (open_hand_accepted np) as (hs & ex' & Hp).
  destruct (predict_first_best np 1 1 Examples.open_hand Recognizer.init hs ex' Hp)
    as (m & c & _ & _ & _ & Hpred).
  exact (ex_intro _ hs (ex_intro _ ex' (ex_intro _ m (ex_intro _ c (conj Hp Hpred))))).
Defined.

(** * Further properties of the code *)

(** ** Smoothing: first observation, replayed clock, channel independence *)

Lemma set_filter_set_filter ex idx f g :
  Extractor.set_filter (Extractor.set_filter ex idx f) idx g = Extractor.set_filter ex idx g.
Proof. unfold Extractor.set_filter. simpl. by rewrite insert_insert_eq. Qed.

Lemma set_filter_id ex idx f :
  filters ex !! idx = Some f → Extractor.set_filter ex idx f = ex.
Proof. intros H. destruct ex. unfold Extractor.set_filter. simpl in *. by rewrite insert_id. Qed.

Lemma filter_channel_fresh idx t v ex :
  filters ex !! idx = None → (t - t <=? 0)%float = true →
  Extractor.filter_channel idx t v ex
  = (Ok v, Extractor.set_filter ex idx (OneEuro.init t v (fc_min ex) (ex_beta ex))).
Proof.
  intros Hnone Ht. unfold Extractor.filter_channel, st_bind, Extractor._get_filter.
  rewrite Hnone. unfold OneEuro.call. cbn [t_prev OneEuro.init]. rewrite Ht.
  by rewrite set_filter_set_filter.
Qed.

Lemma filter_channel_stale idx t v ex f :
  filters ex !! idx = Some f → (t - t_prev f <=? 0)%float = true →
  Extractor.filter_channel idx t v ex = (Ok v, ex).
Proof.
  intros Hf Ht. unfold Extractor.filter_channel, st_bind, Extractor._get_filter.
  rewrite Hf. unfold OneEuro.call. rewrite Ht. by rewrite set_filter_id.
Qed.

(** One step of the smoothing loop, when the three channels return [sx],
    [sy], [sz] and leave the extractor [ex3]. *)
Lemma smooth_loop_step t i x y z rest ex sm sx sy sz ex1 ex2 ex3 :
  Extractor.filter_channel (i * 3 + 0) t (dict_get x PyNone) ex = (Ok sx, ex1) →
  Extractor.filter_channel (i * 3 + 1) t (dict_get y PyNone) ex1 = (Ok sy, ex2) →
  Extractor.filter_channel (i * 3 + 2) t (dict_get z (PyFloat 0)) ex2 = (Ok sz, ex3) →
  Extractor.smooth_loop t i (LmDict x y z :: rest) (ex, sm)
  = Extractor.smooth_loop t (S i) rest (ex3, sm ++ [(sx, sy, sz)]).
Proof.
  intros H1 H2 H3. cbn [Extractor.smooth_loop]. unfold st_bind at 1.
  cbn [Extractor.read_landmark]. unfold st_bind at 1, Extractor.on_extractor at 1.
  rewrite H1. unfold st_bind at 1, Extractor.on_extractor at 1. rewrite H2.
  unfold st_bind at 1, Extractor.on_extractor at 1. rewrite H3.
  unfold st_bind at 1, Extractor.append_row. done.
Qed.

Lemma set_filter_lookup_ne ex idx f k :
  k ≠ idx → filters (Extractor.set_filter ex idx f) !! k = filters ex !! k.
Proof. intros H. unfold Extractor.set_filter. simpl. by rewrite lookup_insert_ne. Qed.

Lemma set_filter_lookup ex idx f :
  filters (Extractor.set_filter ex idx f) !! idx = Some f.
Proof. unfold Extractor.set_filter. simpl. by rewrite lookup_insert_eq. Qed.

Lemma smooth_loop_fresh t lms :
  (t - t <=? 0)%float = true →
  ∀ i ex sm,
    Forall (λ lm, is_dict lm = true) lms →
    (∀ k, i * 3 ≤ k < (i + length lms) * 3 → filters ex !! k = None) →
    ∃ rows ex',
      Extractor.smooth_loop t i lms (ex, sm) = (Ok (), (ex', sm ++ rows))
      ∧ Forall2 (λ lm r, Extractor.read_landmark lm = Ok r) lms rows
      ∧ (∀ j r, rows !! j = Some r →
           filters ex' !! ((i + j) * 3 + 0) = Some (fresh_filter ex t r.1.1)
           ∧ filters ex' !! ((i + j) * 3 + 1) = Some (fresh_filter ex t r.1.2)
           ∧ filters ex' !! ((i + j) * 3 + 2) = Some (fresh_filter ex t r.2))
      ∧ (∀ k, k < i * 3 ∨ (i + length lms) * 3 ≤ k → filters ex' !! k = filters ex !! k)
      ∧ fc_min ex' = fc_min ex ∧ ex_beta ex' = ex_beta ex.
Proof.
  intros Ht. induction lms as [|lm rest IH]; intros i ex sm Hd Hnone.
  - exists [], ex. rewrite app_nil_r. split; [done|]. split; [constructor|].
    split; [by intros ? ? ?|]. done.
  - apply Forall_cons in Hd as [Hlm Hd]. destruct lm as [x y z|]; [|done].
    cbn [length] in Hnone.
    set (f0 := fresh_filter ex t (dict_get x PyNone)).
    set (f1 := fresh_filter ex t (dict_get y PyNone)).
    set (f2 := fresh_filter ex t (dict_get z (PyFloat 0))).
    set (ex1 := Extractor.set_filter ex (i * 3 + 0) f0).
    set (ex2 := Extractor.set_filter ex1 (i * 3 + 1) f1).
    set (ex3 := Extractor.set_filter ex2 (i * 3 + 2) f2).
    assert (H1 : Extractor.filter_channel (i * 3 + 0) t (dict_get x PyNone) ex
                 = (Ok (dict_get x PyNone), ex1)).
    { apply filter_channel_fresh; [apply Hnone; lia|done]. }
    assert (H2 : Extractor.filter_channel (i * 3 + 1) t (dict_get y PyNone) ex1
                 = (Ok (dict_get y PyNone), ex2)).
    { apply filter_channel_fresh; [|done]. subst ex1.
      rewrite set_filter_lookup_ne by lia. apply Hnone; lia. }
    assert (H3 : Extractor.filter_channel (i * 3 + 2) t (dict_get z (PyFloat 0)) ex2
                 = (Ok (dict_get z (PyFloat 0)), ex3)).
    { apply filter_channel_fresh; [|done]. subst ex2 ex1.
      rewrite !set_filter_lookup_ne by lia. apply Hnone; lia. }
    rewrite (smooth_loop_step _ _ _ _ _ _ _ _ _ _ _ _ _ _ H1 H2 H3).
    destruct (IH (S i) ex3 (sm ++ [(dict_get x PyNone, dict_get y PyNone, dict_get z (PyFloat 0))]) Hd)
      as (rows & ex' & Hloop & Hrows & Hnew & Hold & Hfc & Hbeta).
    { intros k Hk. subst ex3 ex2 ex1. rewrite !set_filter_lookup_ne by lia.
      apply Hnone. lia. }
    exists ((dict_get x PyNone, dict_get y PyNone, dict_get z (PyFloat 0)) :: rows), ex'.
    split; [by rewrite Hloop, <- app_assoc|]. split; [by constructor|].
    split; [|split; [|done]].
    + intros [|j] r Hr.
      * injection Hr as <-. replace (i + 0) with i by lia. rewrite !Hold by lia.
        subst ex3 ex2 ex1. cbn [fst snd].
        split_and!; rewrite ?set_filter_lookup_ne by lia; apply set_filter_lookup.
      * simpl in Hr. destruct (Hnew j r Hr) as (Ha & Hb & Hc).
        replace (i + S j) with (S i + j) by lia. done.
    + intros k Hk. rewrite Hold by (cbn [length] in Hk; lia).
      subst ex3 ex2 ex1. rewrite !set_filter_lookup_ne; [done|cbn [length] in Hk; lia..].
Qed.

Lemma smooth_loop_stale t lms :
  ∀ i ex sm,
    Forall (λ lm, is_dict lm = true) lms →
    (∀ k, i * 3 ≤ k < (i + length lms) * 3 →
          ∃ f, filters ex !! k = Some f ∧ (t - t_prev f <=? 0)%float = true) →
    ∃ rows,
      Extractor.smooth_loop t i lms (ex, sm) = (Ok (), (ex, sm ++ rows))
      ∧ Forall2 (λ lm r, Extractor.read_landmark lm = Ok r) lms rows.
Proof.
  induction lms as [|lm rest IH]; intros i ex sm Hd Hst.
  - exists []. rewrite app_nil_r. split; [done|constructor].
  - apply Forall_cons in Hd as [Hlm Hd]. destruct lm as [x y z|]; [|done].
    cbn [length] in Hst.
    destruct (Hst (i * 3 + 0)) as (f0 & Hf0 & Ht0); [lia|].
    destruct (Hst (i * 3 + 1)) as (f1 & Hf1 & Ht1); [lia|].
    destruct (Hst (i * 3 + 2)) as (f2 & Hf2 & Ht2); [lia|].
    rewrite (smooth_loop_step t i x y z rest ex sm _ _ _ ex ex ex
               (filter_channel_stale _ _ _ _ _ Hf0 Ht0)
               (filter_channel_stale _ _ _ _ _ Hf1 Ht1)
               (filter_channel_stale _ _ _ _ _ Hf2 Ht2)).
    destruct (IH (S i) ex (sm ++ [(dict_get x PyNone, dict_get y PyNone, dict_get z (PyFloat 0))]) Hd)
      as (rows & Hloop & Hrows).
    { intros k Hk. apply Hst. lia. }
    exists ((dict_get x PyNone, dict_get y PyNone, dict_get z (PyFloat 0)) :: rows).
    split; [by rewrite Hloop, <- app_assoc|by constructor].
Qed.

(** X1: the first frame is passed through unfiltered.  When none of the
    channels of a frame of dict landmarks has a filter yet and the clock
    reading [t] is an ordinary number ([t - t <= 0]), [smooth_landmarks]
    raises nothing and returns the coordinates exactly as read (a missing x
    or y as [None], a missing z as 0); it creates one filter per channel,
    holding the clock reading and the value read, and touches no other
    channel. *)
Theorem first_frame_passes_through (t : float) (lms : list landmark)
    (ex : HandFeatureExtractor) :
  (t - t <=? 0)%float = true →
  Forall (λ lm, is_dict lm = true) lms →
  (∀ k, k < length lms * 3 → filters ex !! k = None) →
  ∃ rows ex',
    Extractor.smooth_landmarks t lms ex = (Ok rows, ex')
    ∧ Forall2 (λ lm r, Extractor.read_landmark lm = Ok r) lms rows
    ∧ (∀ j r, rows !! j = Some r →
         filters ex' !! (j * 3 + 0) = Some (fresh_filter ex t r.1.1)
         ∧ filters ex' !! (j * 3 + 1) = Some (fresh_filter ex t r.1.2)
         ∧ filters ex' !! (j * 3 + 2) = Some (fresh_filter ex t r.2))
    ∧ (∀ k, length lms * 3 ≤ k → filters ex' !! k = filters ex !! k).
Proof.
  intros Ht Hd Hnone.
  destruct (smooth_loop_fresh t lms Ht 0 ex [] Hd) as (rows & ex' & Hloop & Hrows & Hnew & Hold & _).
  { intros k Hk. apply Hnone. lia. }
  exists rows, ex'. unfold Extractor.smooth_landmarks. rewrite Hloop. simpl.
  split; [done|]. split; [done|]. split.
  - intros j r Hr. apply (Hnew j r Hr).
  - intros k Hk. apply Hold. right. simpl. lia.
Qed.

Lemma first_frame_passes_through_witness :
  (1 - 1 <=? 0)%float = true
  ∧ ∃ rows ex',
      Extractor.smooth_landmarks 1 Examples.open_hand Extractor.init = (Ok rows, ex')
      ∧ Forall2 (λ lm r, Extractor.read_landmark lm = Ok r) Examples.open_hand rows
      ∧ (∀ j r, rows !! j = Some r →
           filters ex' !! (j * 3 + 0) = Some (fresh_filter Extractor.init 1 r.1.1)
           ∧ filters ex' !! (j * 3 + 1) = Some (fresh_filter Extractor.init 1 r.1.2)
           ∧ filters ex' !! (j * 3 + 2) = Some (fresh_filter Extractor.init 1 r.2))
      ∧ (∀ k, length Examples.open_hand * 3 ≤ k →
              filters ex' !! k = filters Extractor.init !! k).
Proof.
  split; [reflexivity|].
  apply (first_frame_passes_through 1 Examples.open_hand Extractor.init).
  - reflexivity.
  - repeat constructor.
  - intros k _. apply lookup_empty.
Defined.

(** X2: replaying a clock reading.  When every channel of a frame of dict
    landmarks already has a filter whose last reading is not older than [t]
    ([t - t_prev <= 0]), [smooth_landmarks] returns the coordinates exactly
    as read and leaves the extractor, with all its filters, unchanged. *)
Theorem stale_clock_leaves_filters (t : float) (lms : list landmark)
    (ex : HandFeatureExtractor) :
  Forall (λ lm, is_dict lm = true) lms →
  (∀ k, k < length lms * 3 →
        ∃ f, filters ex !! k = Some f ∧ (t - t_prev f <=? 0)%float = true) →
  ∃ rows,
    Extractor.smooth_landmarks t lms ex = (Ok rows, ex)
    ∧ Forall2 (λ lm r, Extractor.read_landmark lm = Ok r) lms rows.
Proof.
  intros Hd Hst.
  destruct (smooth_loop_stale t lms 0 ex [] Hd) as (rows & Hloop & Hrows).
  { intros k Hk. apply Hst. lia. }
  exists rows. unfold Extractor.smooth_landmarks. by rewrite Hloop.
Qed.

Lemma stale_clock_leaves_filters_witness :
  Forall (λ lm, is_dict lm = true) Examples.open_hand
  ∧ ∃ rows,
      Extractor.smooth_landmarks 1 Examples.open_hand Examples.after_first_frame
      = (Ok rows, Examples.after_first_frame)
      ∧ Forall2 (λ lm r, Extractor.read_landmark lm = Ok r) Examples.open_hand rows.
Proof.
  assert (Hd : Forall (λ lm, is_dict lm = true) Examples.open_hand) by repeat constructor.
  split; [exact Hd|].
  apply (stale_clock_leaves_filters 1 Examples.open_hand Examples.after_first_frame Hd).
  intros k Hk.
  assert (Hall : Forall (λ k, match filters Examples.after_first_frame !! k with
                              | Some f => (1 - t_prev f <=? 0)%float
                              | None => false
                              end = true) (seq 0 63)).
  { apply (bool_decide_eq_true_1 _). vm_compute. reflexivity. }
  rewrite Forall_forall in Hall. specialize (Hall k).
  destruct (filters Examples.after_first_frame !! k) as [f|].
  - exists f. split; [done|]. apply Hall. apply elem_of_seq. split; [lia|exact Hk].
  - exfalso. assert (false = true); [|done]. apply Hall. apply elem_of_seq. split; [lia|exact Hk].
Defined.

(** X3: a channel that stored [None] is stuck.  When the filter of a channel
    holds [None] as its previous value (the coordinate was missing when the
    channel was first seen), every later call for that channel with a
    positive elapsed time raises, whatever the new value is, and the
    extractor stays as it was; the stored [None] is therefore never
    replaced. *)
Theorem none_previous_value_always_raises (idx : nat) (t : float) (v : pyval)
    (ex : HandFeatureExtractor) (f : OneEuroFilter) :
  filters ex !! idx = Some f →
  x_prev f = PyNone →
  (t - t_prev f <=? 0)%float = false →
  ∃ e, Extractor.filter_channel idx t v ex = (Raise e, ex).
Proof.
  intros Hf Hx Ht. unfold Extractor.filter_channel, st_bind, Extractor._get_filter.
  rewrite Hf. unfold OneEuro.call. rewrite Ht, Hx.
  destruct (OneEuro.smoothing_factor _ _) as [a|e]; simpl; [|by eexists].
  unfold py_sub. destruct v; simpl; by eexists.
Qed.

Lemma none_previous_value_always_raises_witness :
  filters poisoned_extractor !! 3 = Some (fresh_filter Extractor.init 1 PyNone)
  ∧ ∃ e, Extractor.filter_channel 3 2 (PyFloat 0.40625) poisoned_extractor
         = (Raise e, poisoned_extractor).
Proof.
  assert (Hf : filters poisoned_extractor !! 3 = Some (fresh_filter Extractor.init 1 PyNone))
    by (vm_compute; reflexivity).
  split; [exact Hf|].
  apply (none_previous_value_always_raises 3 2 (PyFloat 0.40625) poisoned_extractor _ Hf);
    reflexivity.
Defined.

(** X4: channels are independent.  Filtering channel [idx] never changes,
    creates or removes the filter of any other channel, never removes the
    filter of [idx] itself, and keeps the extractor's parameters. *)
Theorem filter_channel_only_touches_its_channel (idx : nat) (t : float) (v : pyval)
    (ex : HandFeatureExtractor) :
  let ex' := (Extractor.filter_channel idx t v ex).2 in
  (∀ k, k ≠ idx → filters ex' !! k = filters ex !! k)
  ∧ is_Some (filters ex' !! idx)
  ∧ fc_min ex' = fc_min ex ∧ ex_beta ex' = ex_beta ex.
Proof.
  unfold Extractor.filter_channel, st_bind, Extractor._get_filter.
  destruct (filters ex !! idx) as [f|] eqn:Hf.
  - destruct (OneEuro.call f t v) as [[s f']|e]; simpl.
    + split; [intros k Hk; by rewrite lookup_insert_ne|].
      split; [by rewrite lookup_insert_eq|done].
    + split; [done|]. split; [by rewrite Hf|done].
  - destruct (OneEuro.call _ t v) as [[s f']|e]; simpl.
    + split; [intros k Hk; by rewrite !lookup_insert_ne|].
      split; [by rewrite lookup_insert_eq|done].
    + split; [intros k Hk; by rewrite lookup_insert_ne|].
      split; [by rewrite lookup_insert_eq|done].
Qed.

(** ** Frames of numbers are always classified *)

Lemma call_numeric f t b r :
  is_number (x_prev f) = true →
  OneEuro.call f t (PyFloat b) = r →
  match r with
  | Ok (s, f') => is_number s = true ∧ is_number (x_prev f') = true
  | Raise _ => True
  end.
Proof.
  intros Hx <-. unfold OneEuro.call.
  destruct (_ <=? _)%float; [done|].
  destruct (OneEuro.smoothing_factor _ _) as [a|]; simpl; [|done].
  destruct (x_prev f) as [|xp]; [done|]. simpl.
  destruct (py_div _ _) as [dx|]; simpl; [|done].
  by destruct (OneEuro.smoothing_factor _ _) as [a'|].
Qed.

Lemma numeric_filters_set ex idx f :
  numeric_filters ex → is_number (x_prev f) = true →
  numeric_filters (Extractor.set_filter ex idx f).
Proof.
  intros Hn Hf k g. unfold Extractor.set_filter. simpl.
  destruct (decide (k = idx)) as [->|Hk].
  - rewrite lookup_insert_eq. by intros [= <-].
  - rewrite lookup_insert_ne by done. apply Hn.
Qed.

Lemma filter_channel_numeric idx t b ex :
  numeric_filters ex →
  numeric_filters (Extractor.filter_channel idx t (PyFloat b) ex).2
  ∧ match (Extractor.filter_channel idx t (PyFloat b) ex).1 with
    | Ok s => is_number s = true
    | Raise _ => True
    end.
Proof.
  intros Hn. unfold Extractor.filter_channel, st_bind, Extractor._get_filter.
  destruct (filters ex !! idx) as [f|] eqn:Hf.
  - pose proof (call_numeric f t b _ (Hn _ _ Hf) eq_refl) as Hc.
    destruct (OneEuro.call f t (PyFloat b)) as [[s f']|e]; simpl; [|done].
    destruct Hc as [Hs Hf']. split; [by apply numeric_filters_set|done].
  - set (f := OneEuro.init t (PyFloat b) (fc_min ex) (ex_beta ex)).
    pose proof (call_numeric f t b _ eq_refl eq_refl) as Hc.
    assert (Hn1 : numeric_filters (Extractor.set_filter ex idx f))
      by (by apply numeric_filters_set).
    destruct (OneEuro.call f t (PyFloat b)) as [[s f']|e]; simpl; [|done].
    destruct Hc as [Hs Hf']. split; [by apply numeric_filters_set|done].
Qed.

Lemma numeric_landmark_inv lm :
  numeric_landmark lm = true →
  ∃ x y z a b c, lm = LmDict x y z
    ∧ dict_get x PyNone = PyFloat a ∧ dict_get y PyNone = PyFloat b
    ∧ dict_get z (PyFloat 0) = PyFloat c
    ∧ dict_get x (PyFloat 0) = PyFloat a ∧ dict_get y (PyFloat 0) = PyFloat b.
Proof.
  destruct lm as [[|[|a]] [|[|b]] z|]; try done. simpl.
  destruct (dict_get z (PyFloat 0)) as [|c] eqn:Hz; [done|]. intros _.
  by exists (Present (PyFloat a)), (Present (PyFloat b)), z, a, b, c.
Qed.

(** The smoothing loop on landmarks of numbers keeps the filters and the
    rows numeric, whether it raises or not, and appends at most one row per
    landmark (exactly one when it does not raise). *)
Lemma smooth_loop_numeric t lms :
  Forall (λ lm, numeric_landmark lm = true) lms →
  ∀ i ex sm res ex' sm',
    numeric_filters ex →
    Forall (λ r, numeric_row r = true) sm →
    Extractor.smooth_loop t i lms (ex, sm) = (res, (ex', sm')) →
    numeric_filters ex'
    ∧ Forall (λ r, numeric_row r = true) sm'
    ∧ match res with
      | Ok _ => length sm' = length sm + length lms
      | Raise _ => True
      end.
Proof.
  induction 1 as [|lm rest Hlm Hrest IH]; intros i ex sm res ex' sm' Hn Hsm Hout.
  - injection Hout as <- <- <-. split; [done|]. split; [done|simpl; lia].
  - destruct (numeric_landmark_inv lm Hlm) as (x & y & z & a & b & c & -> & Hx & Hy & Hz & _).
    cbn [Extractor.smooth_loop] in Hout. unfold st_bind at 1 in Hout.
    cbn [Extractor.read_landmark] in Hout. rewrite Hx, Hy, Hz in Hout.
    unfold st_bind at 1, Extractor.on_extractor at 1 in Hout.
    destruct (filter_channel_numeric (i * 3 + 0) t a ex Hn) as [Hn1 Hs1].
    destruct (Extractor.filter_channel (i * 3 + 0) t (PyFloat a) ex) as [[sx|e] ex1];
      simpl in Hn1, Hs1; [|by injection Hout as <- <- <-].
    unfold st_bind at 1, Extractor.on_extractor at 1 in Hout.
    destruct (filter_channel_numeric (i * 3 + 1) t b ex1 Hn1) as [Hn2 Hs2].
    destruct (Extractor.filter_channel (i * 3 + 1) t (PyFloat b) ex1) as [[sy|e] ex2];
      simpl in Hn2, Hs2; [|by injection Hout as <- <- <-].
    unfold st_bind at 1, Extractor.on_extractor at 1 in Hout.
    destruct (filter_channel_numeric (i * 3 + 2) t c ex2 Hn2) as [Hn3 Hs3].
    destruct (Extractor.filter_channel (i * 3 + 2) t (PyFloat c) ex2) as [[sz|e] ex3];
      simpl in Hn3, Hs3; [|by injection Hout as <- <- <-].
    unfold st_bind at 1, Extractor.append_row in Hout.
    assert (Hsm' : Forall (λ r, numeric_row r = true) (sm ++ [(sx, sy, sz)])).
    { apply Forall_app. split; [done|]. apply Forall_singleton.
      unfold numeric_row. simpl. by rewrite Hs1, Hs2, Hs3. }
    destruct (IH (S i) ex3 (sm ++ [(sx, sy, sz)]) res ex' sm' Hn3 Hsm' Hout) as (H1 & H2 & H3).
    split; [done|]. split; [done|].
    destruct res; [|done]. rewrite H3, length_app. simpl. lia.
Qed.

Lemma raw_loop_numeric lms :
  Forall (λ lm, numeric_landmark lm = true) lms →
  ∀ sm, Forall (λ r, numeric_row r = true) sm →
  ∃ rows, Extractor.raw_loop lms sm = Ok rows
          ∧ Forall (λ r, numeric_row r = true) rows
          ∧ length rows = length sm + length lms.
Proof.
  induction 1 as [|lm rest Hlm Hrest IH]; intros sm Hsm.
  - exists sm. simpl. split; [done|]. split; [done|lia].
  - destruct (numeric_landmark_inv lm Hlm) as (x & y & z & a & b & c & -> & _ & _ & Hz & Hx & Hy).
    simpl. rewrite Hx, Hy, Hz.
    destruct (IH (sm ++ [(PyFloat a, PyFloat b, PyFloat c)])) as (rows & Hr & Hnum & Hlen).
    { apply Forall_app. split; [done|]. by apply Forall_singleton. }
    exists rows. split; [done|]. split; [done|].
    rewrite Hlen, length_app. simpl. lia.
Qed.

Lemma smooth_landmarks_numeric t lms ex :
  Forall (λ lm, numeric_landmark lm = true) lms →
  numeric_filters ex →
  ∃ rows ex', Extractor.smooth_landmarks t lms ex = (Ok rows, ex')
    ∧ numeric_filters ex'
    ∧ Forall (λ r, numeric_row r = true) rows
    ∧ length lms ≤ length rows.
Proof.
  intros Hl Hn. unfold Extractor.smooth_landmarks.
  destruct (Extractor.smooth_loop t 0 lms (ex, [])) as [res [ex' sm]] eqn:Hout.
  destruct (smooth_loop_numeric t lms Hl 0 ex [] res ex' sm Hn (Forall_nil_2 _) Hout)
    as (H1 & H2 & H3).
  destruct res as [?|e]; simpl in *.
  - exists sm, ex'. split; [done|]. split; [done|]. split; [done|lia].
  - destruct (raw_loop_numeric lms Hl sm H2) as (rows & -> & Hnum & Hlen).
    exists rows, ex'. split; [done|]. split; [done|]. split; [done|lia].
Qed.

Lemma vec_at_numeric coords i :
  Forall (λ r, numeric_row r = true) coords → i < length coords →
  ∃ v, Extractor.vec_at coords i = Ok v.
Proof.
  intros Hn Hi. destruct (lookup_lt_is_Some_2 coords i Hi) as [[[x y] z] Hr].
  pose proof (Forall_lookup_1 _ _ _ _ Hn Hr) as Hrow.
  unfold numeric_row in Hrow. simpl in Hrow.
  destruct x as [|a], y as [|b], z as [|c]; try done.
  exists (a, b, c). unfold Extractor.vec_at, Extractor.row_at. by rewrite Hr.
Qed.

Lemma row_at_some coords i :
  i < length coords → ∃ r, Extractor.row_at coords i = Ok r.
Proof.
  intros Hi. destruct (lookup_lt_is_Some_2 coords i Hi) as [r Hr].
  exists r. unfold Extractor.row_at. by rewrite Hr.
Qed.

Lemma extract_numeric np coords ts :
  Forall (λ r, numeric_row r = true) coords → 21 ≤ length coords →
  ∃ hs, Extractor.extract np coords ts = Ok hs.
Proof.
  intros Hn Hlen. unfold Extractor.extract.
  repeat match goal with
  | |- context [Extractor.vec_at coords ?i] =>
      let v := fresh "v" in let Hv := fresh "Hv" in
      destruct (vec_at_numeric coords i Hn ltac:(lia)) as [v Hv]; rewrite Hv;
      cbv beta iota delta [mbind result_bind]
  | |- context [Extractor.row_at coords ?i] =>
      let v := fresh "r" in let Hv := fresh "Hr" in
      destruct (row_at_some coords i ltac:(lia)) as [v Hv]; rewrite Hv;
      cbv beta iota delta [mbind result_bind]
  end.
  by eexists.
Qed.

(** The loop of [predict] on a hand state built by [process]: it never
    raises; its confidence lies between 0 and 1; its candidate, if any, is
    the first entry reaching that confidence. *)
Lemma best_of_process np t ts raw ex hs ex' lex :
  Extractor.process np t ts raw ex = (Ok (Some hs), ex') →
  ∃ m c,
    Recognizer.best_loop hs lex (None, 0%float) = Ok (m, c)
    ∧ (0 <=? c)%float = true ∧ (c <=? 1)%float = true
    ∧ (m = None
       ∨ ∃ pre name d post,
           lex = pre ++ (name, d) :: post ∧ m = Some name ∧ scored hs (name, d) c
           ∧ ∀ e s, e ∈ pre → scored hs e s → (s <? c)%float = true).
Proof.
  intros Hp.
  assert (Hall : ∀ e, e ∈ lex → ∃ s, scored hs e s ∧ not_nan s).
  { intros e _. destruct (score_total _ _ _ _ _ _ _ e.2 Hp) as (s & Hs & H0 & _).
    exists s. split; [done|]. by destruct (FloatOrder.leb_not_nan _ _ H0). }
  destruct (best_loop_spec hs lex Hall (None, 0%float)) as (m & c & Hloop & H0 & _ & Hcase);
    [reflexivity|].
  exists m, c. split; [done|]. split; [done|]. simpl in H0.
  destruct Hcase as [[[= -> ->] _]|(pre & name & d & post & -> & -> & Hsc & _ & Hpre)].
  - split; [reflexivity|by left].
  - split.
    + destruct (score_total _ _ _ _ _ _ _ d Hp) as (s & Hs & _ & H1).
      unfold scored in Hsc. simpl in Hsc. rewrite Hs in Hsc. by injection Hsc as <-.
    + right. by exists pre, name, d, post.
Qed.

(** X5: a frame of numbers is always classified.  With at least 21 landmark
    dicts whose x and y are numbers and whose z is a number or missing, on an
    extractor whose filters all hold numbers (a fresh one in particular),
    [process] returns a hand state and [predict] returns a result without
    raising, whether smoothing succeeded or fell back to the raw rows; the
    filters hold numbers afterwards, so the same is true of the next frame. *)
Theorem numeric_frame_always_classified (np : Libm) (t ts : float) (raw : list landmark)
    (r : ASLRecognizer) :
  21 ≤ length raw →
  Forall (λ lm, numeric_landmark lm = true) raw →
  numeric_filters (extractor r) →
  ∃ hs label conf ex',
    Extractor.process np t ts raw (extractor r) = (Ok (Some hs), ex')
    ∧ Recognizer.predict np t ts raw r = (Ok (label, conf), Recognizer.set_extractor r ex')
    ∧ numeric_filters ex'.
Proof.
  intros Hlen Hraw Hn.
  destruct (smooth_landmarks_numeric t raw (extractor r) Hraw Hn)
    as (rows & ex' & Hs & Hn' & Hrows & Hl).
  destruct (extract_numeric np rows ts Hrows ltac:(lia)) as [hs Hex].
  pose proof (process_accepts np t ts raw (extractor r) rows ex' hs Hlen Hs Hex) as Hp.
  destruct (best_of_process _ _ _ _ _ _ _ (lexicon r) Hp) as (m & c & Hloop & _).
  exists hs, (if (Config.CONFIDENCE_THRESHOLD <=? c)%float then m else None), c, ex'.
  split; [done|]. split; [|done].
  unfold Recognizer.predict, Recognizer.classify. rewrite Hp, Hloop. simpl.
  by destruct (Config.CONFIDENCE_THRESHOLD <=? c)%float.
Qed.

Lemma numeric_frame_always_classified_witness :
  21 ≤ length Examples.open_hand
  ∧ ∀ np, ∃ hs label conf ex',
      Extractor.process np 1 1 Examples.open_hand (extractor Recognizer.init)
      = (Ok (Some hs), ex')
      ∧ Recognizer.predict np 1 1 Examples.open_hand Recognizer.init
        = (Ok (label, conf), Recognizer.set_extractor Recognizer.init ex')
      ∧ numeric_filters ex'.
Proof.
  split; [vm_compute; lia|]. intros np.
  apply (numeric_frame_always_classified np 1 1 Examples.open_hand Recognizer.init).
  - vm_compute; lia.
  - repeat constructor.
  - intros k f Hk. change (filters (extractor Recognizer.init)) with (∅ : gmap nat OneEuroFilter) in Hk.
    by rewrite lookup_empty in Hk.
Defined.

(** X6: range of the result of [predict].  Whenever [predict] returns, its
    confidence lies between 0 and 1; a label is returned only with a
    confidence of at least 0.75, and it is a key of the lexicon. *)
Theorem predict_result_range (np : Libm) (t ts : float) (raw : list landmark)
    (r : ASLRecognizer) :
  match (Recognizer.predict np t ts raw r).1 with
  | Ok (label, conf) =>
      (0 <=? conf)%float = true ∧ (conf <=? 1)%float = true
      ∧ ∀ l, label = Some l →
             (Config.CONFIDENCE_THRESHOLD <=? conf)%float = true ∧ l ∈ (lexicon r).*1
  | Raise _ => True
  end.
Proof.
  unfold Recognizer.predict.
  destruct (Extractor.process np t ts raw (extractor r)) as [[[hs|]|e] ex'] eqn:Hp; simpl;
    [|by split_and!|done].
  destruct (best_of_process _ _ _ _ _ _ _ (lexicon r) Hp) as (m & c & Hloop & H0 & H1 & Hm).
  unfold Recognizer.classify. rewrite Hloop. simpl.
  destruct (Config.CONFIDENCE_THRESHOLD <=? c)%float eqn:Hthr; simpl.
  - split; [done|]. split; [done|]. intros l ->. split; [done|].
    destruct Hm as [?|(pre & name & d & post & -> & [= ->] & _)]; [done|].
    rewrite fmap_app, fmap_cons. apply elem_of_app. right. by left.
  - by split_and!.
Qed.

(** ** Entries that repeat an earlier entry *)

Lemma same_checks_score hs d d' :
  same_checks d d' = true →
  Recognizer._calculate_match_score hs d = Recognizer._calculate_match_score hs d'.
Proof.
  unfold same_checks. intros H.
  apply andb_prop in H as [H Hs]. apply andb_prop in H as [Hf Ho].
  apply bool_decide_eq_true_1 in Hf, Ho, Hs.
  unfold Recognizer._calculate_match_score. by rewrite Hf, Ho, Hs.
Qed.

Lemma shadowed_earlier seen lex name :
  name ∈ shadowed seen lex →
  ∃ pre d post d0,
    lex = pre ++ (name, d) :: post
    ∧ d0 ∈ seen ++ pre.*2
    ∧ same_checks d d0 = true.
Proof.
  revert seen. induction lex as [|[n d] rest IH]; intros seen Hin; simpl in Hin.
  - by apply elem_of_nil in Hin.
  - apply elem_of_app in Hin as [Hin|Hin].
    + destruct (existsb (same_checks d) seen) eqn:Hex; [|by apply elem_of_nil in Hin].
      apply list_elem_of_singleton in Hin as ->.
      apply existsb_exists in Hex as (d0 & Hd0 & Hsame).
      exists [], d, rest, d0. split; [done|]. split; [|done].
      simpl. rewrite app_nil_r. by apply list_elem_of_In.
    + destruct (IH _ Hin) as (pre & d' & post & d0 & -> & Hd0 & Hsame).
      exists ((n, d) :: pre), d', post, d0. split; [done|]. split; [|done].
      simpl. by rewrite <- app_assoc in Hd0.
Qed.

Lemma key_in_split (p q : list (string * SignDef)) n d : n ∈ (p ++ (n, d) :: q).*1.
Proof. rewrite fmap_app, fmap_cons. apply elem_of_app. right. by left. Qed.

Lemma split_at_key_unique (l : list (string * SignDef)) p1 p2 n d1 d2 q1 q2 :
  NoDup l.*1 →
  l = p1 ++ (n, d1) :: q1 →
  l = p2 ++ (n, d2) :: q2 →
  p1 = p2 ∧ d1 = d2.
Proof.
  revert l p2. induction p1 as [|x p1 IH]; intros l p2 Hnd H1 H2; subst l.
  - destruct p2 as [|y p2]; simpl in *.
    + by injection H2 as <- _.
    + exfalso. injection H2 as _ H2. apply NoDup_cons in Hnd as [Hn _].
      apply Hn. rewrite H2. apply key_in_split.
  - destruct p2 as [|y p2]; simpl in *.
    + exfalso. injection H2 as Hx H2. subst x. simpl in Hnd.
      apply NoDup_cons in Hnd as [Hn _].
      apply Hn. apply key_in_split.
    + injection H2 as <- H2. apply NoDup_cons in Hnd as [_ Hnd].
      destruct (IH (p1 ++ (n, d1) :: q1) p2 Hnd eq_refl H2) as [-> ->]. done.
Qed.

(** With distinct names in the lexicon, the candidate of the loop is never an
    entry whose checks repeat those of an earlier entry: the earlier one has
    the same score and the comparison is strict. *)
Lemma winner_not_shadowed np t ts raw ex hs ex' lex m c :
  NoDup lex.*1 →
  Extractor.process np t ts raw ex = (Ok (Some hs), ex') →
  Recognizer.best_loop hs lex (None, 0%float) = Ok (m, c) →
  ∀ l, m = Some l → l ∉ shadowed [] lex.
Proof.
  intros Hnd Hp Hloop l -> Hin.
  destruct (best_of_process _ _ _ _ _ _ _ lex Hp) as (m' & c' & Hloop' & _ & _ & Hm).
  rewrite Hloop in Hloop'. injection Hloop' as <- <-.
  destruct Hm as [?|(pre & name & d & post & Hlex & [= <-] & Hsc & Hpre)]; [done|].
  destruct (shadowed_earlier [] lex l Hin) as (pre' & d' & post' & d0 & Hlex' & Hd0 & Hsame).
  destruct (split_at_key_unique lex pre pre' l d d' post post' Hnd Hlex Hlex') as [<- <-].
  simpl in Hd0. apply list_elem_of_fmap in Hd0 as ([n0 d0'] & -> & He0). simpl in *.
  assert (Hs0 : scored hs (n0, d0') c).
  { unfold scored in *. simpl in *. by rewrite <- (same_checks_score hs d d0' Hsame). }
  pose proof (Hpre _ _ He0 Hs0) as Hlt. by rewrite FloatOrder.ltb_irrefl in Hlt.
Qed.

Lemma predict_not_shadowed np t ts raw r :
  NoDup (lexicon r).*1 →
  match (Recognizer.predict np t ts raw r).1 with
  | Ok (Some l, _) => l ∉ shadowed [] (lexicon r)
  | _ => True
  end.
Proof.
  intros Hnd. unfold Recognizer.predict.
  destruct (Extractor.process np t ts raw (extractor r)) as [[[hs|]|e] ex'] eqn:Hp;
    cbn [fst]; [|done..].
  destruct (best_of_process _ _ _ _ _ _ _ (lexicon r) Hp) as (m & c & Hloop & _).
  unfold Recognizer.classify. rewrite Hloop. cbv beta iota delta [mbind result_bind].
  destruct (Config.CONFIDENCE_THRESHOLD <=? c)%float; [|done].
  destruct m as [l|]; [|done].
  by apply (winner_not_shadowed np t ts raw (extractor r) hs ex' _ (Some l) c).
Qed.

Lemma lexicon_names_distinct : NoDup ASLLexicon.get_definitions.*1.
Proof. apply (bool_decide_eq_true_1 (NoDup ASLLexicon.get_definitions.*1)). vm_compute. reflexivity. Qed.

(** X7: sixteen labels of the lexicon are never returned.  An entry whose
    fingers, orientation and special keys repeat those of an earlier entry
    always ties with it and loses to it, so [predict], on the lexicon of
    the recognizer and for every frame and extractor state, never returns U,
    V, ONE, TWO, FOUR, FIVE, HELLO, CALL, HELP, THANK YOU, PLEASE, LOVE, PHONE,
    WAIT, MORE or FINISHED. *)
Theorem repeated_entries_never_predicted (np : Libm) (t ts : float) (raw : list landmark)
    (ex : HandFeatureExtractor) :
  shadowed [] ASLLexicon.get_definitions
  = ["U"; "V"; "ONE"; "TWO"; "FOUR"; "FIVE"; "HELLO"; "CALL"; "HELP"; "THANK YOU";
     "PLEASE"; "LOVE"; "PHONE"; "WAIT"; "MORE"; "FINISHED"]
  ∧ match (Recognizer.predict np t ts raw (Recognizer.set_extractor Recognizer.init ex)).1 with
    | Ok (Some l, _) => l ∉ shadowed [] ASLLexicon.get_definitions
    | _ => True
    end.
Proof.
  split; [vm_compute; reflexivity|].
  exact (predict_not_shadowed np t ts raw (Recognizer.set_extractor Recognizer.init ex)
           lexicon_names_distinct).
Qed.

(** ** The sentence builder: sessions *)

(** What one call of [add_prediction] with a non-empty label does in a
    session: below 8 buffered labels it only appends; at 8 it commits a
    most frequent label when it has at least 6 votes and then empties the
    buffer. *)
Lemma add_prediction_step s now c p :
  reachable s → p ≠ "" →
  let buf := deque_append p (frame_buffer s) in
  let s1 := Sentence.set_buffer s buf in
  dq_maxlen buf = 8
  ∧ ((length (dq_items buf) = S (length (dq_items (frame_buffer s)))
      ∧ length (dq_items buf) < 8
      ∧ dq_items buf = dq_items (frame_buffer s) ++ [p]
      ∧ Sentence.add_prediction now (Some p) c s = Ok s1)
     ∨ (length (dq_items buf) = 8
        ∧ ∃ w n,
            n = count w (dq_items buf)
            ∧ (∀ w', count w' (dq_items buf) ≤ n)
            ∧ Sentence.add_prediction now (Some p) c s
              = Ok (if bool_decide (6 ≤ n)
                    then Sentence.set_buffer (Sentence._commit_word now w s1)
                           {| dq_items := []; dq_maxlen := 8 |}
                    else s1))).
Proof.
  intros Hr Hp buf s1.
  destruct (reachable_invariant s Hr) as (Hm & Hl & Hc).
  apply String.eqb_neq in Hp.
  assert (Hbm : dq_maxlen buf = 8) by done.
  split; [done|].
  assert (Hlen : length (dq_items buf) = Nat.min (S (length (dq_items (frame_buffer s)))) 8).
  { subst buf. by rewrite deque_append_length, Hm. }
  unfold Sentence.add_prediction. rewrite Hp. fold buf. fold s1. rewrite Hbm.
  case_bool_decide as H8.
  - right. split; [done|].
    destruct (most_common_spec (dq_items buf)) as (w & n & Hmc & Hn & Hmax).
    { intros Hnil. rewrite Hnil in H8. simpl in H8. lia. }
    exists w, n. split; [done|]. split; [done|]. rewrite Hmc.
    assert (Hn8 : n ≤ 8) by (rewrite Hn, <- H8; apply count_le_length).
    rewrite (majority_test n Hn8).
    destruct (bool_decide (6 ≤ n)); [|done].
    destruct (commit_word_frame now w s1) as [-> _]. subst s1. simpl.
    unfold deque_clear. by rewrite Hbm.
  - left. assert (Hlt : length (dq_items buf) < 8) by lia.
    split; [lia|]. split; [done|]. split; [|done].
    subst buf. unfold deque_append. cbn [dq_items].
    rewrite length_app, Hm. simpl.
    replace (length (dq_items (frame_buffer s)) + 1 - 8) with 0 by lia. done.
Qed.

(** The outcome of any call of [add_prediction] in a session. *)
Lemma add_prediction_outcome s now c p :
  reachable s →
  ∃ s', Sentence.add_prediction now p c s = Ok s'
    ∧ (current_sentence s' = current_sentence s
       ∨ ∃ w label,
           p = Some label
           ∧ current_sentence s' = current_sentence s ++ [w]
           ∧ 6 ≤ count w (dq_items (deque_append label (frame_buffer s)))
           ∧ length (dq_items (deque_append label (frame_buffer s))) = 8
           ∧ dq_items (frame_buffer s') = []
           ∧ last_word_time s' = now).
Proof.
  intros Hr.
  destruct p as [p|]; [|exists s; split; [done|by left]].
  destruct (decide (p = "")) as [->|Hp]; [exists s; split; [done|by left]|].
  destruct (add_prediction_step s now c p Hr Hp)
    as (_ & [(_ & _ & _ & Hadd)|(H8 & w & n & Hn & _ & Hadd)]).
  - eexists. split; [exact Hadd|by left].
  - eexists. split; [exact Hadd|].
    case_bool_decide as H6; [|by left].
    set (s1 := Sentence.set_buffer s (deque_append p (frame_buffer s))).
    unfold Sentence._commit_word.
    destruct (match last (current_sentence s1) with
              | Some l => String.eqb l w && (now - last_word_time s1 <? cooldown s1)%float
              | None => false
              end); [by left|].
    right. exists w, p. split_and!; [done|done|by rewrite <- Hn|done|done|done].
Qed.

(** X8: [add_prediction] is safe in a session.  From any state reached from
    a fresh builder it never raises (the [most_common(1)[0]] lookup always
    finds an entry), and it either leaves the sentence as it is or appends
    one word; a word is appended only if it holds at least 6 of the 8 labels
    then in the buffer, the buffer is emptied and the commit time recorded. *)
Theorem add_prediction_safe (s : SentenceBuilder) (now c : float) (p : option string) :
  reachable s →
  ∃ s',
    Sentence.add_prediction now p c s = Ok s'
    ∧ reachable s'
    ∧ (current_sentence s' = current_sentence s
       ∨ ∃ w label,
           p = Some label
           ∧ current_sentence s' = current_sentence s ++ [w]
           ∧ 6 ≤ count w (dq_items (deque_append label (frame_buffer s)))
           ∧ length (dq_items (deque_append label (frame_buffer s))) = 8
           ∧ dq_items (frame_buffer s') = []
           ∧ last_word_time s' = now).
Proof.
  intros Hr. destruct (add_prediction_outcome s now c p Hr) as (s' & Hadd & Hcase).
  exists s'. split; [done|]. split; [by eapply reach_add|done].
Qed.

Lemma add_prediction_safe_witness :
  reachable VoteExamples.seven_votes
  ∧ ∃ s', Sentence.add_prediction 8%float (Some "A") 1%float VoteExamples.seven_votes = Ok s'
          ∧ reachable s'.
Proof.
  assert (Hr : reachable VoteExamples.seven_votes).
  { apply (feed_reachable (take 7 VoteExamples.six_of_eight) Sentence.init);
      [apply reach_init|vm_compute; reflexivity]. }
  split; [exact Hr|].
  destruct (add_prediction_safe VoteExamples.seven_votes 8%float 1%float (Some "A") Hr)
    as (s' & Hadd & Hr' & _).
  by exists s'.
Defined.

Lemma feed_below_capacity events :
  ∀ s, reachable s →
    length (dq_items (frame_buffer s)) + length events < 8 →
    ∃ s', feed events s = Ok s'
          ∧ current_sentence s' = current_sentence s
          ∧ last_word_time s' = last_word_time s
          ∧ dq_items (frame_buffer s')
            = dq_items (frame_buffer s) ++ filter (λ p, p ≠ "") events.*2.
Proof.
  induction events as [|[now p] events IH]; intros s Hr Hlen; cbn [feed].
  - exists s. simpl. by rewrite filter_nil, app_nil_r.
  - cbn [length] in Hlen. destruct (decide (p = "")) as [->|Hp].
    + simpl. destruct (IH s Hr ltac:(lia)) as (s' & Hf & Hs & Ht & Hb).
      exists s'. split; [done|]. split; [done|]. split; [done|].
      rewrite Hb. by rewrite filter_cons_False by (by intros ?).
    + destruct (add_prediction_step s now 1%float p Hr Hp)
        as (_ & [(Hl1 & _ & Hitems & Hadd)|(H8 & _)]).
      2:{ rewrite deque_append_length in H8.
          destruct (reachable_invariant s Hr) as (Hm & _). rewrite Hm in H8. lia. }
      rewrite Hadd. cbv beta iota delta [mbind result_bind].
      set (s1 := Sentence.set_buffer s (deque_append p (frame_buffer s))) in *.
      assert (Hr1 : reachable s1) by (by eapply reach_add).
      destruct (IH s1 Hr1) as (s' & Hf & Hs & Ht & Hb).
      { subst s1. simpl. simpl in Hl1. lia. }
      exists s'. split; [done|]. split; [done|]. split; [done|].
      rewrite Hb. subst s1. cbn [frame_buffer Sentence.set_buffer].
      rewrite Hitems, fmap_cons. cbn [snd]. rewrite filter_cons_True by done.
      by rewrite <- app_assoc.
Qed.

(** X9: no commit before the buffer is full again.  In a session, as long as
    the labels already buffered and the labels fed number fewer than 8
    together, the sentence and the last commit time do not change (whatever
    the labels and clock readings are) and the non-empty labels just
    accumulate in the buffer; after a commit or a clear, which empty the
    buffer, at least 8 further labels are thus needed for the next word. *)
Theorem no_commit_below_capacity (events : list (float * string)) (s : SentenceBuilder) :
  reachable s →
  length (dq_items (frame_buffer s)) + length events < 8 →
  ∃ s', feed events s = Ok s'
        ∧ current_sentence s' = current_sentence s
        ∧ last_word_time s' = last_word_time s
        ∧ dq_items (frame_buffer s')
          = dq_items (frame_buffer s) ++ filter (λ p, p ≠ "") events.*2.
Proof. intros Hr Hlen. by apply feed_below_capacity. Qed.

Lemma no_commit_below_capacity_witness :
  reachable Sentence.init
  ∧ ∃ s', feed (take 7 VoteExamples.six_of_eight) Sentence.init = Ok s'
          ∧ current_sentence s' = []
          ∧ last_word_time s' = 0%float
          ∧ dq_items (frame_buffer s')
            = [] ++ filter (λ p, p ≠ "") (take 7 VoteExamples.six_of_eight).*2.
Proof.
  split; [apply reach_init|].
  apply (no_commit_below_capacity (take 7 VoteExamples.six_of_eight) Sentence.init);
    [apply reach_init|vm_compute; lia].
Defined.

(** ** The sentence builder: clear and rendering *)

Lemma commit_word_same_session now w a b :
  same_session a b →
  same_session (Sentence._commit_word now w a) (Sentence._commit_word now w b).
Proof.
  intros (Hs & Hb & Hc & Ht). unfold Sentence._commit_word. rewrite <- Hs, <- Hc.
  destruct (last (current_sentence a)) as [l|] eqn:Hl.
  - assert (Hne : current_sentence a ≠ []) by (intros E; by rewrite E in Hl).
    rewrite <- (Ht Hne).
    destruct (String.eqb l w && (now - last_word_time a <? cooldown a)%float).
    + by split_and!.
    + split_and!; simpl; [by rewrite Hs|done|done|done].
  - split_and!; simpl; [by rewrite Hs|done|done|done].
Qed.

Lemma set_buffer_same_session a b d :
  same_session a b → same_session (Sentence.set_buffer a d) (Sentence.set_buffer b d).
Proof. intros (Hs & Hb & Hc & Ht). by split_and!. Qed.

Lemma add_prediction_same_session now p c a b :
  same_session a b →
  match Sentence.add_prediction now p c a, Sentence.add_prediction now p c b with
  | Ok a', Ok b' => same_session a' b'
  | Raise _, Raise _ => True
  | _, _ => False
  end.
Proof.
  intros Hab. pose proof Hab as (Hs & Hb & Hc & Ht).
  unfold Sentence.add_prediction. destruct p as [p|]; [|done].
  destruct (String.eqb p ""); [done|]. rewrite <- Hb.
  set (buf := deque_append p (frame_buffer a)).
  pose proof (set_buffer_same_session a b buf Hab) as H1.
  case_bool_decide; [|done].
  destruct (most_common_1 _) as [[w n]|]; [|done].
  destruct (_ <? _)%float; [|done].
  pose proof (commit_word_same_session now w _ _ H1) as H2.
  pose proof H2 as (_ & Hb2 & _). rewrite <- Hb2.
  by apply set_buffer_same_session.
Qed.

Lemma feed_same_session events :
  ∀ a b, same_session a b →
  match feed events a, feed events b with
  | Ok a', Ok b' => same_session a' b'
  | Raise _, Raise _ => True
  | _, _ => False
  end.
Proof.
  induction events as [|[now p] events IH]; intros a b Hab; cbn [feed]; [done|].
  pose proof (add_prediction_same_session now (Some p) 1%float a b Hab) as H.
  destruct (Sentence.add_prediction now (Some p) 1%float a) as [a'|],
           (Sentence.add_prediction now (Some p) 1%float b) as [b'|];
    cbv beta iota delta [mbind result_bind]; try done.
  by apply IH.
Qed.

Lemma feed_total events : ∀ s, reachable s → ∃ s', feed events s = Ok s'.
Proof.
  induction events as [|[now p] events IH]; intros s Hr; cbn [feed]; [by eexists|].
  destruct (add_prediction_outcome s now 1%float (Some p) Hr) as (s1 & Hadd & _).
  rewrite Hadd. cbv beta iota delta [mbind result_bind].
  apply IH. by eapply reach_add.
Qed.

(** X10: [clear] starts the session afresh.  After [clear] the rendered
    sentence is empty and so is the vote buffer; although the last commit
    time is not reset, every later sequence of predictions gives exactly the
    sentence and the buffer it gives on a new builder; in particular the
    first word committed after a clear is never suppressed by the cooldown. *)
Theorem clear_is_fresh_start (s : SentenceBuilder) (events : list (float * string)) :
  reachable s →
  Sentence.get_sentence (Sentence.clear s) = ""
  ∧ dq_items (frame_buffer (Sentence.clear s)) = []
  ∧ (∀ now w, current_sentence (Sentence._commit_word now w (Sentence.clear s)) = [w])
  ∧ ∃ a b,
      feed events (Sentence.clear s) = Ok a
      ∧ feed events Sentence.init = Ok b
      ∧ current_sentence a = current_sentence b
      ∧ frame_buffer a = frame_buffer b
      ∧ Sentence.get_sentence a = Sentence.get_sentence b.
Proof.
  intros Hr. split; [done|]. split; [done|]. split; [done|].
  destruct (reachable_invariant s Hr) as (Hm & _ & Hc).
  assert (Hsim : same_session (Sentence.clear s) Sentence.init).
  { split_and!; [done| |done|done]. simpl. unfold deque_clear. by rewrite Hm. }
  destruct (feed_total events (Sentence.clear s) (reach_clear s Hr)) as [a Ha].
  destruct (feed_total events Sentence.init reach_init) as [b Hb].
  pose proof (feed_same_session events _ _ Hsim) as H. rewrite Ha, Hb in H.
  destruct H as (Hs & Hbuf & _).
  exists a, b. split_and!; try done. unfold Sentence.get_sentence. by rewrite Hs.
Qed.

Lemma clear_is_fresh_start_witness :
  reachable Examples.said_A
  ∧ Sentence.get_sentence (Sentence.clear Examples.said_A) = ""
  ∧ ∃ a b,
      feed VoteExamples.six_of_eight (Sentence.clear Examples.said_A) = Ok a
      ∧ feed VoteExamples.six_of_eight Sentence.init = Ok b
      ∧ current_sentence a = current_sentence b.
Proof.
  assert (Hr : reachable Examples.said_A).
  { apply (feed_reachable (map (λ e : float * string, ((e.1 + 2)%float, "A"))
                             VoteExamples.six_of_eight) Sentence.init);
      [apply reach_init|vm_compute; reflexivity]. }
  split; [exact Hr|].
  destruct (clear_is_fresh_start Examples.said_A VoteExamples.six_of_eight Hr)
    as (Hg & _ & _ & a & b & Ha & Hb & Hs & _).
  split; [exact Hg|]. by exists a, b.
Defined.

Lemma string_append_assoc (a b c : string) :
  (a ++ (b ++ c) = (a ++ b) ++ c)%string.
Proof.
  induction a as [|x a IH]; [done|].
  change (String x (a ++ (b ++ c)) = String x ((a ++ b) ++ c))%string.
  by rewrite IH.
Qed.

Lemma concat_snoc sep (l : list string) w :
  String.concat sep (l ++ [w])
  = match l with
    | [] => w
    | _ => (String.concat sep l ++ sep ++ w)%string
    end.
Proof.
  induction l as [|x l IH]; [done|].
  destruct l as [|y l]; [done|].
  change ((x :: y :: l) ++ [w]) with (x :: (y :: l) ++ [w]).
  change (String.concat sep (x :: (y :: l) ++ [w]))
    with (x ++ sep ++ String.concat sep ((y :: l) ++ [w]))%string.
  rewrite IH.
  change (String.concat sep (x :: y :: l)) with (x ++ sep ++ String.concat sep (y :: l))%string.
  by rewrite <- !string_append_assoc.
Qed.

(** X11: rendering of the sentence.  A commit either leaves the rendered
    sentence as it is (the suppressed repeat) or extends it: the word alone
    when the sentence was empty, otherwise the previous rendering, one space
    and the word. *)
Theorem get_sentence_after_commit (now : float) (w : string) (s : SentenceBuilder) :
  let s' := Sentence._commit_word now w s in
  Sentence.get_sentence s'
  = if bool_decide (current_sentence s' = current_sentence s) then Sentence.get_sentence s
    else match current_sentence s with
         | [] => w
         | _ => (Sentence.get_sentence s ++ " " ++ w)%string
         end.
Proof.
  intros s'. case_bool_decide as Heq; [unfold Sentence.get_sentence; by rewrite Heq|].
  assert (Hs' : current_sentence s' = current_sentence s ++ [w]).
  { subst s'. unfold Sentence._commit_word in *.
    destruct (match last (current_sentence s) with
              | Some l => String.eqb l w && (now - last_word_time s <? cooldown s)%float
              | None => false
              end); [done|done]. }
  unfold Sentence.get_sentence. rewrite Hs'. apply concat_snoc.
Qed.

(** ** Frames with a landmark that is not a dict *)

Lemma smooth_loop_other t lms :
  LmOther ∈ lms →
  ∀ i s, ∃ e s', Extractor.smooth_loop t i lms s = (Raise e, s').
Proof.
  induction lms as [|lm rest IH]; intros Hin i [ex sm].
  - by apply elem_of_nil in Hin.
  - destruct lm as [x y z|].
    + apply elem_of_cons in Hin as [Hin|Hin]; [done|].
      destruct (Extractor.filter_channel (i * 3 + 0) t (dict_get x PyNone) ex)
        as [[sx|e1] ex1] eqn:H1.
      2:{ exists e1, (ex1, sm). cbn [Extractor.smooth_loop]. unfold st_bind at 1.
          cbn [Extractor.read_landmark]. unfold st_bind at 1, Extractor.on_extractor at 1.
          by rewrite H1. }
      destruct (Extractor.filter_channel (i * 3 + 1) t (dict_get y PyNone) ex1)
        as [[sy|e2] ex2] eqn:H2.
      2:{ exists e2, (ex2, sm). cbn [Extractor.smooth_loop]. unfold st_bind at 1.
          cbn [Extractor.read_landmark]. unfold st_bind at 1, Extractor.on_extractor at 1.
          rewrite H1. unfold st_bind at 1, Extractor.on_extractor at 1. by rewrite H2. }
      destruct (Extractor.filter_channel (i * 3 + 2) t (dict_get z (PyFloat 0)) ex2)
        as [[sz|e3] ex3] eqn:H3.
      2:{ exists e3, (ex3, sm). cbn [Extractor.smooth_loop]. unfold st_bind at 1.
          cbn [Extractor.read_landmark]. unfold st_bind at 1, Extractor.on_extractor at 1.
          rewrite H1. unfold st_bind at 1, Extractor.on_extractor at 1. rewrite H2.
          unfold st_bind at 1, Extractor.on_extractor at 1. by rewrite H3. }
      rewrite (smooth_loop_step _ _ _ _ _ _ _ _ _ _ _ _ _ _ H1 H2 H3). apply IH, Hin.
    + by exists TypeError, (ex, sm).
Qed.

Lemma raw_loop_other lms :
  LmOther ∈ lms → ∀ sm, Extractor.raw_loop lms sm = Raise TypeError.
Proof.
  induction lms as [|lm rest IH]; intros Hin sm.
  - by apply elem_of_nil in Hin.
  - destruct lm as [x y z|]; [|done].
    apply elem_of_cons in Hin as [Hin|Hin]; [done|].
    cbn [Extractor.raw_loop Extractor.read_landmark_raw].
    cbv beta iota delta [mbind result_bind]. by apply IH.
Qed.

Lemma process_other np t ts raw ex :
  LmOther ∈ raw → ∃ ex', Extractor.process np t ts raw ex = (Ok None, ex').
Proof.
  intros Hin. unfold Extractor.process. case_bool_decide; [by eexists|].
  unfold Extractor.smooth_landmarks.
  destruct (smooth_loop_other t raw Hin 0 (ex, [])) as (e & [ex' sm] & ->).
  rewrite (raw_loop_other raw Hin). by eexists.
Qed.

(** X12: a frame with a landmark that is not a dict is dropped without an
    exception.  Whatever the other landmarks, the length of the frame and
    the state of the filters, [process] returns [None] and [predict] returns
    [(None, 0.0)]: the [TypeError] of the smoothing loop is raised again by
    the fallback loop and caught in [process]. *)
Theorem non_dict_landmark_dropped (np : Libm) (t ts : float) (raw : list landmark)
    (r : ASLRecognizer) :
  LmOther ∈ raw →
  ∃ ex',
    Extractor.process np t ts raw (extractor r) = (Ok None, ex')
    ∧ Recognizer.predict np t ts raw r
      = (Ok (None, 0%float), Recognizer.set_extractor r ex').
Proof.
  intros Hin. destruct (process_other np t ts raw (extractor r) Hin) as [ex' Hp].
  exists ex'. split; [done|]. unfold Recognizer.predict. by rewrite Hp.
Qed.

Lemma non_dict_landmark_dropped_witness :
  LmOther ∈ frame_non_dict
  ∧ length frame_non_dict = 21
  ∧ ∀ np, ∃ ex',
      Extractor.process np 1 1 frame_non_dict (extractor Recognizer.init) = (Ok None, ex')
      ∧ Recognizer.predict np 1 1 frame_non_dict Recognizer.init
        = (Ok (None, 0%float), Recognizer.set_extractor Recognizer.init ex').
Proof.
  assert (Hin : LmOther ∈ frame_non_dict).
  { apply list_elem_of_lookup. by exists 7. }
  split; [exact Hin|]. split; [reflexivity|]. intros np.
  exact (non_dict_landmark_dropped np 1 1 frame_non_dict Recognizer.init Hin).
Defined.

(** ** The thumb state *)

Lemma extract_thumb np coords ts hs :
  Extractor.extract np coords ts = Ok hs →
  fingers hs THUMB ≠ CURLED ∧ finger_angles hs THUMB = 0%float.
Proof.
  unfold Extractor.extract. intros H.
  repeat match type of H with
  | context [Extractor.vec_at coords ?i] =>
      destruct (Extractor.vec_at coords i) as [?|?] eqn:?;
      cbv beta iota delta [mbind result_bind] in H; [|discriminate H]
  | context [Extractor.row_at coords ?i] =>
      destruct (Extractor.row_at coords i) as [?|?] eqn:?;
      cbv beta iota delta [mbind result_bind] in H; [|discriminate H]
  end.
  injection H as <-. cbn [fingers finger_angles]. split; [|done].
  unfold Extractor.thumb_state.
  destruct (_ <? Extractor.TOUCH)%float; [done|].
  by destruct (60 <? _)%float.
Qed.

Lemma process_thumb np t ts raw ex hs ex' :
  Extractor.process np t ts raw ex = (Ok (Some hs), ex') →
  fingers hs THUMB ≠ CURLED ∧ finger_angles hs THUMB = 0%float.
Proof.
  unfold Extractor.process. case_bool_decide; [done|].
  destruct (Extractor.smooth_landmarks t raw ex) as [[coords|e] ex1]; [|done].
  destruct (Extractor.extract np coords ts) as [hs'|e] eqn:Hex; simpl; [|done].
  intros [= <- <-]. by apply (extract_thumb _ _ _ _ Hex).
Qed.

Lemma hits_lt cs : false ∈ cs → Checks.hits cs < length cs.
Proof.
  induction cs as [|b cs IH]; intros Hin; [by apply elem_of_nil in Hin|].
  rewrite hits_cons. cbn [length].
  apply elem_of_cons in Hin as [<-|Hin].
  - pose proof (hits_le_length cs). simpl. lia.
  - specialize (IH Hin). destruct b; simpl; lia.
Qed.

Lemma thumb_check_fails hs d :
  fingers hs THUMB ≠ CURLED → thumb_needs_curl d = true →
  false ∈ Checks.finger_checks hs d.
Proof.
  intros Hth Hd. unfold thumb_needs_curl in Hd. unfold Checks.finger_checks.
  destruct (sd_fingers d) as [m|]; [|done].
  destruct (m !! THUMB) as [l|] eqn:Hl; [|done].
  apply andb_prop in Hd as [He Hf].
  apply bool_decide_eq_true_1 in He, Hf.
  apply list_elem_of_fmap. exists (THUMB, l). split.
  - symmetry. apply bool_decide_eq_false_2. cbn [fst snd].
    destruct (fingers hs THUMB); done.
  - by apply elem_of_map_to_list.
Qed.

(** X13: the thumb is never seen curled.  In a hand state built by
    [process] the thumb is [EXTENDED] or [FOLDED] and its angle is 0, so a
    definition whose thumb requirement accepts neither of the two never
    reaches the score 1.0; in the lexicon these are FOOD, HOME, FRIEND, TIRED
    and MORE. *)
Theorem curled_thumb_never_matches (np : Libm) (t ts : float) (raw : list landmark)
    (ex ex' : HandFeatureExtractor) (hs : HandState) :
  Extractor.process np t ts raw ex = (Ok (Some hs), ex') →
  fingers hs THUMB ≠ CURLED
  ∧ finger_angles hs THUMB = 0%float
  ∧ (∀ d, thumb_needs_curl d = true →
          ∃ s, Recognizer._calculate_match_score hs d = Ok s ∧ (s <? 1)%float = true)
  ∧ names_where thumb_needs_curl ASLLexicon.get_definitions
    = ["FOOD"; "HOME"; "FRIEND"; "TIRED"; "MORE"].
Proof.
  intros Hp. destruct (process_thumb _ _ _ _ _ _ _ Hp) as [Hth Hang].
  split; [done|]. split; [done|]. split; [|vm_compute; reflexivity].
  intros d Hd.
  destruct (score_total _ _ _ _ _ _ _ d Hp) as (s & Hs & _).
  exists s. split; [done|].
  rewrite score_is_fraction in Hs.
  destruct (Checks.applicable hs d) as [cs|e] eqn:Hcs; [|done].
  cbv beta iota delta [mbind result_bind] in Hs. injection Hs as <-.
  apply fraction_below_one; [|by eapply checks_bound].
  apply hits_lt.
  unfold Checks.applicable in Hcs.
  destruct (Checks.special_checks hs d) as [sp|e]; [|done].
  cbv beta iota delta [mbind result_bind] in Hcs. injection Hcs as <-.
  apply elem_of_app. left. by apply thumb_check_fails.
Qed.

Lemma curled_thumb_never_matches_witness :
  21 ≤ length Examples.open_hand
  ∧ ∀ np, ∃ hs ex',
      Extractor.process np 1 1 Examples.open_hand Extractor.init = (Ok (Some hs), ex')
      ∧ fingers hs THUMB ≠ CURLED
      ∧ ∀ d, thumb_needs_curl d = true →
             ∃ s, Recognizer._calculate_match_score hs d = Ok s ∧ (s <? 1)%float = true.
Proof.
  split; [vm_compute; lia|]. intros np.
  destruct (open_hand_accepted np) as (hs & ex' & Hp).
  exists hs, ex'. split; [exact Hp|].
  destruct (curled_thumb_never_matches np 1 1 Examples.open_hand Extractor.init ex' hs Hp)
    as (Hth & _ & Hd & _).
  split; [exact Hth|exact Hd].
Defined.

(** ** A missing coordinate in the first frame *)

Lemma row_at_ok coords i :
  i < length coords → ∃ r, Extractor.row_at coords i = Ok r.
Proof.
  intros Hi. unfold Extractor.row_at.
  destruct (lookup_lt_is_Some_2 coords i Hi) as [r ->]. by exists r.
Qed.

Lemma vec_at_error coords i e :
  i < length coords → Extractor.vec_at coords i = Raise e → e = TypeError.
Proof.
  intros Hi. unfold Extractor.vec_at.
  destruct (row_at_ok coords i Hi) as [[[x y] z] ->].
  cbv beta iota delta [mbind result_bind].
  destruct x, y, z; cbn; congruence.
Qed.

Lemma vec_at_none (coords : list row) i x y z :
  coords !! i = Some ((x, y, z) : row) →
  x = PyNone ∨ y = PyNone ∨ z = PyNone →
  Extractor.vec_at coords i = Raise TypeError.
Proof.
  intros Hr Hn. assert (Hrow : Extractor.row_at coords i = Ok (x, y, z)).
  { unfold Extractor.row_at. by rewrite Hr. }
  unfold Extractor.vec_at. rewrite Hrow.
  cbv beta iota delta [mbind result_bind].
  destruct x, y, z; destruct Hn as [?|[?|?]]; try discriminate; reflexivity.
Qed.

Lemma extract_raises np coords ts i :
  21 ≤ length coords →
  i ∈ used_landmarks →
  Extractor.vec_at coords i = Raise TypeError →
  Extractor.extract np coords ts = Raise TypeError.
Proof.
  intros Hlen Hi Hraise. unfold Extractor.extract.
  repeat match goal with
  | |- context [Extractor.vec_at coords ?j] =>
      let H := fresh "Hv" in
      destruct (Extractor.vec_at coords j) as [?|?e] eqn:H;
      cbv beta iota delta [mbind result_bind];
      [|f_equal; apply (vec_at_error coords j); [lia|exact H]]
  | |- context [Extractor.row_at coords ?j] =>
      let H := fresh "Hr" in
      destruct (Extractor.row_at coords j) as [?|?e] eqn:H;
      cbv beta iota delta [mbind result_bind];
      [|destruct (row_at_ok coords j ltac:(lia)) as [? ?]; congruence]
  end.
  exfalso. unfold used_landmarks in Hi.
  repeat (apply elem_of_cons in Hi as [->|Hi]; [congruence|]).
  by apply elem_of_nil in Hi.
Qed.

(** X14: a missing coordinate in the first frame makes [predict] raise.  On
    an extractor without filters for the frame, a frame of at least 21 dicts
    in which a landmark used by [process] has no x or y key, or a null
    coordinate, passes the smoothing unchanged and [predict] then raises a
    [TypeError]: the [try] of [process] covers the smoothing only. *)
Theorem missing_coordinate_first_frame_raises (np : Libm) (t ts : float)
    (raw : list landmark) (r : ASLRecognizer) (i : nat) (x y z : field) :
  (t - t <=? 0)%float = true →
  Forall (λ lm, is_dict lm = true) raw →
  21 ≤ length raw →
  (∀ k, k < length raw * 3 → filters (extractor r) !! k = None) →
  i ∈ used_landmarks →
  raw !! i = Some (LmDict x y z) →
  dict_get x PyNone = PyNone ∨ dict_get y PyNone = PyNone ∨ dict_get z (PyFloat 0) = PyNone →
  (Recognizer.predict np t ts raw r).1 = Raise TypeError.
Proof.
  intros Ht Hd Hlen Hnone Hi Hlm Hmiss.
  destruct (smooth_loop_fresh t raw Ht 0 (extractor r) [] Hd)
    as (rows & ex' & Hloop & Hrows & _).
  { intros k Hk. apply Hnone. lia. }
  assert (Hsm : Extractor.smooth_landmarks t raw (extractor r) = (Ok rows, ex')).
  { unfold Extractor.smooth_landmarks. by rewrite Hloop. }
  pose proof (Forall2_length _ _ _ Hrows) as Hl.
  destruct (Forall2_lookup_l _ _ _ _ _ Hrows Hlm) as (row & Hrow & Hread).
  cbn [Extractor.read_landmark] in Hread. injection Hread as <-.
  pose proof (vec_at_none rows i _ _ _ Hrow Hmiss) as Hv.
  pose proof (extract_raises np rows ts i ltac:(lia) Hi Hv) as Hex.
  unfold Recognizer.predict, Extractor.process.
  rewrite bool_decide_eq_false_2 by lia. rewrite Hsm, Hex. done.
Qed.

Lemma missing_coordinate_first_frame_raises_witness :
  frame_wrist_without_x !! 0
  = Some (LmDict Absent (Present (PyFloat 0.875)) (Present (PyFloat 0)))
  ∧ ∀ np, (Recognizer.predict np 1 1 frame_wrist_without_x Recognizer.init).1
          = Raise TypeError.
Proof.
  split; [reflexivity|]. intros np.
  apply (missing_coordinate_first_frame_raises np 1 1 frame_wrist_without_x Recognizer.init 0
           Absent (Present (PyFloat 0.875)) (Present (PyFloat 0))).
  - reflexivity.
  - repeat constructor.
  - vm_compute; lia.
  - intros k _. apply lookup_empty.
  - by left.
  - reflexivity.
  - by left.
Defined.

(** ** Session registry *)

Lemma filter_keys_subset {A} (f : string * A → bool) (l : list (string * A)) k :
  k ∈ (List.filter f l).*1 → k ∈ l.*1.
Proof.
  intros Hk. apply list_elem_of_fmap in Hk as (kv & -> & Hin).
  apply list_elem_of_In, filter_In in Hin as [Hin _].
  apply list_elem_of_fmap. exists kv. split; [done|]. by apply list_elem_of_In.
Qed.

Lemma filter_keys_NoDup {A} (f : string * A → bool) (l : list (string * A)) :
  NoDup l.*1 → NoDup (List.filter f l).*1.
Proof.
  induction l as [|kv l IH]; intros Hnd; [constructor|].
  rewrite fmap_cons in Hnd. apply NoDup_cons in Hnd as [Hn Hnd].
  cbn [List.filter]. destruct (f kv); [|by apply IH].
  rewrite fmap_cons. apply NoDup_cons. split; [|by apply IH].
  intros Hk. apply Hn. by eapply filter_keys_subset.
Qed.

Lemma to_delete_NoDup now activity : NoDup (Server.to_delete now activity).
Proof. apply filter_keys_NoDup, NoDup_fst_map_to_list. Qed.

Lemma to_delete_spec now activity id :
  id ∈ Server.to_delete now activity
  ↔ ∃ last, activity !! id = Some last ∧ Server.expired now last = true.
Proof.
  unfold Server.to_delete. split.
  - intros Hin. apply list_elem_of_fmap in Hin as ([k last] & -> & Hin).
    apply list_elem_of_In, filter_In in Hin as [Hin Hex].
    exists last. split; [|done]. by apply elem_of_map_to_list, list_elem_of_In.
  - intros (last & Hl & Hex). apply list_elem_of_fmap. exists (id, last). split; [done|].
    apply list_elem_of_In, filter_In. split; [|done].
    by apply list_elem_of_In, elem_of_map_to_list.
Qed.

Lemma delete_client_sessions reg id :
  match sessions reg !! id with
  | Some _ => delete id (sessions reg)
  | None => sessions reg
  end = delete id (sessions reg).
Proof. destruct (sessions reg !! id) eqn:H; [done|]. by rewrite delete_id. Qed.

Lemma delete_loop_spec ids :
  ∀ reg,
    NoDup ids →
    (∀ id, id ∈ ids → is_Some (session_last_activity reg !! id)) →
    ∃ reg',
      Server.delete_loop ids reg = Some reg'
      ∧ (∀ id, session_last_activity reg' !! id
               = if bool_decide (id ∈ ids) then None else session_last_activity reg !! id)
      ∧ (∀ id, sessions reg' !! id
               = if bool_decide (id ∈ ids) then None else sessions reg !! id).
Proof.
  induction ids as [|c rest IH]; intros reg Hnd Hdom.
  - exists reg. split; [done|]. split; intros id; by rewrite bool_decide_eq_false_2 by apply not_elem_of_nil.
  - apply NoDup_cons in Hnd as [Hc Hnd].
    destruct (Hdom c) as [last Hlast]; [by left|].
    cbn [Server.delete_loop]. unfold Server.delete_client. rewrite Hlast.
    rewrite delete_client_sessions. cbn [mbind option_bind].
    set (reg1 := {| sessions := delete c (sessions reg);
                    session_last_activity := delete c (session_last_activity reg) |}).
    destruct (IH reg1 Hnd) as (reg' & Hloop & Ha & Hs).
    { intros id Hid. subst reg1. cbn [session_last_activity].
      rewrite lookup_delete_ne; [apply Hdom; by right|].
      intros ->. by apply Hc. }
    exists reg'. split; [exact Hloop|].
    split; intros id; [rewrite Ha|rewrite Hs]; subst reg1; cbn [session_last_activity sessions].
    + destruct (decide (id = c)) as [->|Hne].
      * rewrite (bool_decide_eq_true_2 (c ∈ c :: rest)) by (by left).
        rewrite lookup_delete_eq. by destruct (bool_decide _).
      * rewrite lookup_delete_ne by done.
        destruct (decide (id ∈ rest)) as [Hin|Hnin].
        -- rewrite !bool_decide_eq_true_2; [done|by right|done].
        -- rewrite !bool_decide_eq_false_2; [done| |done].
           intros [?|?]%elem_of_cons; done.
    + destruct (decide (id = c)) as [->|Hne].
      * rewrite (bool_decide_eq_true_2 (c ∈ c :: rest)) by (by left).
        rewrite lookup_delete_eq. by destruct (bool_decide _).
      * rewrite lookup_delete_ne by done.
        destruct (decide (id ∈ rest)) as [Hin|Hnin].
        -- rewrite !bool_decide_eq_true_2; [done|by right|done].
        -- rewrite !bool_decide_eq_false_2; [done| |done].
           intros [?|?]%elem_of_cons; done.
Qed.

(** What one round of the cleanup leaves. *)
Lemma cleanup_lookup now reg :
  ∃ reg',
    Server.cleanup_old_sessions now reg = Some reg'
    ∧ (∀ id, session_last_activity reg' !! id
             = match session_last_activity reg !! id with
               | Some last => if Server.expired now last then None else Some last
               | None => None
               end)
    ∧ (∀ id, sessions reg' !! id
             = match session_last_activity reg !! id with
               | Some last => if Server.expired now last then None else sessions reg !! id
               | None => sessions reg !! id
               end).
Proof.
  destruct (delete_loop_spec (Server.to_delete now (session_last_activity reg)) reg
              (to_delete_NoDup _ _)) as (reg' & Hloop & Ha & Hs).
  { intros id Hid. apply to_delete_spec in Hid as (last & -> & _). by eexists. }
  exists reg'. split; [exact Hloop|].
  assert (Hdec : ∀ id,
    bool_decide (id ∈ Server.to_delete now (session_last_activity reg))
    = match session_last_activity reg !! id with
      | Some last => Server.expired now last
      | None => false
      end).
  { intros id. destruct (session_last_activity reg !! id) as [last|] eqn:Hl.
    - destruct (Server.expired now last) eqn:Hex.
      + apply bool_decide_eq_true_2, to_delete_spec. by exists last.
      + apply bool_decide_eq_false_2. intros (l & Hl' & Hex')%to_delete_spec. congruence.
    - apply bool_decide_eq_false_2. intros (l & Hl' & _)%to_delete_spec. congruence. }
  split; intros id; [rewrite Ha|rewrite Hs]; rewrite Hdec;
    destruct (session_last_activity reg !! id) as [last|]; try done;
    by destruct (Server.expired now last).
Qed.

(** X15: one round of the session cleanup.  It never raises (every key it
    deletes from [session_last_activity] is present), it removes from both
    dicts exactly the clients whose last activity is more than 3600 seconds
    before the current time, and it keeps every other entry as it is; a
    builder without an activity entry is never removed. *)
Theorem cleanup_removes_exactly_expired (now : float) (reg : Registry) :
  ∃ reg',
    Server.cleanup_old_sessions now reg = Some reg'
    ∧ (∀ id, session_last_activity reg' !! id
             = match session_last_activity reg !! id with
               | Some last => if Server.expired now last then None else Some last
               | None => None
               end)
    ∧ (∀ id, sessions reg' !! id
             = match session_last_activity reg !! id with
               | Some last => if Server.expired now last then None else sessions reg !! id
               | None => sessions reg !! id
               end)
    ∧ Server.cleanup_old_sessions now reg' = Some reg'.
Proof.
  destruct (cleanup_lookup now reg) as (reg' & Hc & Ha & Hs).
  exists reg'. split; [done|]. split; [done|]. split; [done|].
  destruct (cleanup_lookup now reg') as (reg2 & Hc2 & Ha2 & Hs2).
  rewrite Hc2. f_equal. destruct reg' as [s' a'], reg2 as [s2 a2].
  cbn [sessions session_last_activity] in *.
  f_equal; apply map_eq; intros id.
  - rewrite Hs2, Ha. destruct (session_last_activity reg !! id) as [last|]; [|done].
    destruct (Server.expired now last) eqn:Hex; [done|]. by rewrite Hex.
  - rewrite Ha2, Ha. destruct (session_last_activity reg !! id) as [last|]; [|done].
    destruct (Server.expired now last) eqn:Hex; [done|]. by rewrite Hex.
Qed.

(** X16: the life of a session.  Opening a session never fails; it returns
    the builder the client already had, or a new one, and records the
    activity time.  A cleanup round at time [now] then keeps that builder
    unless [now] is more than 3600 seconds after the opening, in which case
    the next opening starts from a new, empty builder. *)
Theorem session_kept_until_expiry (t0 now t1 : float) (client_id : string) (reg : Registry) :
  ∃ b reg1 reg2 b' reg3,
    Server.open_session t0 client_id reg = Some (b, reg1)
    ∧ b = default Sentence.init (sessions reg !! client_id)
    ∧ session_last_activity reg1 !! client_id = Some t0
    ∧ Server.cleanup_old_sessions now reg1 = Some reg2
    ∧ Server.open_session t1 client_id reg2 = Some (b', reg3)
    ∧ b' = (if Server.expired now t0 then Sentence.init else b)
    ∧ sessions reg3 !! client_id = Some b'.
Proof.
  set (b := default Sentence.init (sessions reg !! client_id)).
  set (s1 := match sessions reg !! client_id with
             | Some _ => sessions reg
             | None => <[client_id := Sentence.init]> (sessions reg)
             end).
  assert (Hs1 : s1 !! client_id = Some b).
  { subst s1 b. destruct (sessions reg !! client_id) eqn:H; [done|].
    by rewrite lookup_insert_eq. }
  set (reg1 := {| sessions := s1;
                  session_last_activity := <[client_id := t0]> (session_last_activity reg) |}).
  assert (Hopen : Server.open_session t0 client_id reg = Some (b, reg1)).
  { unfold Server.open_session. fold s1. by rewrite Hs1. }
  destruct (cleanup_lookup now reg1) as (reg2 & Hc & Ha & Hs).
  specialize (Hs client_id). unfold reg1 in Hs. cbn [session_last_activity sessions] in Hs.
  rewrite lookup_insert_eq, Hs1 in Hs.
  set (b' := if Server.expired now t0 then Sentence.init else b).
  set (s3 := match sessions reg2 !! client_id with
             | Some _ => sessions reg2
             | None => <[client_id := Sentence.init]> (sessions reg2)
             end).
  assert (Hs3 : s3 !! client_id = Some b').
  { subst s3 b'. rewrite Hs. destruct (Server.expired now t0); [by rewrite lookup_insert_eq|].
    by rewrite Hs. }
  exists b, reg1, reg2, b', {| sessions := s3;
                            session_last_activity := <[client_id := t1]> (session_last_activity reg2) |}.
  split; [exact Hopen|]. split; [done|]. split; [by unfold reg1; cbn [session_last_activity]; rewrite lookup_insert_eq|].
  split; [exact Hc|]. split; [|done].
  unfold Server.open_session. fold s3. by rewrite Hs3.
Qed.

(** ** The vote buffer over several frames *)

Lemma count_app w (l1 l2 : list string) : count w (l1 ++ l2) = count w l1 + count w l2.
Proof. unfold count. by rewrite filter_app, length_app. Qed.

Lemma count_replicate w n : count w (replicate n w) = n.
Proof.
  unfold count. induction n as [|n IH]; [done|].
  cbn [replicate]. rewrite filter_cons_True by done. cbn [length]. by rewrite IH.
Qed.

Lemma count_replicate_ne w w' n : w' ≠ w → count w' (replicate n w) = 0.
Proof.
  intros Hne. unfold count. induction n as [|n IH]; [done|].
  cbn [replicate]. by rewrite filter_cons_False by done.
Qed.

Lemma count_singleton w p : count w [p] = if bool_decide (p = w) then 1 else 0.
Proof.
  unfold count. case_bool_decide.
  - by rewrite filter_cons_True by done.
  - by rewrite filter_cons_False by done.
Qed.

Lemma count_drop w n (l : list string) : count w (drop n l) ≤ count w l.
Proof.
  rewrite <- (take_drop n l) at 2. rewrite count_app. lia.
Qed.

Lemma feed_app (e1 e2 : list (float * string)) :
  ∀ s, feed (e1 ++ e2) s = (s' ← feed e1 s; feed e2 s').
Proof.
  induction e1 as [|[now p] e1 IH]; intros s; [done|].
  cbn [app feed]. destruct (Sentence.add_prediction now (Some p) 1%float s) as [s1|e];
    cbv beta iota delta [mbind result_bind]; [apply IH|done].
Qed.

Lemma filter_same_label w (ts : list float) :
  w ≠ "" →
  filter (λ p, p ≠ "") ((λ t : float, (t, w)) <$> ts).*2 = replicate (length ts) w.
Proof.
  intros Hw. induction ts as [|t ts IH]; [done|].
  rewrite !fmap_cons. cbn [snd length replicate].
  rewrite filter_cons_True by done. by rewrite IH.
Qed.

Lemma commit_word_set_buffer now w s d d' :
  Sentence.set_buffer (Sentence._commit_word now w (Sentence.set_buffer s d)) d'
  = Sentence.set_buffer (Sentence._commit_word now w s) d'.
Proof.
  unfold Sentence._commit_word. cbn [Sentence.set_buffer current_sentence last_word_time cooldown].
  by destruct (match last (current_sentence s) with
               | Some l => String.eqb l w && (now - last_word_time s <? cooldown s)%float
               | None => false
               end).
Qed.

(** X17: a steady sign is committed at the eighth frame.  In a session whose
    buffer is empty (a new session, or just after a commit or a clear), eight
    predictions in a row of the same label make exactly one call of
    [_commit_word], for that label and at the time of the eighth, and leave
    the buffer empty; the first seven change nothing but the buffer. *)
Theorem steady_sign_committed_at_eighth (s : SentenceBuilder) (w : string)
    (ts : list float) (t8 : float) :
  reachable s →
  dq_items (frame_buffer s) = [] →
  w ≠ "" →
  length ts = 7 →
  feed (((λ t, (t, w)) <$> ts) ++ [(t8, w)]) s
  = Ok (Sentence.set_buffer (Sentence._commit_word t8 w s)
          {| dq_items := []; dq_maxlen := 8 |}).
Proof.
  intros Hr Hempty Hw Hts.
  rewrite feed_app.
  destruct (feed_below_capacity ((λ t, (t, w)) <$> ts) s Hr) as (s7 & Hfeed & Hsent & Htime & Hbuf).
  { rewrite Hempty, length_fmap, Hts. simpl. lia. }
  rewrite Hfeed. cbv beta iota delta [mbind result_bind].
  rewrite Hempty, filter_same_label, Hts in Hbuf by done. cbn [app] in Hbuf.
  assert (Hr7 : reachable s7) by (by eapply feed_reachable).
  destruct (reachable_invariant s Hr) as (Hm & _ & Hc).
  destruct (reachable_invariant s7 Hr7) as (Hm7 & _ & Hc7).
  assert (Hs7 : s7 = Sentence.set_buffer s {| dq_items := replicate 7 w; dq_maxlen := 8 |}).
  { destruct s7 as [sent [items maxlen] time cd]. cbn in *. unfold Sentence.set_buffer.
    by rewrite Hsent, Htime, Hbuf, Hm7, Hc7, Hc. }
  cbn [feed].
  destruct (add_prediction_step s7 t8 1%float w Hr7 Hw)
    as (_ & [(_ & Hlt & Hitems & _)|(_ & w' & n & Hn & Hmax & Hadd)]).
  { rewrite Hitems, Hbuf, length_app, length_replicate in Hlt. simpl in Hlt. lia. }
  rewrite Hadd. cbv beta iota delta [mbind result_bind].
  assert (Hitems : dq_items (deque_append w (frame_buffer s7)) = replicate 8 w).
  { rewrite Hs7. reflexivity. }
  rewrite Hitems in Hn, Hmax.
  assert (Hw' : w' = w).
  { destruct (decide (w' = w)) as [|Hne]; [done|].
    rewrite (count_replicate_ne w w' 8 Hne) in Hn.
    specialize (Hmax w). rewrite count_replicate in Hmax. lia. }
  subst w'. rewrite count_replicate in Hn. subst n.
  rewrite bool_decide_eq_true_2 by lia.
  rewrite Hs7. f_equal.
  rewrite commit_word_set_buffer. apply commit_word_set_buffer.
Qed.

Lemma steady_sign_committed_at_eighth_witness :
  reachable Sentence.init
  ∧ feed (((λ t, (t, "A")) <$> [1; 2; 3; 4; 5; 6; 7]%float) ++ [(8%float, "A")]) Sentence.init
    = Ok (Sentence.set_buffer (Sentence._commit_word 8 "A" Sentence.init)
            {| dq_items := []; dq_maxlen := 8 |})
  ∧ current_sentence (Sentence._commit_word 8 "A" Sentence.init) = ["A"].
Proof.
  split; [apply reach_init|]. split; [|reflexivity].
  apply (steady_sign_committed_at_eighth Sentence.init "A" [1; 2; 3; 4; 5; 6; 7]%float 8%float);
    [apply reach_init|reflexivity|done|reflexivity].
Defined.

(** In a session a full buffer holds no label six times: a vote that
    succeeds empties the buffer. *)
Lemma full_buffer_invariant s :
  reachable s →
  length (dq_items (frame_buffer s)) = 8 →
  ∀ w, count w (dq_items (frame_buffer s)) ≤ 5.
Proof.
  induction 1 as [|s now p c s' Hr IH Hadd|s Hr IH]; [done| |done].
  destruct p as [p|]; [|by injection Hadd as <-].
  destruct (decide (p = "")) as [->|Hp]; [by injection Hadd as <-|].
  destruct (add_prediction_step s now c p Hr Hp)
    as (_ & [(_ & Hlt & _ & Hadd')|(_ & w' & n & Hn & Hmax & Hadd')]);
    rewrite Hadd' in Hadd; injection Hadd as <-.
  - cbn [frame_buffer Sentence.set_buffer]. lia.
  - case_bool_decide as H6; [done|].
    cbn [frame_buffer Sentence.set_buffer]. intros _ w. specialize (Hmax w). lia.
Qed.

(** X18: the buffer as a sliding window.  In a session a full buffer never
    holds a label six times or more.  A prediction arriving on a full buffer
    evicts the oldest label; then either no label has six votes and only the
    buffer changes, or the label just added has exactly six, [_commit_word]
    is called for it and the buffer is emptied: a word committed from a full
    buffer is always the label of the current frame. *)
Theorem full_buffer_slides (s s' : SentenceBuilder) (now c : float) (p : string) :
  reachable s →
  length (dq_items (frame_buffer s)) = 8 →
  p ≠ "" →
  Sentence.add_prediction now (Some p) c s = Ok s' →
  let window := drop 1 (dq_items (frame_buffer s)) ++ [p] in
  (∀ w, count w (dq_items (frame_buffer s)) ≤ 5)
  ∧ ((∀ w, count w window ≤ 5)
     ∧ s' = Sentence.set_buffer s {| dq_items := window; dq_maxlen := 8 |}
     ∨ count p window = 6
       ∧ s' = Sentence.set_buffer (Sentence._commit_word now p s)
                {| dq_items := []; dq_maxlen := 8 |}).
Proof.
  intros Hr H8 Hp Hadd window.
  pose proof (full_buffer_invariant s Hr H8) as Hinv.
  destruct (reachable_invariant s Hr) as (Hm & _ & _).
  assert (Hbuf : deque_append p (frame_buffer s) = {| dq_items := window; dq_maxlen := 8 |}).
  { unfold deque_append. rewrite length_app, H8, Hm. cbn [length].
    change (8 + 1 - 8) with 1. by rewrite drop_app_le by lia. }
  split; [done|].
  destruct (add_prediction_step s now c p Hr Hp)
    as (_ & [(_ & Hlt & _)|(_ & w & n & Hn & Hmax & Hadd')]).
  { rewrite Hbuf in Hlt. cbn [dq_items] in Hlt. unfold window in Hlt.
    rewrite length_app, length_drop, H8 in Hlt. simpl in Hlt. lia. }
  rewrite Hadd' in Hadd. injection Hadd as <-. rewrite Hbuf in *. cbn [dq_items] in *.
  assert (Hle : n ≤ 5 + if bool_decide (p = w) then 1 else 0).
  { rewrite Hn. unfold window. rewrite count_app, count_singleton.
    pose proof (count_drop w 1 (dq_items (frame_buffer s))). specialize (Hinv w). lia. }
  destruct (decide (6 ≤ n)) as [H6|H6].
  - rewrite bool_decide_eq_true_2 by done. right.
    assert (Hpw : p = w).
    { destruct (decide (p = w)); [done|]. rewrite bool_decide_eq_false_2 in Hle by done. lia. }
    subst w. rewrite bool_decide_eq_true_2 in Hle by done.
    split; [lia|]. apply commit_word_set_buffer.
  - rewrite bool_decide_eq_false_2 by done. left. split; [|done].
    intros w'. specialize (Hmax w'). lia.
Qed.

Lemma full_buffer_slides_witness :
  reachable undecided
  ∧ Sentence.add_prediction 9 (Some "A") 1 undecided
    = Ok (Sentence.set_buffer (Sentence._commit_word 9 "A" undecided)
            {| dq_items := []; dq_maxlen := 8 |})
  ∧ ∀ w, count w (dq_items (frame_buffer undecided)) ≤ 5.
Proof.
  assert (Hr : reachable undecided).
  { apply (feed_reachable ((λ p, (1%float, p)) <$> dq_items (frame_buffer undecided))
             Sentence.init); [apply reach_init|vm_compute; reflexivity]. }
  assert (Hadd : Sentence.add_prediction 9 (Some "A") 1 undecided
                 = Ok (Sentence.set_buffer (Sentence._commit_word 9 "A" undecided)
                         {| dq_items := []; dq_maxlen := 8 |}))
    by (vm_compute; reflexivity).
  split; [exact Hr|]. split; [exact Hadd|].
  exact (proj1 (full_buffer_slides undecided _ 9 1 "A" Hr eq_refl ltac:(done) Hadd)).
Defined.
